(** * ipcheck: reachability detection engine (main.go)

    A shallow embedding of the detection engine of [main.go]: the three
    admission gates and their sizing from the environment ([getEnvInt],
    [init], [acquire], [release]), the ICMP prober ([doICMP], [getProto]),
    the two racing stages ([raceEcho], [tcpConnectRace]), the system ping
    fallback ([pingWithFamily]) and the orchestrator ([detectAndPing]);
    and of what stands between a request and the engine: the validation
    of the parameter ([isValidInput], with the pattern [reDomain] read by
    a matcher of regular expressions on code points) and the handlers of
    [GET /api/ping] and [GET /api/ping/json].

    Everything outside the repository (the Go runtime, the standard library
    packages [net], [os], [os/exec], [x/net/icmp], [x/net/idna] and the
    network itself) is either modelled from its documented behaviour
    ([strings.TrimSpace], [strconv.Atoi], [net.IP.To4], [icmp.ParseMessage],
    the decoding of UTF-8, the matching of regular expressions, buffered
    channels, deadlines of sockets, dials and child processes) or supplied
    by a [World] record of oracles that fixes, for one execution, what
    every external operation answers and when; [idna.Lookup.ToASCII] is a
    function left open.

    How the program is represented:
    - time is explicit: code runs from an instant and returns at an
      instant, or stays blocked; computing takes no time, waiting does;
    - a [context.Context] is its deadline and the instant at which it is
      cancelled, if any; [Done()] is closed from the earlier of the two;
    - goroutines started by [go] run from the instant of the [go]
      statement, each under a name of its own; a [sync.WaitGroup] ends its
      wait at the latest return; the one-shot channel [done] of a stage
      holds a value from the earliest success on;
    - a [select] takes the arm that is ready first, and the choice of the
      runtime among arms ready at the same instant is an oracle of the
      world ([pick]);
    - every function returns, next to its value, the trace of the
      observable events of all the goroutines it started, also of those it
      does not wait for.  The deferred [cancel()] of a stage runs when the
      result of the stage is fixed; what it spares the goroutines still
      running is not represented, the properties of one goroutine are
      stated for every context, cancelled or not. *)

From Stdlib Require Import ZArith Lia Bool Ascii String List.
From Stdlib Require Import DecimalString DecimalPos.
From stdpp Require Import base option gmap strings.
Import ListNotations.

Local Open Scope string_scope.
Local Open Scope list_scope.
Local Open Scope Z_scope.

(** ** Go library: [strings.TrimSpace] *)

Module Go_strings.

(** A Go string is a sequence of bytes; [ws] lists the UTF-8 encodings of
    the code points for which [unicode.IsSpace] holds: the six ASCII ones,
    U+0085, U+00A0, U+1680, U+2000..U+200A, U+2028, U+2029, U+202F,
    U+205F and U+3000. *)
Definition bytes (l : list nat) : list ascii := map ascii_of_nat l.

Definition ws : list (list ascii) :=
  map bytes
    [ [9]; [10]; [11]; [12]; [13]; [32];
      [194; 133]; [194; 160]; [225; 154; 128];
      [226; 128; 128]; [226; 128; 129]; [226; 128; 130]; [226; 128; 131];
      [226; 128; 132]; [226; 128; 133]; [226; 128; 134]; [226; 128; 135];
      [226; 128; 136]; [226; 128; 137]; [226; 128; 138];
      [226; 128; 168]; [226; 128; 169]; [226; 128; 175];
      [226; 129; 159]; [227; 128; 128] ]%nat.

Fixpoint stripPrefix (p s : list ascii) : option (list ascii) :=
  match p, s with
  | [], _ => Some s
  | a :: p', b :: s' => if Ascii.eqb a b then stripPrefix p' s' else None
  | _ :: _, [] => None
  end.

(** The rest of [s] after one leading white-space rune of [table]. *)
Fixpoint stripSpace (table : list (list ascii)) (s : list ascii)
  : option (list ascii) :=
  match table with
  | [] => None
  | p :: table' =>
      match stripPrefix p s with
      | Some r => Some r
      | None => stripSpace table' s
      end
  end.

(** [fuel] bounds the number of runes removed; the length of the string
    always suffices. *)
Fixpoint trimLeft (table : list (list ascii)) (fuel : nat) (s : list ascii)
  : list ascii :=
  match fuel with
  | O => s
  | S fuel' =>
      match stripSpace table s with
      | Some r => trimLeft table fuel' r
      | None => s
      end
  end.

Definition TrimLeftSpace (s : list ascii) : list ascii :=
  trimLeft ws (List.length s) s.

Definition TrimRightSpace (s : list ascii) : list ascii :=
  rev (trimLeft (map (@rev ascii) ws) (List.length s) (rev s)).

Definition TrimSpace (s : string) : string :=
  string_of_list_ascii
    (TrimRightSpace (TrimLeftSpace (list_ascii_of_string s))).

End Go_strings.

(** ** Go library: [strconv.Atoi] *)

Module Go_strconv.

Definition isDigit (c : ascii) : bool :=
  let n := Z.of_nat (nat_of_ascii c) in (48 <=? n) && (n <=? 57).

Definition digitVal (c : ascii) : Z := Z.of_nat (nat_of_ascii c) - 48.

(** Base-10 value of a string of digits, most significant first;
    [None] is the syntax error of a character that is not a digit. *)
Fixpoint digits (acc : Z) (s : string) : option Z :=
  match s with
  | EmptyString => Some acc
  | String c r =>
      if isDigit c then digits (acc * 10 + digitVal c) r else None
  end.

(** [Atoi]: an optional sign, then at least one digit, nothing else; the
    value must fit the [int] type of the platform, [intSize] bits wide
    (32 or 64).  [None] stands for a non-nil [err]. *)
Definition Atoi (intSize : Z) (s : string) : option Z :=
  match s with
  | EmptyString => None
  | String c r =>
      let signed := Ascii.eqb c "+" || Ascii.eqb c "-" in
      let body := if signed then r else s in
      match body with
      | EmptyString => None
      | _ =>
          match digits 0 body with
          | None => None
          | Some n =>
              let v := if Ascii.eqb c "-" then - n else n in
              if (- 2 ^ (intSize - 1) <=? v) && (v <=? 2 ^ (intSize - 1) - 1)
              then Some v else None
          end
      end
  end.

End Go_strconv.

(** ** Go library: [os.Getenv] *)

Module Go_os.

(** The process environment; [Getenv] is empty for a variable that is
    not present. *)
Definition Getenv (environ : gmap string string) (key : string) : string :=
  default "" (environ !! key).

End Go_os.

(** ** Go library: [unicode/utf8] *)

Module Go_utf8.

Definition RuneError : Z := 65533.

Definition between (lo hi b : Z) : bool := (lo <=? b) && (b <=? hi).

(** [utf8.DecodeRuneInString] on the bytes of a string: the first code
    point and the number of bytes of its encoding.  An encoding that is
    not valid (a stray continuation byte, an overlong form, a surrogate,
    a value above U+10FFFF, a sequence cut short) gives [RuneError] with
    width 1; the empty string gives it with width 0. *)
Definition DecodeRune (s : list Z) : Z * nat :=
  let bad := (RuneError, 1%nat) in
  let low b := Z.land b 63 in
  match s with
  | [] => (RuneError, 0%nat)
  | b0 :: s1 =>
      if b0 <? 128 then (b0, 1%nat)
      else if between 194 223 b0 then
        match s1 with
        | b1 :: _ =>
            if between 128 191 b1
            then (Z.lor (Z.shiftl (Z.land b0 31) 6) (low b1), 2%nat)
            else bad
        | _ => bad
        end
      else if between 224 239 b0 then
        match s1 with
        | b1 :: b2 :: _ =>
            if between (if b0 =? 224 then 160 else 128)
                       (if b0 =? 237 then 159 else 191) b1
               && between 128 191 b2
            then (Z.lor (Z.shiftl (Z.land b0 15) 12)
                    (Z.lor (Z.shiftl (low b1) 6) (low b2)), 3%nat)
            else bad
        | _ => bad
        end
      else if between 240 244 b0 then
        match s1 with
        | b1 :: b2 :: b3 :: _ =>
            if between (if b0 =? 240 then 144 else 128)
                       (if b0 =? 244 then 143 else 191) b1
               && between 128 191 b2 && between 128 191 b3
            then (Z.lor (Z.shiftl (Z.land b0 7) 18)
                    (Z.lor (Z.shiftl (low b1) 12)
                       (Z.lor (Z.shiftl (low b2) 6) (low b3))), 4%nat)
            else bad
        | _ => bad
        end
      else bad
  end.

(** The code points of a sequence of bytes, one [DecodeRune] after the
    other; [fuel] bounds their number, the length always suffices. *)
Fixpoint decode (fuel : nat) (s : list Z) : list Z :=
  match fuel, s with
  | O, _ | _, [] => []
  | S fuel', _ :: _ =>
      let rw := DecodeRune s in rw.1 :: decode fuel' (skipn rw.2 s)
  end.

Definition bytesOf (s : string) : list Z :=
  map (fun c => Z.of_nat (nat_of_ascii c)) (list_ascii_of_string s).

(** What a [for _, r := range s] sees, and what package [regexp] reads. *)
Definition runes (s : string) : list Z :=
  decode (List.length (bytesOf s)) (bytesOf s).

End Go_utf8.

(** ** Go library: [regexp] *)

Module Go_regexp.

(** Parsed regular expressions, as package [regexp/syntax] has them: a
    character class is a list of ranges of code points. *)
Inductive Regexp : Type :=
| NoMatch
| EmptyMatch
| CharClass (ranges : list (Z * Z))
| Concat (a b : Regexp)
| Alternate (a b : Regexp)
| Star (a : Regexp)
| Quest (a : Regexp)
| Repeat (min max : nat) (a : Regexp).

Definition inClass (ranges : list (Z * Z)) (r : Z) : bool :=
  existsb (fun lh => (lh.1 <=? r) && (r <=? lh.2)) ranges.

(** Does the expression match the empty input. *)
Fixpoint nullable (re : Regexp) : bool :=
  match re with
  | NoMatch => false
  | EmptyMatch => true
  | CharClass _ => false
  | Concat a b => nullable a && nullable b
  | Alternate a b => nullable a || nullable b
  | Star _ => true
  | Quest _ => true
  | Repeat min max a => (min <=? max)%nat && ((min =? 0)%nat || nullable a)
  end.

(** What is left to match after the code point [r]. *)
Fixpoint deriv (r : Z) (re : Regexp) : Regexp :=
  match re with
  | NoMatch => NoMatch
  | EmptyMatch => NoMatch
  | CharClass ranges => if inClass ranges r then EmptyMatch else NoMatch
  | Concat a b =>
      if nullable a
      then Alternate (Concat (deriv r a) b) (deriv r b)
      else Concat (deriv r a) b
  | Alternate a b => Alternate (deriv r a) (deriv r b)
  | Star a => Concat (deriv r a) (Star a)
  | Quest a => deriv r a
  | Repeat min max a =>
      match max with
      | O => NoMatch
      | S max' => Concat (deriv r a) (Repeat (Nat.pred min) max' a)
      end
  end.

(** The whole input matches the expression. *)
Definition matches (re : Regexp) (input : list Z) : bool :=
  nullable (fold_left (fun re r => deriv r re) input re).

(** [re.MatchString(s)] for a pattern written between [^] and [$]
    without the flag [m]: a match has to span the whole string, read as
    UTF-8. *)
Definition MatchString (re : Regexp) (s : string) : bool :=
  matches re (Go_utf8.runes s).

End Go_regexp.

(** ** Buffered channels of [struct{}] *)

(** A [chan struct{}] carries no data: its state is its capacity and the
    number of elements buffered.  A send goes through only below capacity
    and a receive only on a non-empty buffer; [None] means the operation
    cannot proceed (the goroutine stays blocked). *)
Record Chan : Type := mkChan { chanCap : Z; chanLen : Z }.

Definition make (n : Z) : Chan := {| chanCap := n; chanLen := 0 |}.

Definition send (c : Chan) : option Chan :=
  if chanLen c <? chanCap c
  then Some {| chanCap := chanCap c; chanLen := chanLen c + 1 |}
  else None.

Definition recv (c : Chan) : option Chan :=
  if 0 <? chanLen c
  then Some {| chanCap := chanCap c; chanLen := chanLen c - 1 |}
  else None.

(** ** The three admission gates *)

Inductive Sem : Type := semDNS | semICMP | semTCP.

Global Instance Sem_eq_dec : EqDecision Sem.
Proof. solve_decision. Defined.

(** [getEnvInt] *)
Definition getEnvInt (intSize : Z) (environ : gmap string string)
    (key : string) (def : Z) : Z :=
  let v := Go_strings.TrimSpace (Go_os.Getenv environ key) in
  if String.eqb v "" then def
  else
    match Go_strconv.Atoi intSize v with
    | None => def
    | Some i => if i <=? 0 then def else i
    end.

(** [init]: the gate behind each of the three global variables. *)
Definition init (intSize : Z) (environ : gmap string string) (s : Sem) : Chan :=
  match s with
  | semDNS => make (getEnvInt intSize environ "MAX_DNS" 4096)
  | semICMP => make (getEnvInt intSize environ "MAX_ICMP" 8192)
  | semTCP => make (getEnvInt intSize environ "MAX_TCP" 8192)
  end.

(** ** Time and contexts *)

(** Instants and durations are integers, in nanoseconds as in package
    [time]. *)
Abbreviation Time := Z (only parsing).
Abbreviation Duration := Z (only parsing).
Definition Millisecond : Duration := 1000000.
Definition Second : Duration := 1000 * Millisecond.

(** The earlier of two optional instants. *)
Definition omin (a b : option Time) : option Time :=
  match a, b with
  | Some x, Some y => Some (Z.min x y)
  | Some x, None => Some x
  | None, _ => b
  end.

(** What the program observes of a [context.Context]: the deadline it
    reports through [Deadline()], and the instant, if any, at which someone
    calls its cancel function.  Its [Done()] channel is closed from the
    earlier of the two onwards. *)
Record Context : Type := mkContext {
  ctxDeadline : option Time;
  ctxCancel : option Time
}.

Definition doneAt (ctx : Context) : option Time :=
  omin (ctxDeadline ctx) (ctxCancel ctx).

Definition isDone (ctx : Context) (now : Time) : bool :=
  match doneAt ctx with
  | Some d => d <=? now
  | None => false
  end.

(** [context.WithTimeout(parent, d)] called at [now]. *)
Definition WithTimeout (parent : Context) (now : Time) (d : Duration) : Context :=
  {| ctxDeadline := omin (ctxDeadline parent) (Some (now + d));
     ctxCancel := ctxCancel parent |}.

(** A context that ends only by its deadline, if it has one. *)
Definition deadlineOnly (d : option Time) : Context :=
  {| ctxDeadline := d; ctxCancel := None |}.

(** ** Addresses and ICMP messages *)

Definition IP : Type := list Byte.byte.

Definition isZeros (p : list Byte.byte) : bool :=
  forallb (Byte.eqb Byte.x00) p.

(** [net.IP.To4]: the 4-byte form of an IPv4 address, also when it is
    stored in the 16-byte IPv4-in-IPv6 form; [None] is Go's [nil]. *)
Definition To4 (ip : IP) : option IP :=
  if (Z.of_nat (List.length ip) =? 4) then Some ip
  else if (Z.of_nat (List.length ip) =? 16)
          && isZeros (firstn 10 ip)
          && Byte.eqb (nth 10 ip Byte.x00) Byte.xff
          && Byte.eqb (nth 11 ip Byte.x00) Byte.xff
  then Some (skipn 12 ip)
  else None.

(** [icmp.Type] is an interface implemented by [ipv4.ICMPType] and
    [ipv6.ICMPType]; two interface values are equal when they have the same
    dynamic type and the same number. *)
Inductive ICMPType : Type :=
| ipv4_ICMPType (n : Z)
| ipv6_ICMPType (n : Z).

Definition ipv4_ICMPTypeEcho : ICMPType := ipv4_ICMPType 8.
Definition ipv4_ICMPTypeEchoReply : ICMPType := ipv4_ICMPType 0.
Definition ipv6_ICMPTypeEchoRequest : ICMPType := ipv6_ICMPType 128.
Definition ipv6_ICMPTypeEchoReply : ICMPType := ipv6_ICMPType 129.

Definition ICMPType_eqb (a b : ICMPType) : bool :=
  match a, b with
  | ipv4_ICMPType m, ipv4_ICMPType n => m =? n
  | ipv6_ICMPType m, ipv6_ICMPType n => m =? n
  | _, _ => false
  end.

Record Echo : Type := mkEcho { ID : Z; Seq : Z; Data : string }.

(** [icmp.Message]; the body of a parsed message is never inspected by the
    program and is left out ([None]). *)
Record Message : Type := mkMessage {
  Type_ : ICMPType;
  Code : Z;
  Checksum : Z;
  Body : option Echo
}.

Definition byteZ (b : Byte.byte) : Z := Z.of_N (Byte.to_N b).

(** [icmp.ParseMessage]: at least four bytes, the protocol number selects
    how the type octet is read, then the body parser of that type has to
    accept the rest ([bodyOK]). *)
Definition ParseMessage (bodyOK : Z -> ICMPType -> list Byte.byte -> bool)
    (proto : Z) (b : list Byte.byte) : option Message :=
  match b with
  | b0 :: b1 :: b2 :: b3 :: rest =>
      let m (ty : ICMPType) :=
        if bodyOK proto ty rest
        then Some {| Type_ := ty; Code := byteZ b1;
                     Checksum := byteZ b2 * 256 + byteZ b3; Body := None |}
        else None in
      if proto =? 1 then m (ipv4_ICMPType (byteZ b0))
      else if proto =? 58 then m (ipv6_ICMPType (byteZ b0))
      else None
  | _ => None
  end.

(** [x != nil] *)
Definition notNil {A} (x : option A) : bool :=
  match x with Some _ => true | None => false end.

(** ** Goroutines, events and the world *)

(** A goroutine is named by the path of [go] statements that led to it,
    from the goroutine that serves the request. *)
Definition GoId : Type := list nat.

(** Errors of a dial, as package [net] reports them. *)
Inductive DialError : Type :=
| ECONNREFUSED | EHOSTUNREACH | ENETUNREACH | ETIMEDOUT
| ErrDeadlineExceeded | ErrCanceled | ErrOther (msg : string).

(** What a raw socket has to deliver next: a packet, or a read error. *)
Inductive Rx : Type :=
| RxPacket (t : Time) (data : list Byte.byte)
| RxError (t : Time) (timeout : bool).

Inductive ConnectOutcome : Type :=
| Established (t : Time)
| Failed (t : Time) (e : DialError)
| NoAnswer.

(** The observable actions of the engine, with the answers it got. *)
Inductive Event : Type :=
| EvAcquire (sem : Sem)
| EvRelease (sem : Sem)
| EvLookupIP (network host : string) (ips : list IP)
| EvListenPacket (network laddr : string) (ok : bool)
| EvWriteTo (ip : IP) (ok : bool)
| EvReadFrom (r : option (list Byte.byte))
| EvSockClose
| EvDoICMP (ip : IP) (ok : bool)
| EvDial (network : string) (ip : IP) (port : string) (err : option DialError)
| EvConnClose
| EvRun (name : string) (args : list string) (ok : bool).

Record Entry : Type := mkEntry { who : GoId; at_ : Time; what : Event }.

Definition Trace : Type := list Entry.

(** One execution's environment.  Every oracle is asked by a goroutine at
    an instant, and says what the outside answers and when. *)
Record World : Type := mkWorld {
  (** [runtime.GOOS] and [os.Getpid()] *)
  GOOS : string;
  Getpid : Z;
  (** [net.ParseIP]; [None] is [nil] *)
  ParseIP : string -> option IP;
  (** the resolver: the addresses and the instant of the answer *)
  resolver : string -> string -> GoId -> Time -> option (list IP * Time);
  (** from which instant on a send on the gate can go through *)
  slotFree : Sem -> GoId -> Time -> option Time;
  (** the runtime's choice between two ready arms of a [select]:
      [true] for the first arm *)
  pick : GoId -> Time -> bool;
  (** does [icmp.ListenPacket] get a raw socket *)
  listenOK : string -> string -> GoId -> Time -> bool;
  (** [icmp.Message.Marshal] *)
  Marshal : Message -> option (list Byte.byte);
  (** body parsers of [icmp.ParseMessage] *)
  bodyOK : Z -> ICMPType -> list Byte.byte -> bool;
  (** does the kernel take the datagram *)
  writeOK : list Byte.byte -> IP -> GoId -> Time -> bool;
  (** what the socket opened by this goroutine at this instant receives *)
  inbound : GoId -> Time -> list Rx;
  (** how a TCP connection attempt ends *)
  connect : string -> IP -> string -> GoId -> Time -> ConnectOutcome;
  (** a child process: exit status zero or not and the instant of exit;
      [None] when it never exits by itself *)
  child : string -> list string -> GoId -> Time -> option (bool * Time)
}.

(** The result of running a piece of code from some instant: it returns a
    value at an instant, or it stays blocked for ever.  Both come with the
    events that happened. *)
Inductive Run (A : Type) : Type :=
| Returns (a : A) (t : Time) (tr : Trace)
| Blocks (tr : Trace).
Arguments Returns {A} a t tr.
Arguments Blocks {A} tr.

Definition traceOf {A} (r : Run A) : Trace :=
  match r with Returns _ _ tr => tr | Blocks tr => tr end.

(** Code run by goroutine [me] from instant [now]. *)
Definition M (A : Type) : Type := GoId -> Time -> Run A.

Global Instance M_ret : MRet M := fun A (a : A) _ now => Returns a now [].

(** The run [r], after the events [tr]. *)
Definition after {A} (tr : Trace) (r : Run A) : Run A :=
  match r with
  | Returns a t tr' => Returns a t (tr ++ tr')
  | Blocks tr' => Blocks (tr ++ tr')
  end.

Global Instance M_bind : MBind M := fun A B (k : A -> M B) (m : M A) me now =>
  match m me now with
  | Returns a t tr => after tr (k a me t)
  | Blocks tr => Blocks tr
  end.

Definition emit (e : Event) : M unit := fun me now =>
  Returns tt now [ {| who := me; at_ := now; what := e |} ].

(** [defer d] at the head of a body: [d] runs when the body returns. *)
Definition defer {A} (d : M unit) (body : M A) : M A :=
  a ← body; d;; mret a.

(** Go's short-circuit [||] on calls. *)
Definition orElse (a b : M bool) : M bool :=
  x ← a; if x : bool then mret true else b.
Infix "|||" := orElse (at level 50, left associativity).

(** A blocking [select] with two arms, entered at [now]: arm one is ready
    from [a] on, arm two from [b] on.  The arm that is ready first is
    taken; when both are ready at the same instant the runtime picks. *)
Definition select2 (choice : bool) (now : Time) (a b : option Time)
  : option (bool * Time) :=
  match a, b with
  | None, None => None
  | Some x, None => Some (true, Z.max now x)
  | None, Some y => Some (false, Z.max now y)
  | Some x, Some y =>
      let x' := Z.max now x in
      let y' := Z.max now y in
      if x' <? y' then Some (true, x')
      else if y' <? x' then Some (false, y')
      else Some (choice, x')
  end.

(** Goroutines started together by [go] at the same instant, the
    [sync.WaitGroup] that waits for all of them: the wait ends when the
    last one returns. *)
Definition goWait2 {A B} (i : nat) (m1 : option (M A)) (j : nat) (m2 : option (M B))
  : M (option A * option B) := fun me now =>
  let r1 := option_map (fun m => m (me ++ [i]%nat) now) m1 in
  let r2 := option_map (fun m => m (me ++ [j]%nat) now) m2 in
  let tr := from_option traceOf [] r1 ++ from_option traceOf [] r2 in
  match r1, r2 with
  | Some (Blocks _), _ | _, Some (Blocks _) => Blocks tr
  | Some (Returns a t1 _), Some (Returns b t2 _) =>
      Returns (Some a, Some b) (Z.max now (Z.max t1 t2)) tr
  | Some (Returns a t1 _), None => Returns (Some a, None) (Z.max now t1) tr
  | None, Some (Returns b t2 _) => Returns (None, Some b) (Z.max now t2) tr
  | None, None => Returns (None, None) now tr
  end.

(** ** The engine *)

Record pingResult : Type := mkPingResult { IPv4 : string; IPv6 : string }.

Section Engine.

Variable W : World.

Definition entry (me : GoId) (t : Time) (e : Event) : Entry :=
  {| who := me; at_ := t; what := e |}.

(** [acquire]: the send on the gate against [ctx.Done()]. *)
Definition acquire (ctx : Context) (sem : Sem) : M bool := fun me now =>
  match select2 (pick W me now) now (slotFree W sem me now) (doneAt ctx) with
  | Some (true, t) => Returns true t [entry me t (EvAcquire sem)]
  | Some (false, t) => Returns false t []
  | None => Blocks []
  end.

(** [release]: the receive from the gate; the caller holds a slot, so
    the buffer is not empty and the receive does not wait. *)
Definition release (sem : Sem) : M unit := emit (EvRelease sem).

(** [getProto] *)
Definition getProto (ip : IP) : Z :=
  if notNil (To4 ip) then 1 else 58.

(** *** Raw sockets *)

(** A deadline set on a socket or a dial has passed at [now]. *)
Definition expired (sd : option Time) (now : Time) : bool :=
  match sd with
  | Some d => d <=? now
  | None => false
  end.

(** [icmp.ListenPacket]: the socket is represented by what it is going
    to receive; [None] is a non-nil [err]. *)
Definition ListenPacket (network laddr : string) : M (option (list Rx)) :=
  fun me now =>
    let ok := listenOK W network laddr me now in
    Returns (if ok then Some (inbound W me now) else None) now
      [entry me now (EvListenPacket network laddr ok)].

(** [c.WriteTo] on a socket with deadline [sd]; [true] is a nil [err]. *)
Definition WriteTo (sd : option Time) (b : list Byte.byte) (ip : IP) : M bool :=
  fun me now =>
    let ok := negb (expired sd now) && writeOK W b ip me now in
    Returns ok now [entry me now (EvWriteTo ip ok)].

Definition rxTime (r : Rx) : Time :=
  match r with
  | RxPacket t _ => t
  | RxError t _ => t
  end.

(** [c.ReadFrom(buf)] with a buffer of 1500 bytes, on a socket with
    deadline [sd] whose next delivery is [next]: the read waits for the
    delivery, or fails with a timeout when the deadline comes first, or
    waits for ever. *)
Definition ReadFrom (sd : option Time) (next : option Rx)
  : M (option (list Byte.byte)) := fun me now =>
  let answer t r := Returns r t [entry me t (EvReadFrom r)] in
  match next, sd with
  | None, None => Blocks []
  | None, Some d => answer (Z.max now d) None
  | Some r, _ =>
      let a := Z.max now (rxTime r) in
      if expired sd a then answer (Z.max now (default a sd)) None
      else
        match r with
        | RxPacket _ data => answer a (Some (firstn 1500 data))
        | RxError _ _ => answer a None
        end
  end.

(** One turn of the [for] loop of [doICMP] after the read: [None] is a
    read error (the three tests on [err] all return false). *)
Definition afterRead (ip : IP) (r : option (list Byte.byte)) (again : M bool)
  : M bool :=
  match r with
  | None => mret false
  | Some pkt =>
      match ParseMessage (bodyOK W) (getProto ip) pkt with
      | Some rm =>
          if ICMPType_eqb (Type_ rm) ipv4_ICMPTypeEchoReply
             || ICMPType_eqb (Type_ rm) ipv6_ICMPTypeEchoReply
          then mret true
          else again
      | None => again
      end
  end.

(** The [for] loop of [doICMP], on the deliveries still to come.  With
    nothing left to come the read ends in an error, which ends the loop. *)
Fixpoint readLoop (ctx : Context) (sd : option Time) (ip : IP) (rx : list Rx)
  {struct rx} : M bool := fun me now =>
  if isDone ctx now then Returns false now []
  else
    match rx with
    | [] => (r ← ReadFrom sd None; afterRead ip r (mret false)) me now
    | x :: rest =>
        (r ← ReadFrom sd (Some x); afterRead ip r (readLoop ctx sd ip rest))
          me now
    end.

(** [doICMP], up to its return. *)
Definition doICMP_body (ctx : Context) (ip : IP) : M bool :=
  let '(network, laddr, icmpType) :=
    if notNil (To4 ip)
    then ("ip4:icmp", "0.0.0.0", ipv4_ICMPTypeEcho)
    else ("ip6:ipv6-icmp", "::", ipv6_ICMPTypeEchoRequest) in
  c ← ListenPacket network laddr;
  match c with
  | None => mret false
  | Some rx =>
      defer (emit EvSockClose)
        (let msg :=
           {| Type_ := icmpType; Code := 0; Checksum := 0;
              Body := Some {| ID := Z.land (Getpid W) 65535; Seq := 1;
                              Data := "ping" |} |} in
         match Marshal W msg with
         | None => mret false
         | Some b =>
             let sd := ctxDeadline ctx in
             sent ← WriteTo sd b ip;
             if sent : bool then readLoop ctx sd ip rx else mret false
         end)
  end.

(** [doICMP]; its verdict is recorded when it returns. *)
Definition doICMP (ctx : Context) (ip : IP) : M bool :=
  ok ← doICMP_body ctx ip;
  emit (EvDoICMP ip ok);;
  mret ok.

(** *** TCP *)

Definition ctxErr (ctx : Context) (now : Time) : DialError :=
  if expired (ctxDeadline ctx) now then ErrDeadlineExceeded else ErrCanceled.

(** [net.Dialer{Timeout: timeout}.DialContext(ctx, network, host:port)]:
    the connection has to be established before the timeout and before
    the context is done; [None] is a nil [err]. *)
Definition DialContext (timeout : Duration) (ctx : Context)
    (network : string) (ip : IP) (port : string) : M (option DialError) :=
  fun me now =>
    let answer t err := Returns err t [entry me t (EvDial network ip port err)] in
    if isDone ctx now then answer now (Some (ctxErr ctx now))
    else
      let limit := default (now + timeout)
                     (omin (Some (now + timeout)) (doneAt ctx)) in
      let late :=
        if limit <? now + timeout then ctxErr ctx limit else ETIMEDOUT in
      match connect W network ip port me now with
      | Established t =>
          if Z.max now t <? limit then answer (Z.max now t) None
          else answer limit (Some late)
      | Failed t e =>
          if Z.max now t <? limit then answer (Z.max now t) (Some e)
          else answer limit (Some late)
      | NoAnswer => answer limit (Some late)
      end.

(** *** The system ping *)

(** [exec.CommandContext(ctx, name, args...).Run()]: the process is
    killed when the context is done; [true] is a nil [err]. *)
Definition CommandContext_Run (ctx : Context) (name : string)
    (args : list string) : M bool := fun me now =>
  let answer t ok := Returns ok t [entry me t (EvRun name args ok)] in
  if isDone ctx now then answer now false
  else
    match child W name args me now, doneAt ctx with
    | Some (ok, t), Some d =>
        if Z.max now t <? d then answer (Z.max now t) ok else answer d false
    | Some (ok, t), None => answer (Z.max now t) ok
    | None, Some d => answer d false
    | None, None => Blocks []
    end.

(** [pingWithFamily] *)
Definition pingWithFamily (ctx : Context) (host family : string) : M bool :=
  let osn := GOOS W in
  let args :=
    if String.eqb osn "windows" then
      let args := ["-n"; "1"; "-w"; "1500"] in
      let args :=
        if String.eqb family "4" then ["-4"] ++ args else ["-6"] ++ args in
      args ++ [host]
    else
      let args := ["-c"; "1"] in
      let args :=
        if String.eqb family "4" then ["-4"] ++ args else ["-6"] ++ args in
      args ++ ["-W"; "1"; host] in
  ok ← CommandContext_Run ctx "ping" args;
  if ok : bool then mret true else mret false.

(** *** The racing stages *)

(** The instant from which [done] holds a value: the first goroutine
    that gets through [once.Do(func() { done <- true })].  A goroutine
    is given by its run; it sends at its return when it returns true. *)
Definition signalOf (r : Run bool) : option Time :=
  match r with
  | Returns true t _ => Some t
  | _ => None
  end.

Definition firstSignal (rs : list (Run bool)) : option Time :=
  foldr (fun r acc => omin (signalOf r) acc) None rs.

(** The final [select] of a stage, over the goroutines it started:
    [done] against [ctx2.Done()].  The goroutines are not waited for;
    what they do is part of the trace whenever it happens.  The deferred
    [cancel()] runs at the return, when the result is fixed. *)
Definition awaitFirst (ctx2 : Context) (rs : list (Run bool)) : M bool :=
  fun me now =>
    let tr := concat (map traceOf rs) in
    match select2 (pick W me now) now (firstSignal rs) (doneAt ctx2) with
    | Some (b, t) => Returns b t tr
    | None => Blocks tr
    end.

(** The goroutine of [raceEcho] for one address; [true] when it sends
    on [done]. *)
Definition raceEcho_go (ctx2 : Context) (ip : IP) : M bool :=
  got ← acquire ctx2 semICMP;
  if got : bool then defer (release semICMP) (doICMP ctx2 ip)
  else mret false.

(** [raceEcho] *)
Definition raceEcho (ctx : Context) (ips : list IP) : M bool := fun me now =>
  let ctx2 := WithTimeout ctx now (2200 * Millisecond) in
  let started :=
    imap (fun i ip => raceEcho_go ctx2 ip (me ++ [0; i]%nat) now) ips in
  awaitFirst ctx2 started me now.

(** The goroutine of [tcpConnectRace] for one address and port. *)
Definition tcpConnectRace_go (ctx2 : Context) (dialNet : string) (ip : IP)
    (p : string) : M bool :=
  got ← acquire ctx2 semTCP;
  if got : bool then
    defer (release semTCP)
      (err ← DialContext (1200 * Millisecond) ctx2 dialNet ip p;
       match err with
       | None => emit EvConnClose;; mret true
       | Some _ => mret false
       end)
  else mret false.

(** [tcpConnectRace] *)
Definition tcpConnectRace (ctx : Context) (ips : list IP) (family : string)
    (ports : list string) : M bool := fun me now =>
  let ctx2 := WithTimeout ctx now (2200 * Millisecond) in
  let dialNet := if String.eqb family "6" then "tcp6" else "tcp4" in
  let started :=
    concat
      (imap (fun i ip =>
         imap (fun j p =>
           tcpConnectRace_go ctx2 dialNet ip p (me ++ [1; i; j]%nat) now)
           ports) ips) in
  awaitFirst ctx2 started me now.

(** *** The orchestrator *)

(** [net.DefaultResolver.LookupIP(ctx, network, host)]; an error comes
    with no address. *)
Definition LookupIP (ctx : Context) (network host : string) : M (list IP) :=
  fun me now =>
    let answer t ips := Returns ips t [entry me t (EvLookupIP network host ips)] in
    if isDone ctx now then answer now []
    else
      match resolver W network host me now, doneAt ctx with
      | Some (ips, t), Some d =>
          if Z.max now t <? d then answer (Z.max now t) ips else answer d []
      | Some (ips, t), None => answer (Z.max now t) ips
      | None, Some d => answer d []
      | None, None => Blocks []
      end.

(** One of the two resolving goroutines of [detectAndPing]; it returns
    what it leaves in [v4.v] or [v6.v]. *)
Definition resolve_go (ctx : Context) (network input : string) : M (list IP) :=
  got ← acquire ctx semDNS;
  if got : bool then
    defer (release semDNS)
      (ips ← LookupIP ctx network input;
       if 0 <? Z.of_nat (List.length ips) then mret ips else mret [])
  else mret [].

(** The atomic flag of a goroutine that may call [setV4] or [setV6]. *)
Definition flagOf (r : option bool) : Z :=
  match r with
  | Some true => 1
  | _ => 0
  end.

(** The end of [detectAndPing]: the flags are read into the result. *)
Definition readFlags (res : pingResult) (v4ok v6ok : Z) : pingResult :=
  let res :=
    if v4ok =? 1 then {| IPv4 := "ok"; IPv6 := IPv6 res |} else res in
  let res :=
    if v6ok =? 1 then {| IPv4 := IPv4 res; IPv6 := "ok" |} else res in
  res.

(** The goroutine that [detectAndPing] starts for a literal address: the
    condition under which it calls [setV4] or [setV6]. *)
Definition literal_go (ctx : Context) (parsed : IP) (input family : string)
  : M bool :=
  doICMP ctx parsed ||| pingWithFamily ctx input family.

(** The goroutine that [detectAndPing] starts for the addresses of one
    family of a domain: the condition under which it calls [setV4] or
    [setV6]. *)
Definition family_go (ctx : Context) (ips : list IP) (family : string)
    (ports : list string) (input : string) : M bool :=
  raceEcho ctx ips ||| tcpConnectRace ctx ips family ports
  ||| pingWithFamily ctx input family.

(** [detectAndPing].  The goroutine that may call [setV4] is child 4 of
    the caller and the one that may call [setV6] child 6; the two
    resolving goroutines are children 1 and 2. *)
Definition detectAndPing (parent : Context) (input : string) : M pingResult :=
  fun me now =>
    let ctx := WithTimeout parent now (5 * Second) in
    let res := {| IPv4 := "no"; IPv6 := "no" |} in
    let parsed := ParseIP W input in
    match parsed with
    | Some parsed =>
        (flags ←
           (if notNil (To4 parsed) then
              goWait2 4 (Some (literal_go ctx parsed input "4")) 6 None
            else
              goWait2 4 None 6 (Some (literal_go ctx parsed input "6")));
         mret (readFlags res (flagOf flags.1) (flagOf flags.2))) me now
    | None =>
        (found ←
           goWait2 1 (Some (resolve_go ctx "ip4" input))
                   2 (Some (resolve_go ctx "ip6" input));
         let v4 := default [] found.1 in
         let v6 := default [] found.2 in
         let ports := ["443"; "80"] in
         flags ←
           goWait2
             4 (if 0 <? Z.of_nat (List.length v4) then
                  Some (family_go ctx v4 "4" ports input)
                else None)
             6 (if 0 <? Z.of_nat (List.length v6) then
                  Some (family_go ctx v6 "6" ports input)
                else None);
         mret (readFlags res (flagOf flags.1) (flagOf flags.2))) me now
    end.

End Engine.

(** ** The HTTP side: validation and the two API handlers *)

(** The classes of [reDomain] as the flag [i] leaves them: a class under
    that flag is closed under [unicode.SimpleFold], which adds to the
    letters a-z the letters A-Z, U+017F (long s, folds to s) and U+212A
    (Kelvin sign, folds to k). *)
Definition a_z0_9 : list (Z * Z) :=
  [(48, 57); (65, 90); (97, 122); (383, 383); (8490, 8490)].

Definition a_z0_9_hyphen : list (Z * Z) := (45, 45) :: a_z0_9.

(** One label of [reDomain]: a letter or digit, then optionally up to 61
    letters, digits or hyphens followed by a letter or digit. *)
Definition reLabel : Go_regexp.Regexp :=
  Go_regexp.Concat (Go_regexp.CharClass a_z0_9)
    (Go_regexp.Quest
       (Go_regexp.Concat
          (Go_regexp.Repeat 0 61 (Go_regexp.CharClass a_z0_9_hyphen))
          (Go_regexp.CharClass a_z0_9))).

(** [reDomain], between its anchors: a label, then any number of times a
    dot and a label. *)
Definition reDomain : Go_regexp.Regexp :=
  Go_regexp.Concat reLabel
    (Go_regexp.Star (Go_regexp.Concat (Go_regexp.CharClass [(46, 46)]) reLabel)).

Module Api.

(** [apiResponse]; a nil [Data] is left out of the JSON ([omitempty]). *)
Record apiResponse : Type := mkApiResponse {
  Code : Z;
  Msg : string;
  Data : option pingResult
}.

(** What a handler hands to gin: the headers it sets with [c.Header], and
    its call of [c.String(code, text)] or [c.JSON(code, obj)]. *)
Inductive Render : Type :=
| String_ (code : Z) (text : string)
| JSON (code : Z) (obj : apiResponse).

Record Reply : Type := mkReply {
  header : list (string * string);
  render : Render
}.

End Api.

Section Server.

Variable W : World.

(** [idna.Lookup.ToASCII]; [None] is a non-nil [err]. *)
Variable ToASCII : string -> option string.

(** [isValidInput] *)
Definition isValidInput (s : string) : bool :=
  if String.eqb s "" || (255 <? Z.of_nat (String.length s)) then false
  else if notNil (ParseIP W s) then true
  else
    match ToASCII s with
    | None => false
    | Some ascii =>
        if String.eqb ascii "" || (253 <? Z.of_nat (String.length ascii))
        then false
        else Go_regexp.MatchString reDomain ascii
    end.

(** The handler of [GET /api/ping]; [query] is [c.Query("ip")], empty
    when the parameter is absent, and [reqCtx] is the context of the
    request. *)
Definition GET_api_ping (reqCtx : Context) (query : string) : M Api.Reply :=
  let input := Go_strings.TrimSpace query in
  if negb (isValidInput input) then
    mret {| Api.header := [];
            Api.render := Api.String_ 400 "invalid ip or domain" |}
  else
    res ← detectAndPing W reqCtx input;
    mret {| Api.header := [("Content-Type", "text/plain; charset=utf-8")];
            Api.render :=
              Api.String_ 200
                (String.append "ipv4:"
                   (String.append (IPv4 res)
                      (String.append ",ipv6:" (IPv6 res)))) |}.

(** The handler of [GET /api/ping/json]. *)
Definition GET_api_ping_json (reqCtx : Context) (query : string) : M Api.Reply :=
  let input := Go_strings.TrimSpace query in
  if negb (isValidInput input) then
    mret {| Api.header := [];
            Api.render :=
              Api.JSON 400 {| Api.Code := 400; Api.Msg := "invalid ip or domain";
                              Api.Data := None |} |}
  else
    res ← detectAndPing W reqCtx input;
    mret {| Api.header := [];
            Api.render :=
              Api.JSON 200 {| Api.Code := 200; Api.Msg := "success";
                              Api.Data := Some res |} |}.

End Server.

(** ** Vocabulary of the properties *)

(** The decimal numeral of a positive integer, without sign or leading
    zero. *)
Definition decimal (p : positive) : string :=
  NilZero.string_of_uint (Pos.to_uint p).

(** A string with [k] spaces before it and [k'] spaces after it. *)
Definition padded (k k' : nat) (s : string) : string :=
  string_of_list_ascii
    (repeat " "%char k ++ list_ascii_of_string s ++ repeat " "%char k').

(** A numeral: an optional sign and at least one character, all of them
    decimal digits. *)
Definition numeral (s : string) : Prop :=
  exists sign body,
    s = String.append sign body /\
    (sign = "" \/ sign = "+" \/ sign = "-") /\
    body <> "" /\
    Forall (fun c => Go_strconv.isDigit c = true) (list_ascii_of_string body).

(** The echo-reply type of the protocol of the address probed: ICMPv4 for
    an IPv4 address, ICMPv6 otherwise. *)
Definition echoReplyFor (ip : IP) : ICMPType :=
  if notNil (To4 ip) then ipv4_ICMPTypeEchoReply else ipv6_ICMPTypeEchoReply.

(** The packet parses, under the protocol of [ip], to an echo reply of
    that protocol. *)
Definition isEchoReplyFor (W : World) (ip : IP) (pkt : list Byte.byte) : bool :=
  match ParseMessage (bodyOK W) (getProto ip) pkt with
  | Some rm => ICMPType_eqb (Type_ rm) (echoReplyFor ip)
  | None => false
  end.

(** The events of a goroutine reading the packets [l] one after the
    other. *)
Definition reads (me : GoId) (l : list (Time * list Byte.byte)) : Trace :=
  map (fun tp => entry me tp.1 (EvReadFrom (Some tp.2))) l.

(** The socket [doICMP] asks for and the echo request it sends, by the
    protocol of the address. *)
Definition socketFor (ip : IP) : string * string :=
  if notNil (To4 ip) then ("ip4:icmp", "0.0.0.0") else ("ip6:ipv6-icmp", "::").

Definition echoRequestFor (W : World) (ip : IP) : Message :=
  {| Type_ := if notNil (To4 ip) then ipv4_ICMPTypeEcho
              else ipv6_ICMPTypeEchoRequest;
     Code := 0; Checksum := 0;
     Body := Some {| ID := Z.land (Getpid W) 65535; Seq := 1; Data := "ping" |} |}.

(** The events that report a probe that succeeded: [doICMP] returning
    true, a dial without error, a ping process that exits with status
    zero. *)
Definition success (e : Event) : bool :=
  match e with
  | EvDoICMP _ true => true
  | EvDial _ _ _ None => true
  | EvRun _ _ true => true
  | _ => false
  end.

(** All the events of [tr] are events of [me] or of goroutines started
    from it, between the instants [lo] and [hi]. *)
Definition inside (me : GoId) (lo hi : Time) (tr : Trace) : Prop :=
  Forall (fun e => me `prefix_of` who e /\ lo <= at_ e <= hi) tr.

(** Code that, started at any instant, returns at [d] at the latest (or at
    once when [d] has passed), and does nothing after that. *)
Definition Timely {A} (d : Time) (m : M A) : Prop :=
  forall me now,
    exists a t tr,
      m me now = Returns a t tr /\
      now <= t <= Z.max now d /\
      inside me now (Z.max now d) tr.

(** Code none of whose events reports a success. *)
Definition Silent {A} (m : M A) : Prop :=
  forall me now, Forall (fun e => success (what e) = false) (traceOf (m me now)).

(** Code whose boolean result says whether one of its probes succeeded,
    every success being reported before [d]. *)
Definition Verdict (d : Time) (m : M bool) : Prop :=
  forall me now ok t tr,
    m me now = Returns ok t tr ->
    (ok = true <-> Exists (fun e => success (what e) = true) tr) /\
    Forall (fun e => success (what e) = true -> at_ e < d) tr /\
    (ok = true -> t < d).

(** The deadline of the context a stage makes for itself at [now]: 2.2 s
    later, or the deadline of the context it was given when that is
    earlier. *)
Definition stageEnd (ctx : Context) (now : Time) : Time :=
  match ctxDeadline ctx with
  | Some d => Z.min d (now + 2200 * Millisecond)
  | None => now + 2200 * Millisecond
  end.

(** The deadline of the context [detectAndPing] makes at [now] when its
    caller's context has the deadline [d]: 5 s later, or [d] when that is
    earlier. *)
Definition overallEnd (d : option Time) (now : Time) : Time :=
  match d with
  | Some d => Z.min d (now + 5 * Second)
  | None => now + 5 * Second
  end.

(** What an event belongs to: one of the gates, the resolver, the ICMP
    prober, the TCP prober, the system ping. *)
Inductive Kind : Type :=
| KGate (s : Sem)
| KResolve
| KICMP
| KTCP
| KPing.

Definition kind (e : Event) : Kind :=
  match e with
  | EvAcquire s | EvRelease s => KGate s
  | EvLookupIP _ _ _ => KResolve
  | EvListenPacket _ _ _ | EvWriteTo _ _ | EvReadFrom _ | EvSockClose
  | EvDoICMP _ _ => KICMP
  | EvDial _ _ _ _ | EvConnClose => KTCP
  | EvRun _ _ _ => KPing
  end.

(** Code all of whose events, whether it returns or not, are of the kinds
    [P]. *)
Definition Only {A} (P : Kind -> Prop) (m : M A) : Prop :=
  forall me now, Forall (fun e => P (kind (what e))) (traceOf (m me now)).

(** *** Gates as channels *)

(** What a goroutine does to a gate: the send of [acquire], the receive of
    [release]. *)
Inductive GateOp : Type := Acq | Rel.

Definition gateOp (s : Sem) (e : Event) : option GateOp :=
  match e with
  | EvAcquire s' => if decide (s' = s) then Some Acq else None
  | EvRelease s' => if decide (s' = s) then Some Rel else None
  | _ => None
  end.

(** The operations on gate [s] in a trace, in order. *)
Definition gateOps (s : Sem) (tr : Trace) : list GateOp :=
  omap (fun e => gateOp s (what e)) tr.

(** The channel after a sequence of operations; [None] when one of them
    cannot go through at its turn. *)
Fixpoint runGate (c : Chan) (ops : list GateOp) : option Chan :=
  match ops with
  | [] => Some c
  | Acq :: ops' =>
      match send c with
      | Some c' => runGate c' ops'
      | None => None
      end
  | Rel :: ops' =>
      match recv c with
      | Some c' => runGate c' ops'
      | None => None
      end
  end.


(** The traces of the goroutines that use gate [s]: a goroutine of
    [raceEcho] for the ICMP gate, of [tcpConnectRace] for the TCP gate, a
    resolving goroutine of [detectAndPing] for the DNS gate, each under a
    context that has a deadline, cancelled or not, from any instant. *)
Inductive WorkerTrace (W : World) : Sem -> Trace -> Prop :=
| wt_echo (ctx2 : Context) (d : Time) (ip : IP) (me : GoId) (now : Time) :
    ctxDeadline ctx2 = Some d ->
    WorkerTrace W semICMP (traceOf (raceEcho_go W ctx2 ip me now))
| wt_tcp (ctx2 : Context) (d : Time) (dialNet : string) (ip : IP) (p : string)
    (me : GoId) (now : Time) :
    ctxDeadline ctx2 = Some d ->
    WorkerTrace W semTCP (traceOf (tcpConnectRace_go W ctx2 dialNet ip p me now))
| wt_dns (ctx : Context) (d : Time) (network input : string)
    (me : GoId) (now : Time) :
    ctxDeadline ctx = Some d ->
    WorkerTrace W semDNS (traceOf (resolve_go W ctx network input me now)).




(** *** Validation *)

(** The inputs that a regular expression matches, by the structure of the
    expression: what [Go_regexp.matches] decides. *)
Inductive Lang : Go_regexp.Regexp -> list Z -> Prop :=
| L_Empty : Lang Go_regexp.EmptyMatch []
| L_Class (ranges : list (Z * Z)) (r : Z) :
    Go_regexp.inClass ranges r = true -> Lang (Go_regexp.CharClass ranges) [r]
| L_Concat (a b : Go_regexp.Regexp) (s1 s2 : list Z) :
    Lang a s1 -> Lang b s2 -> Lang (Go_regexp.Concat a b) (s1 ++ s2)
| L_Alt_l (a b : Go_regexp.Regexp) (s : list Z) :
    Lang a s -> Lang (Go_regexp.Alternate a b) s
| L_Alt_r (a b : Go_regexp.Regexp) (s : list Z) :
    Lang b s -> Lang (Go_regexp.Alternate a b) s
| L_Star_nil (a : Go_regexp.Regexp) : Lang (Go_regexp.Star a) []
| L_Star_app (a : Go_regexp.Regexp) (s1 s2 : list Z) :
    Lang a s1 -> Lang (Go_regexp.Star a) s2 -> Lang (Go_regexp.Star a) (s1 ++ s2)
| L_Quest_nil (a : Go_regexp.Regexp) : Lang (Go_regexp.Quest a) []
| L_Quest_one (a : Go_regexp.Regexp) (s : list Z) :
    Lang a s -> Lang (Go_regexp.Quest a) s
| L_Repeat_nil (max : nat) (a : Go_regexp.Regexp) :
    Lang (Go_regexp.Repeat 0 max a) []
| L_Repeat_app (min max : nat) (a : Go_regexp.Regexp) (s1 s2 : list Z) :
    Lang a s1 -> Lang (Go_regexp.Repeat (Nat.pred min) max a) s2 ->
    Lang (Go_regexp.Repeat min (S max) a) (s1 ++ s2).

(** A letter or a digit, as [reDomain] takes them: 0-9, A-Z, a-z and the
    two code points that fold to an ASCII letter, U+017F and U+212A. *)
Definition letterDigit (r : Z) : bool :=
  Go_utf8.between 48 57 r || Go_utf8.between 65 90 r || Go_utf8.between 97 122 r
  || (r =? 383) || (r =? 8490).

(** A label of a host name: 1 to 63 letters, digits or hyphens (code
    point 45), the first and the last a letter or a digit. *)
Definition hostLabel (l : list Z) : Prop :=
  (1 <= List.length l <= 63)%nat /\
  Forall (fun r => letterDigit r = true \/ r = 45) l /\
  (exists r, head l = Some r /\ letterDigit r = true) /\
  (exists r, last l = Some r /\ letterDigit r = true).

(** The pieces of [s] between the occurrences of [sep]; there is always
    at least one piece, and a piece may be empty. *)
Fixpoint splitOn (sep : Z) (s : list Z) : list (list Z) :=
  match s with
  | [] => [[]]
  | r :: s' =>
      if r =? sep then [] :: splitOn sep s'
      else
        match splitOn sep s' with
        | l :: ls => (r :: l) :: ls
        | [] => [[r]]
        end
  end.

(** A first piece and further pieces, with a dot (code point 46) before
    each of the further ones. *)
Definition joinDots (l0 : list Z) (ls : list (list Z)) : list Z :=
  l0 ++ concat (map (cons 46) ls).

(** *** Timing of requests *)

(** "ok" or "no" *)
Definition okno (ok : bool) : string := if ok then "ok" else "no".

(** Code that, when it returns, does so at [c] at the latest (or at once
    when [c] has passed). *)
Definition Prompt {A} (c : Time) (m : M A) : Prop :=
  forall me now a t tr, m me now = Returns a t tr -> t <= Z.max now c.

(** The instant at which the context that a stage makes for itself at
    [now] is done: 2.2 s later, or when the context it was given is done,
    by its deadline or by cancellation, if that comes first. *)
Definition stageDone (ctx : Context) (now : Time) : Time :=
  match doneAt ctx with
  | Some c => Z.min c (now + 2200 * Millisecond)
  | None => now + 2200 * Millisecond
  end.

(** The same for the context that [detectAndPing] makes at [now] from
    the context of its caller: 5 s later, or when the caller's context
    is done. *)
Definition overallDone (parent : Context) (now : Time) : Time :=
  match doneAt parent with
  | Some c => Z.min c (now + 5 * Second)
  | None => now + 5 * Second
  end.

(** A goroutine of a stage, as the final [select] of the stage sees it:
    it returns, not before it was started; it returns true exactly when
    one of its events reports a success; such an event bears the instant
    of the return. *)
Definition Worker (now : Time) (r : Run bool) : Prop :=
  exists ok t tr,
    r = Returns ok t tr /\ now <= t /\
    (ok = true <-> Exists (fun e => success (what e) = true) tr) /\
    Forall (fun e => success (what e) = true -> at_ e = t) tr.


(** *** What a request touches *)

(** Code all of whose events, whether it returns or not, satisfy [P]. *)
Definition Every {A} (P : Event -> Prop) (m : M A) : Prop :=
  forall me now, Forall (fun e => P (what e)) (traceOf (m me now)).

(** The command line of the system ping for a family and a host, in its
    two forms (Windows first). *)
Definition pingCommand (family host name : string) (args : list string) : Prop :=
  name = "ping" /\
  exists flag,
    flag = (if String.eqb family "4" then "-4" else "-6") /\
    (args = [flag; "-n"; "1"; "-w"; "1500"; host] \/
     args = [flag; "-c"; "1"; "-W"; "1"; host]).

(** What the goroutine of one family may do, for the addresses [ips] of
    that family and on behalf of [input]. *)
Definition probes (ips : list IP) (dialNet family : string) (ports : list string)
    (input : string) (e : Event) : Prop :=
  match e with
  | EvAcquire s | EvRelease s => s = semICMP \/ s = semTCP
  | EvLookupIP _ _ _ => False
  | EvListenPacket network laddr _ =>
      exists ip, In ip ips /\ (network, laddr) = socketFor ip
  | EvWriteTo ip _ | EvDoICMP ip _ => In ip ips
  | EvReadFrom _ | EvSockClose | EvConnClose => True
  | EvDial network ip port _ => network = dialNet /\ In ip ips /\ In port ports
  | EvRun name args _ => pingCommand family input name args
  end.

(** The address [ip] is among the answers of a lookup of [input] on
    [network] that is part of the trace [tr]. *)
Definition resolvedBy (input : string) (tr : Trace) (network : string) (ip : IP)
  : Prop :=
  exists e ips, In e tr /\ what e = EvLookupIP network input ips /\ In ip ips.

(** What a request for [input] may do; [tr] is the whole trace of the
    request, in which the lookups are found. *)
Definition concerns (W : World) (input : string) (tr : Trace) (e : Event) : Prop :=
  match e with
  | EvAcquire _ | EvRelease _ | EvReadFrom _ | EvSockClose | EvConnClose => True
  | EvLookupIP network host _ =>
      host = input /\ (network = "ip4" \/ network = "ip6")
  | EvListenPacket network laddr _ =>
      (network, laddr) = ("ip4:icmp", "0.0.0.0") \/
      (network, laddr) = ("ip6:ipv6-icmp", "::")
  | EvWriteTo ip _ | EvDoICMP ip _ =>
      ParseIP W input = Some ip \/
      resolvedBy input tr "ip4" ip \/ resolvedBy input tr "ip6" ip
  | EvDial network ip port _ =>
      (port = "443" \/ port = "80") /\
      ((network = "tcp4" /\ resolvedBy input tr "ip4" ip) \/
       (network = "tcp6" /\ resolvedBy input tr "ip6" ip))
  | EvRun name args _ =>
      pingCommand "4" input name args \/ pingCommand "6" input name args
  end.

(** *** Probes of a family *)




(** *** Slots taken and given back *)

(** Slots taken from a gate and given back to it in a trace, and the
    number of addresses that the lookups of a trace brought. *)
Definition isAcq (o : GateOp) : bool :=
  match o with Acq => true | Rel => false end.

Definition isRel (o : GateOp) : bool :=
  match o with Acq => false | Rel => true end.

Definition acquisitions (s : Sem) (tr : Trace) : nat :=
  List.length (List.filter isAcq (gateOps s tr)).

Definition releases (s : Sem) (tr : Trace) : nat :=
  List.length (List.filter isRel (gateOps s tr)).

Definition resolved (tr : Trace) : nat :=
  list_sum (map (fun e => match what e with
                          | EvLookupIP _ _ ips => List.length ips
                          | _ => 0%nat
                          end) tr).

(** A trace that gives back every slot it takes and takes at most [b s]
    slots of each gate [s]. *)
Definition Budget (b : Sem -> nat) (tr : Trace) : Prop :=
  forall s, acquisitions s tr = releases s tr /\ (acquisitions s tr <= b s)%nat.

(** Code whose trace, whether it returns or not, keeps to the budget. *)
Definition Spends {A} (b : Sem -> nat) (m : M A) : Prop :=
  forall me now, Budget b (traceOf (m me now)).

(** The budget of [n] slots of the gate [s] and none of the others. *)
Definition only (s : Sem) (n : nat) (s' : Sem) : nat :=
  if decide (s' = s) then n else 0%nat.

(** ** Sample worlds *)

Definition byteOf (n : Z) : Byte.byte :=
  default Byte.x00 (Byte.of_N (Z.to_N n)).

(** [net.ParseIP("8.8.8.8")], in the 16-byte form [net.ParseIP] gives,
    an address of example.com, and [net.ParseIP("2001:4860:4860::8888")]. *)
Definition addr_8_8_8_8 : IP :=
  map byteOf [0; 0; 0; 0; 0; 0; 0; 0; 0; 0; 255; 255; 8; 8; 8; 8].
Definition addr_example : IP := map byteOf [93; 184; 216; 34].
Definition addr_v6_dns : IP :=
  map byteOf [32; 1; 72; 96; 72; 96; 0; 0; 0; 0; 0; 0; 0; 0; 136; 136].

(** Packets: an ICMPv4 echo reply, an ICMPv4 destination unreachable, an
    ICMPv6 echo reply. *)
Definition echoReply4 : list Byte.byte :=
  map byteOf [0; 0; 0; 0; 17; 112; 0; 1; 112; 105; 110; 103].
Definition unreachable4 : list Byte.byte :=
  map byteOf [3; 1; 0; 0; 0; 0; 0; 0; 69; 0; 0; 28].
Definition echoReply6 : list Byte.byte :=
  map byteOf [129; 0; 0; 0; 17; 112; 0; 1; 112; 105; 110; 103].

(** A Linux host: raw sockets are permitted or not ([raw]); a raw socket
    receives [rx]; the ports of [openPort] accept connections after 30 ms,
    the others refuse after 1 ms; the ping process exits after 40 ms with
    status zero or not ([ping]).  The gates have room, example.com has one
    IPv4 address and no IPv6 address. *)
Definition sampleWorld (raw : bool) (rx : list Rx) (openPort : string -> bool)
    (ping : bool) : World :=
  {| GOOS := "linux";
     Getpid := 70000;
     ParseIP := fun s =>
       if String.eqb s "8.8.8.8" then Some addr_8_8_8_8
       else if String.eqb s "2001:4860:4860::8888" then Some addr_v6_dns
       else None;
     resolver := fun network host _ t =>
       if String.eqb host "example.com" && String.eqb network "ip4"
       then Some ([addr_example], t + 20 * Millisecond)
       else Some ([], t + 30 * Millisecond);
     slotFree := fun _ _ t => Some t;
     pick := fun _ _ => true;
     listenOK := fun _ _ _ _ => raw;
     Marshal := fun m =>
       Some (map byteOf [8; 0; 0; 0; 17; 112; 0; 1; 112; 105; 110; 103]);
     bodyOK := fun _ _ rest => 4 <=? Z.of_nat (List.length rest);
     writeOK := fun _ _ _ _ => true;
     inbound := fun _ _ => rx;
     connect := fun _ _ port _ t =>
       if openPort port then Established (t + 30 * Millisecond)
       else Failed (t + Millisecond) ECONNREFUSED;
     child := fun _ _ _ t => Some (ping, t + 40 * Millisecond) |}.

(** A context without deadline that its owner cancels at [c]. *)
Definition cancelledAt (c : Time) : Context :=
  {| ctxDeadline := None; ctxCancel := Some c |}.

(** * Properties *)

(** ** Sizing of the gates *)

Section Sizing.

Import Go_strings Go_strconv Go_os.

Lemma digits_acc (u : Decimal.uint) :
  forall acc : positive,
    digits (Z.pos acc) (NilEmpty.string_of_uint u)
    = Some (Z.pos (Pos.of_uint_acc u acc)).
Proof.
  induction u as [| u IH | u IH | u IH | u IH | u IH | u IH | u IH | u IH
                  | u IH | u IH];
    intros acc; cbn [NilEmpty.string_of_uint Pos.of_uint_acc digits];
    [reflexivity | ..];
    (match goal with
     | |- (if isDigit ?c then _ else _) = _ =>
         change (isDigit c) with true; cbv iota
     end);
    rewrite <- IH; f_equal; vm_compute digitVal; lia.
Qed.

Lemma digits_of_uint (u : Decimal.uint) :
  digits 0 (NilEmpty.string_of_uint u) = Some (Z.of_N (Pos.of_uint u)).
Proof.
  induction u as [| u IH | u IH | u IH | u IH | u IH | u IH | u IH | u IH
                  | u IH | u IH];
    cbn [NilEmpty.string_of_uint Pos.of_uint digits];
    [reflexivity | exact IH | ..];
    (match goal with
     | |- (if isDigit ?c then _ else _) = _ =>
         change (isDigit c) with true; cbv iota
     end);
    apply digits_acc.
Qed.

(** [Atoi] reads back the decimal numeral of every positive integer that
    fits the [int] type. *)
Lemma Atoi_decimal (intSize : Z) (p : positive) :
  Z.pos p <= 2 ^ (intSize - 1) - 1 ->
  Atoi intSize (decimal p) = Some (Z.pos p).
Proof.
  intros Hp. unfold decimal.
  pose proof (DecimalPos.Unsigned.of_to p) as E.
  pose proof (DecimalPos.Unsigned.to_uint_nonnil p) as N.
  pose proof (digits_of_uint (Pos.to_uint p)) as D. rewrite E in D.
  change (Z.of_N (N.pos p)) with (Z.pos p) in D.
  assert (R : (- 2 ^ (intSize - 1) <=? Z.pos p)
              && (Z.pos p <=? 2 ^ (intSize - 1) - 1) = true).
  { apply andb_true_iff. split; apply Z.leb_le; lia. }
  destruct (Pos.to_uint p); [contradiction | ..];
    cbn [NilZero.string_of_uint NilEmpty.string_of_uint] in *;
    unfold Atoi; cbn [Ascii.eqb Bool.eqb orb]; cbv iota; rewrite D; cbv zeta;
    rewrite R; reflexivity.
Qed.

Lemma digits_Some (s : string) :
  forall acc n, digits acc s = Some n ->
                Forall (fun c => isDigit c = true) (list_ascii_of_string s).
Proof.
  induction s as [| c r IH]; intros acc n; cbn [digits list_ascii_of_string].
  - constructor.
  - destruct (isDigit c) eqn:Dc; [| discriminate].
    intros E. constructor; [exact Dc | eapply IH; exact E].
Qed.

Lemma stripSpace_space (r : list ascii) :
  stripSpace ws (" "%char :: r) = Some r /\
  stripSpace (map (@rev ascii) ws) (" "%char :: r) = Some r.
Proof. split; vm_compute; reflexivity. Qed.

Lemma isDigit_cases (c : ascii) :
  isDigit c = true ->
  In c ["0"; "1"; "2"; "3"; "4"; "5"; "6"; "7"; "8"; "9"]%char.
Proof.
  unfold isDigit. cbv zeta. intros D.
  apply andb_true_iff in D as [L U]. apply Z.leb_le in L, U.
  rewrite <- (ascii_nat_embedding c).
  set (n := nat_of_ascii c) in *. clearbody n.
  assert (E : n = 48%nat \/ n = 49%nat \/ n = 50%nat \/ n = 51%nat \/ n = 52%nat \/
              n = 53%nat \/ n = 54%nat \/ n = 55%nat \/ n = 56%nat \/ n = 57%nat) by lia.
  cbn [In].
  destruct E as [-> | [-> | [-> | [-> | [-> | [-> | [-> | [-> | [-> | ->]]]]]]]]];
    vm_compute; tauto.
Qed.

Lemma stripSpace_digit (c : ascii) (r : list ascii) :
  isDigit c = true ->
  stripSpace ws (c :: r) = None /\
  stripSpace (map (@rev ascii) ws) (c :: r) = None.
Proof.
  intros D. apply isDigit_cases in D. cbn [In] in D.
  destruct D as [<- | [<- | [<- | [<- | [<- | [<- | [<- | [<- | [<- | [<- | []]]]]]]]]]];
    split; vm_compute; reflexivity.
Qed.

Lemma trimLeft_stop (table : list (list ascii)) (fuel : nat) (s : list ascii) :
  stripSpace table s = None -> trimLeft table fuel s = s.
Proof. intros E. destruct fuel; cbn [trimLeft]; [| rewrite E]; reflexivity. Qed.

Lemma trimLeft_spaces (table : list (list ascii)) (s : list ascii) :
  (forall r, stripSpace table (" "%char :: r) = Some r) ->
  stripSpace table s = None ->
  forall (k fuel : nat), (k <= fuel)%nat ->
    trimLeft table fuel (repeat " "%char k ++ s) = s.
Proof.
  intros Hsp Hs. induction k as [| k IH]; intros fuel Hk.
  - apply trimLeft_stop. exact Hs.
  - destruct fuel as [| fuel]; [lia |].
    cbn [repeat app trimLeft]. rewrite Hsp. apply IH. lia.
Qed.

Lemma rev_spaces (k : nat) : rev (repeat " "%char k) = repeat " "%char k.
Proof.
  induction k as [| k IH]; [reflexivity |].
  cbn [repeat rev]. rewrite IH. clear IH.
  induction k as [| k IH]; [reflexivity |]. cbn [repeat app]. rewrite IH. reflexivity.
Qed.

(** Spaces around a string that begins and ends with a digit are what
    [TrimSpace] removes, and all it removes. *)
Lemma TrimSpace_padded (k k' : nat) (s : string) :
  list_ascii_of_string s <> [] ->
  Forall (fun c => isDigit c = true) (list_ascii_of_string s) ->
  TrimSpace (padded k k' s) = s.
Proof.
  intros Hne Hd. unfold TrimSpace, padded.
  rewrite list_ascii_of_string_of_list_ascii.
  set (d := list_ascii_of_string s) in *.
  assert (H1 : TrimLeftSpace (repeat " "%char k ++ d ++ repeat " "%char k')
               = d ++ repeat " "%char k').
  { unfold TrimLeftSpace. apply trimLeft_spaces.
    - intros r. exact (proj1 (stripSpace_space r)).
    - destruct d as [| c r]; [contradiction |].
      inversion Hd as [| ? ? Hc Hrest]; subst.
      exact (proj1 (stripSpace_digit c (r ++ repeat " "%char k') Hc)).
    - rewrite length_app, repeat_length. lia. }
  rewrite H1. unfold TrimRightSpace.
  rewrite rev_app_distr, rev_spaces.
  rewrite trimLeft_spaces.
  - rewrite rev_involutive. apply string_of_list_ascii_of_string.
  - intros r. exact (proj2 (stripSpace_space r)).
  - assert (Hr : Forall (fun c => isDigit c = true) (rev d)).
    { apply Forall_forall. intros c I. rewrite Forall_forall in Hd.
      apply Hd. apply list_elem_of_In. apply in_rev.
      apply list_elem_of_In. exact I. }
    destruct (rev d) as [| c r] eqn:E.
    + apply (f_equal (@rev ascii)) in E. rewrite rev_involutive in E.
      contradiction.
    + inversion Hr as [| ? ? Hc Hrest]; subst.
      exact (proj2 (stripSpace_digit c r Hc)).
  - rewrite length_app, repeat_length. lia.
Qed.

Lemma decimal_digits (p : positive) :
  list_ascii_of_string (decimal p) <> [] /\
  Forall (fun c => isDigit c = true) (list_ascii_of_string (decimal p)).
Proof.
  pose proof (Atoi_decimal (Z.pos p + 2) p) as A.
  assert (Hp : Z.pos p <= 2 ^ (Z.pos p + 2 - 1) - 1).
  { pose proof (Z.pow_gt_lin_r 2 (Z.pos p + 1)).
    replace (Z.pos p + 2 - 1) with (Z.pos p + 1) by lia. lia. }
  specialize (A Hp). unfold Atoi in A.
  destruct (decimal p) as [| c r] eqn:E; [discriminate |]. cbv zeta in A.
  split; [discriminate |].
  assert (Hs : Ascii.eqb c "+" || Ascii.eqb c "-" = false).
  { unfold decimal in E. pose proof (DecimalPos.Unsigned.to_uint_nonnil p) as N.
    destruct (Pos.to_uint p); [contradiction | ..];
      cbn [NilZero.string_of_uint NilEmpty.string_of_uint] in E;
      injection E as <- _; reflexivity. }
  rewrite Hs in A.
  destruct (digits 0 (String c r)) as [n |] eqn:D; [| discriminate].
  eapply digits_Some. exact D.
Qed.

(** What [Atoi] accepts is a numeral. *)
Lemma Atoi_numeral (intSize : Z) (s : string) (i : Z) :
  Atoi intSize s = Some i -> numeral s.
Proof.
  unfold Atoi. destruct s as [| c r]; [discriminate |]. cbv zeta.
  destruct (Ascii.eqb_spec c "+") as [-> | Np];
    [| destruct (Ascii.eqb_spec c "-") as [-> | Nm]]; cbn [orb].
  - destruct r as [| c' r']; [discriminate |].
    destruct (digits 0 (String c' r')) as [n |] eqn:D; [| discriminate].
    intros _. exists "+", (String c' r'). split; [reflexivity |].
    split; [auto |]. split; [discriminate | eapply digits_Some; exact D].
  - destruct r as [| c' r']; [discriminate |].
    destruct (digits 0 (String c' r')) as [n |] eqn:D; [| discriminate].
    intros _. exists "-", (String c' r'). split; [reflexivity |].
    split; [auto |]. split; [discriminate | eapply digits_Some; exact D].
  - destruct (digits 0 (String c r)) as [n |] eqn:D; [| discriminate].
    intros _. exists "", (String c r). split; [reflexivity |].
    split; [auto |]. split; [discriminate | eapply digits_Some; exact D].
Qed.

(** What [getEnvInt] computes, by cases on the trimmed value. *)
Lemma getEnvInt_unfold (intSize : Z) (environ : gmap string string)
    (key : string) (def : Z) :
  getEnvInt intSize environ key def =
    match Atoi intSize (TrimSpace (Getenv environ key)) with
    | Some i => if 0 <? i then i else def
    | None => def
    end.
Proof.
  unfold getEnvInt.
  destruct (String.eqb_spec (TrimSpace (Getenv environ key)) "") as [E | _].
  - rewrite E. reflexivity.
  - destruct (Atoi _ _) as [i |]; [| reflexivity].
    destruct (Z.leb_spec i 0), (Z.ltb_spec 0 i); (reflexivity || lia).
Qed.

End Sizing.

(** C6. [getEnvInt] gives the default when the variable is unset, when its
    value is empty (also after trimming), when it is not a numeral, more
    generally when [strconv.Atoi] rejects it, and when the integer parsed
    is zero or negative; it gives the integer parsed when that is
    positive; in particular it gives [p] for the decimal numeral of any
    positive [p] that fits an [int], with or without spaces around it.
    The three gates get the capacities [getEnvInt "MAX_DNS" 4096],
    [getEnvInt "MAX_ICMP" 8192] and [getEnvInt "MAX_TCP" 8192]. *)
Theorem getEnvInt_default_or_parsed :
  forall (intSize : Z) (environ : gmap string string) (key : string) (def : Z),
    (environ !! key = None -> getEnvInt intSize environ key def = def) /\
    (forall v, environ !! key = Some v -> Go_strings.TrimSpace v = "" ->
       getEnvInt intSize environ key def = def) /\
    (forall v, environ !! key = Some v -> ~ numeral (Go_strings.TrimSpace v) ->
       getEnvInt intSize environ key def = def) /\
    (forall v, environ !! key = Some v ->
       Go_strconv.Atoi intSize (Go_strings.TrimSpace v) = None ->
       getEnvInt intSize environ key def = def) /\
    (forall v i, environ !! key = Some v ->
       Go_strconv.Atoi intSize (Go_strings.TrimSpace v) = Some i -> i <= 0 ->
       getEnvInt intSize environ key def = def) /\
    (forall v i, environ !! key = Some v ->
       Go_strconv.Atoi intSize (Go_strings.TrimSpace v) = Some i -> 0 < i ->
       getEnvInt intSize environ key def = i) /\
    (forall p k k', Z.pos p <= 2 ^ (intSize - 1) - 1 ->
       environ !! key = Some (padded k k' (decimal p)) ->
       getEnvInt intSize environ key def = Z.pos p) /\
    chanCap (init intSize environ semDNS)
      = getEnvInt intSize environ "MAX_DNS" 4096 /\
    chanCap (init intSize environ semICMP)
      = getEnvInt intSize environ "MAX_ICMP" 8192 /\
    chanCap (init intSize environ semTCP)
      = getEnvInt intSize environ "MAX_TCP" 8192.
Proof.
  intros intSize environ key def.
  repeat split; try reflexivity.
  - intros E. rewrite getEnvInt_unfold. unfold Go_os.Getenv. rewrite E. reflexivity.
  - intros v E T. rewrite getEnvInt_unfold. unfold Go_os.Getenv. rewrite E. simpl.
    rewrite T. reflexivity.
  - intros v E N. rewrite getEnvInt_unfold. unfold Go_os.Getenv. rewrite E. simpl.
    destruct (Go_strconv.Atoi intSize (Go_strings.TrimSpace v)) as [i |] eqn:A;
      [| reflexivity].
    exfalso. apply N. eapply Atoi_numeral. exact A.
  - intros v E A. rewrite getEnvInt_unfold. unfold Go_os.Getenv. rewrite E. simpl.
    rewrite A. reflexivity.
  - intros v i E A Hi. rewrite getEnvInt_unfold. unfold Go_os.Getenv. rewrite E.
    simpl. rewrite A. destruct (Z.ltb_spec 0 i); [lia | reflexivity].
  - intros v i E A Hi. rewrite getEnvInt_unfold. unfold Go_os.Getenv. rewrite E.
    simpl. rewrite A. destruct (Z.ltb_spec 0 i); [reflexivity | lia].
  - intros p k k' Hp E. rewrite getEnvInt_unfold. unfold Go_os.Getenv. rewrite E.
    simpl. destruct (decimal_digits p) as [Hne Hd].
    rewrite (TrimSpace_padded k k' (decimal p) Hne Hd), (Atoi_decimal intSize p Hp).
    reflexivity.
Qed.

(** The cases of C6 on a concrete environment of a 64-bit platform. *)
Lemma getEnvInt_default_or_parsed_witness :
  let environ : gmap string string :=
    <[ "MAX_DNS" := " 512 " ]> (<[ "MAX_ICMP" := "-3" ]> (<[ "MAX_TCP" := "many" ]>
      (<[ "EMPTY" := "   " ]> ∅))) in
  getEnvInt 64 environ "UNSET" 7 = 7 /\
  getEnvInt 64 environ "EMPTY" 7 = 7 /\
  getEnvInt 64 environ "MAX_TCP" 8192 = 8192 /\
  getEnvInt 64 environ "MAX_ICMP" 8192 = 8192 /\
  getEnvInt 64 environ "MAX_DNS" 4096 = 512 /\
  chanCap (init 64 environ semDNS) = 512.
Proof.
  intros environ.
  pose proof (getEnvInt_default_or_parsed 64 environ "UNSET" 7) as (H1 & _).
  pose proof (getEnvInt_default_or_parsed 64 environ "EMPTY" 7) as (_ & H2 & _).
  pose proof (getEnvInt_default_or_parsed 64 environ "MAX_TCP" 8192)
    as (_ & _ & _ & H3 & _).
  pose proof (getEnvInt_default_or_parsed 64 environ "MAX_ICMP" 8192)
    as (_ & _ & _ & _ & H4 & _).
  pose proof (getEnvInt_default_or_parsed 64 environ "MAX_DNS" 4096)
    as (_ & _ & _ & _ & _ & H5 & H6 & H7 & _).
  split; [apply H1; reflexivity |].
  split; [apply (H2 "   "); reflexivity |].
  split; [apply (H3 "many"); reflexivity |].
  split; [apply (H4 "-3" (-3)); [reflexivity | reflexivity | lia] |].
  split; [apply (H6 512%positive 1%nat 1%nat); [vm_compute; discriminate | reflexivity] |].
  rewrite H7. apply (H5 " 512 " 512); [reflexivity | reflexivity | lia].
Defined.

(** ** The monad *)

Lemma bind_run {A B} (m : M A) (k : A -> M B) (me : GoId) (now : Time) :
  (m ≫= k) me now =
    match m me now with
    | Returns a t tr => after tr (k a me t)
    | Blocks tr => Blocks tr
    end.
Proof. reflexivity. Qed.

Lemma ret_run {A} (a : A) (me : GoId) (now : Time) :
  (mret a : M A) me now = Returns a now [].
Proof. reflexivity. Qed.

Lemma after_Returns {A} (tr : Trace) (r : Run A) (a : A) (t : Time) (tr' : Trace) :
  after tr r = Returns a t tr' ->
  exists tr0, r = Returns a t tr0 /\ tr' = tr ++ tr0.
Proof.
  destruct r as [a0 t0 tr0 | tr0]; simpl; intros E; [| discriminate].
  injection E as -> -> <-. eauto.
Qed.

(** ** The ICMP prober *)

Section Prober.

Variable W : World.

Lemma ParseMessage_type (proto : Z) (b : list Byte.byte) (rm : Message) :
  ParseMessage (bodyOK W) proto b = Some rm ->
  (proto = 1 /\ exists n, Type_ rm = ipv4_ICMPType n) \/
  (proto = 58 /\ exists n, Type_ rm = ipv6_ICMPType n).
Proof.
  unfold ParseMessage.
  destruct b as [| b0 [| b1 [| b2 [| b3 rest]]]]; try discriminate.
  destruct (Z.eqb_spec proto 1) as [-> | _].
  - destruct (bodyOK W 1 _ rest); [| discriminate].
    intros [= <-]. left. simpl. eauto.
  - destruct (Z.eqb_spec proto 58) as [-> | _]; [| discriminate].
    destruct (bodyOK W 58 _ rest); [| discriminate].
    intros [= <-]. right. simpl. eauto.
Qed.

(** The test of [doICMP] on the parsed type, with its two alternatives,
    accepts exactly the echo reply of the protocol of the address. *)
Lemma reply_test (ip : IP) (pkt : list Byte.byte) (rm : Message) :
  ParseMessage (bodyOK W) (getProto ip) pkt = Some rm ->
  ICMPType_eqb (Type_ rm) ipv4_ICMPTypeEchoReply
  || ICMPType_eqb (Type_ rm) ipv6_ICMPTypeEchoReply
  = ICMPType_eqb (Type_ rm) (echoReplyFor ip).
Proof.
  intros P. apply ParseMessage_type in P.
  unfold getProto, echoReplyFor in *.
  destruct (notNil (To4 ip)); destruct P as [[E [n ->]] | [E [n ->]]];
    try discriminate; simpl.
  - apply orb_false_r.
  - reflexivity.
Qed.

Lemma afterRead_packet (ip : IP) (pkt : list Byte.byte) (again : M bool) :
  afterRead W ip (Some pkt) again
  = if isEchoReplyFor W ip pkt then mret true else again.
Proof.
  unfold afterRead, isEchoReplyFor.
  destruct (ParseMessage _ _ pkt) as [rm |] eqn:P; [| reflexivity].
  rewrite (reply_test _ _ _ P). reflexivity.
Qed.

Lemma readLoop_done (ctx : Context) (sd : option Time) (ip : IP) (rx : list Rx)
    (me : GoId) (now : Time) :
  isDone ctx now = true ->
  readLoop W ctx sd ip rx me now = Returns false now [].
Proof. intros D. destruct rx; simpl; rewrite D; reflexivity. Qed.

Lemma readLoop_packet (ctx : Context) (sd : option Time) (ip : IP)
    (t0 : Time) (data : list Byte.byte) (rest : list Rx) (me : GoId) (now : Time) :
  isDone ctx now = false ->
  expired sd (Z.max now t0) = false ->
  readLoop W ctx sd ip (RxPacket t0 data :: rest) me now
  = after [entry me (Z.max now t0) (EvReadFrom (Some (firstn 1500 data)))]
      ((if isEchoReplyFor W ip (firstn 1500 data) then mret true
        else readLoop W ctx sd ip rest) me (Z.max now t0)).
Proof.
  intros D X. cbn [readLoop]. rewrite D, bind_run.
  unfold ReadFrom. cbn [rxTime]. rewrite X, afterRead_packet. reflexivity.
Qed.

Lemma readLoop_error (ctx : Context) (sd : option Time) (ip : IP)
    (t0 : Time) (timeout : bool) (rest : list Rx) (me : GoId) (now : Time) :
  isDone ctx now = false ->
  expired sd (Z.max now t0) = false ->
  readLoop W ctx sd ip (RxError t0 timeout :: rest) me now
  = Returns false (Z.max now t0) [entry me (Z.max now t0) (EvReadFrom None)].
Proof.
  intros D X. cbn [readLoop]. rewrite D, bind_run.
  unfold ReadFrom. cbn [rxTime]. rewrite X. reflexivity.
Qed.

Lemma readLoop_deadline (ctx : Context) (d : Time) (ip : IP) (rx : list Rx)
    (me : GoId) (now : Time) :
  isDone ctx now = false ->
  match rx with [] => True | x :: _ => d <= Z.max now (rxTime x) end ->
  readLoop W ctx (Some d) ip rx me now
  = Returns false (Z.max now d) [entry me (Z.max now d) (EvReadFrom None)].
Proof.
  intros D X. destruct rx as [| x rest]; cbn [readLoop]; rewrite D, bind_run.
  - reflexivity.
  - unfold ReadFrom, expired. destruct (Z.leb_spec d (Z.max now (rxTime x))); [| lia].
    reflexivity.
Qed.

(** A successful loop ends on the read of an echo reply of the protocol of
    the address, after reads of packets that are not. *)
Lemma readLoop_true (ctx : Context) (sd : option Time) (ip : IP) (rx : list Rx) :
  forall (me : GoId) (now t : Time) (tr : Trace),
    readLoop W ctx sd ip rx me now = Returns true t tr ->
    exists discarded pkt,
      tr = reads me discarded ++ [entry me t (EvReadFrom (Some pkt))] /\
      isEchoReplyFor W ip pkt = true /\
      Forall (fun tp => isEchoReplyFor W ip tp.2 = false) discarded.
Proof.
  induction rx as [| x rest IH]; intros me now t tr.
  - cbn [readLoop]. destruct (isDone ctx now); [discriminate |].
    rewrite bind_run. unfold ReadFrom. destruct sd; discriminate.
  - destruct (isDone ctx now) eqn:D.
    { rewrite readLoop_done by assumption. discriminate. }
    destruct (expired sd (Z.max now (rxTime x))) eqn:X.
    { cbn [readLoop]. rewrite D, bind_run. unfold ReadFrom. rewrite X.
      discriminate. }
    destruct x as [t0 data | t0 timeout]; cbn [rxTime] in X.
    + rewrite readLoop_packet by assumption.
      destruct (isEchoReplyFor W ip (firstn 1500 data)) eqn:R.
      * rewrite ret_run. simpl. intros [= <- <-].
        exists [], (firstn 1500 data). repeat split; auto.
      * intros E. apply after_Returns in E as (tr0 & E & ->).
        apply IH in E as (discarded & pkt & -> & Hp & Hd).
        exists ((Z.max now t0, firstn 1500 data) :: discarded), pkt.
        repeat split; auto.
    + rewrite readLoop_error by assumption. discriminate.
Qed.

End Prober.

(** C4. The read loop of the ICMP prober returns true only on a packet
    that parses to the echo-reply type of the protocol of the probed
    address, ICMPv4 for an IPv4 address and ICMPv6 otherwise, every packet
    read before it being of another kind; such a packet ends the loop with
    true; a packet that does not match is dropped and the loop reads on; a
    context that is done, a read deadline that passes and a read error
    each end it with false. *)
Theorem doICMP_loop_echo_reply_only :
  forall (W : World) (ctx : Context) (sd : option Time) (ip : IP)
         (rx : list Rx) (me : GoId) (now : Time),
    (forall t tr,
       readLoop W ctx sd ip rx me now = Returns true t tr ->
       exists discarded pkt,
         tr = reads me discarded ++ [entry me t (EvReadFrom (Some pkt))] /\
         isEchoReplyFor W ip pkt = true /\
         Forall (fun tp => isEchoReplyFor W ip tp.2 = false) discarded) /\
    (forall t0 data rest,
       rx = RxPacket t0 data :: rest ->
       isDone ctx now = false -> expired sd (Z.max now t0) = false ->
       isEchoReplyFor W ip (firstn 1500 data) = true ->
       readLoop W ctx sd ip rx me now
       = Returns true (Z.max now t0)
           [entry me (Z.max now t0) (EvReadFrom (Some (firstn 1500 data)))]) /\
    (forall t0 data rest,
       rx = RxPacket t0 data :: rest ->
       isDone ctx now = false -> expired sd (Z.max now t0) = false ->
       isEchoReplyFor W ip (firstn 1500 data) = false ->
       readLoop W ctx sd ip rx me now
       = after [entry me (Z.max now t0) (EvReadFrom (Some (firstn 1500 data)))]
           (readLoop W ctx sd ip rest me (Z.max now t0))) /\
    (isDone ctx now = true ->
       readLoop W ctx sd ip rx me now = Returns false now []) /\
    (forall d,
       sd = Some d -> isDone ctx now = false ->
       match rx with [] => True | x :: _ => d <= Z.max now (rxTime x) end ->
       readLoop W ctx sd ip rx me now
       = Returns false (Z.max now d) [entry me (Z.max now d) (EvReadFrom None)]) /\
    (forall t0 timeout rest,
       rx = RxError t0 timeout :: rest ->
       isDone ctx now = false -> expired sd (Z.max now t0) = false ->
       readLoop W ctx sd ip rx me now
       = Returns false (Z.max now t0)
           [entry me (Z.max now t0) (EvReadFrom None)]).
Proof.
  intros W ctx sd ip rx me now. repeat split.
  - apply readLoop_true.
  - intros t0 data rest -> D X R.
    rewrite readLoop_packet, R by assumption. reflexivity.
  - intros t0 data rest -> D X R.
    rewrite readLoop_packet, R by assumption. reflexivity.
  - apply readLoop_done.
  - intros d -> D X. apply readLoop_deadline; assumption.
  - intros t0 timeout rest -> D X. apply readLoop_error; assumption.
Qed.

Section ProberOutcome.

Variable W : World.

(** The runs of [doICMP], by what the outside answers. *)
Lemma doICMP_run (ctx : Context) (ip : IP) (me : GoId) (now : Time) :
  doICMP W ctx ip me now =
    let listen ok := entry me now (EvListenPacket (socketFor ip).1 (socketFor ip).2 ok) in
    let verdict t ok := [entry me t EvSockClose; entry me t (EvDoICMP ip ok)] in
    if listenOK W (socketFor ip).1 (socketFor ip).2 me now then
      match Marshal W (echoRequestFor W ip) with
      | None => Returns false now (listen true :: verdict now false)
      | Some b =>
          if negb (expired (ctxDeadline ctx) now) && writeOK W b ip me now then
            match readLoop W ctx (ctxDeadline ctx) ip (inbound W me now) me now with
            | Returns ok t tr =>
                Returns ok t
                  (listen true :: entry me now (EvWriteTo ip true) :: tr ++ verdict t ok)
            | Blocks tr =>
                Blocks (listen true :: entry me now (EvWriteTo ip true) :: tr)
            end
          else
            Returns false now
              (listen true :: entry me now (EvWriteTo ip false) :: verdict now false)
      end
    else Returns false now [listen false; entry me now (EvDoICMP ip false)].
Proof.
  unfold doICMP, doICMP_body, socketFor, echoRequestFor.
  destruct (notNil (To4 ip)); cbn beta iota zeta;
    rewrite !bind_run; unfold ListenPacket; cbn [fst snd];
    (destruct (listenOK W _ _ me now); [| reflexivity]);
    cbn beta iota zeta; unfold defer;
    (destruct (Marshal W _) as [b |]; [| reflexivity]);
    rewrite !bind_run; unfold WriteTo;
    (destruct (negb (expired (ctxDeadline ctx) now) && writeOK W b ip me now);
       [| reflexivity]);
    cbn beta iota zeta;
    (destruct (readLoop W ctx (ctxDeadline ctx) ip (inbound W me now) me now)
       as [ok t tr | tr]; [| reflexivity]);
    simpl; rewrite <- ?app_assoc; reflexivity.
Qed.

(** With a read deadline the loop always returns. *)
Lemma readLoop_returns (ctx : Context) (d : Time) (ip : IP) (rx : list Rx) :
  forall (me : GoId) (now : Time),
    exists ok t tr, readLoop W ctx (Some d) ip rx me now = Returns ok t tr.
Proof.
  induction rx as [| x rest IH]; intros me now;
    destruct (isDone ctx now) eqn:D;
    try (rewrite readLoop_done by assumption; eauto).
  - rewrite readLoop_deadline by auto. eauto.
  - destruct (expired (Some d) (Z.max now (rxTime x))) eqn:X.
    + rewrite readLoop_deadline; eauto.
      simpl in X. apply Z.leb_le in X. exact X.
    + destruct x as [t0 data | t0 timeout]; cbn [rxTime] in X.
      * rewrite readLoop_packet by assumption.
        destruct (isEchoReplyFor W ip (firstn 1500 data)).
        -- rewrite ret_run. simpl. eauto.
        -- destruct (IH me (Z.max now t0)) as (ok & t & tr & ->). simpl. eauto.
      * rewrite readLoop_error by assumption. eauto.
Qed.

End ProberOutcome.

(** C7. [doICMP] hands its caller a boolean and nothing else: whenever the
    context has a deadline it returns; when the raw socket cannot be
    opened, when the message cannot be marshalled, when the send fails and
    when the read loop ends on a done context, a passed deadline or a read
    error, what it returns is false; it returns true only after a socket
    was opened, the request sent and an echo reply read. *)
Theorem doICMP_failures_are_false :
  forall (W : World) (ctx : Context) (ip : IP) (me : GoId) (now : Time),
    (forall d, ctxDeadline ctx = Some d ->
       exists ok t tr, doICMP W ctx ip me now = Returns ok t tr) /\
    (listenOK W (socketFor ip).1 (socketFor ip).2 me now = false ->
       exists tr, doICMP W ctx ip me now = Returns false now tr) /\
    (Marshal W (echoRequestFor W ip) = None ->
       exists tr, doICMP W ctx ip me now = Returns false now tr) /\
    (forall b, Marshal W (echoRequestFor W ip) = Some b ->
       negb (expired (ctxDeadline ctx) now) && writeOK W b ip me now = false ->
       exists tr, doICMP W ctx ip me now = Returns false now tr) /\
    (forall t tr0,
       readLoop W ctx (ctxDeadline ctx) ip (inbound W me now) me now
       = Returns false t tr0 ->
       forall ok t' tr, doICMP W ctx ip me now = Returns ok t' tr -> ok = false) /\
    (forall t tr,
       doICMP W ctx ip me now = Returns true t tr ->
       In (entry me now (EvListenPacket (socketFor ip).1 (socketFor ip).2 true)) tr /\
       In (entry me now (EvWriteTo ip true)) tr /\
       (exists pkt, In (entry me t (EvReadFrom (Some pkt))) tr /\
                    isEchoReplyFor W ip pkt = true) /\
       ~ In (EvReadFrom None) (map what tr)).
Proof.
  intros W ctx ip me now. rewrite doICMP_run. cbn zeta.
  split; [| split; [| split; [| split; [| split]]]].
  - intros d Hd.
    destruct (listenOK W _ _ me now); [| eauto].
    destruct (Marshal W _) as [b |]; [| eauto].
    destruct (negb _ && _); [| eauto].
    rewrite Hd.
    destruct (readLoop_returns W ctx d ip (inbound W me now) me now)
      as (ok & t & tr & ->). eauto.
  - intros ->. eauto.
  - intros ->. destruct (listenOK W _ _ me now); eauto.
  - intros b -> ->. destruct (listenOK W _ _ me now); eauto.
  - intros t tr0 E ok t' tr.
    destruct (listenOK W _ _ me now); [| congruence].
    destruct (Marshal W _) as [b |]; [| congruence].
    destruct (negb _ && _); [| congruence].
    rewrite E. congruence.
  - intros t tr.
    destruct (listenOK W _ _ me now); [| discriminate].
    destruct (Marshal W _) as [b |]; [| discriminate].
    destruct (negb _ && _); [| discriminate].
    destruct (readLoop W ctx _ ip _ me now) as [ok t0 tr0 |] eqn:E; [| discriminate].
    intros [= -> -> <-].
    apply readLoop_true in E as (discarded & pkt & -> & Hp & Hd).
    split; [left; reflexivity |].
    split; [right; left; reflexivity |].
    split.
    + exists pkt. split; [| exact Hp].
      right. right. rewrite <- app_assoc. apply in_or_app. right. left. reflexivity.
    + cbn [map]. rewrite !map_app. cbn [map what entry].
      intros [E | [E | E]]; try discriminate.
      apply in_app_or in E as [E | E].
      * apply in_app_or in E as [E | [E | []]]; [| discriminate].
        unfold reads in E. rewrite map_map in E.
        apply in_map_iff in E as (x & E & _). discriminate.
      * destruct E as [E | [E | []]]; discriminate.
Qed.

(** ** The TCP prober *)

Section Dial.

Variable W : World.

Lemma omin_Some_l (x : Time) (b : option Time) :
  exists m, omin (Some x) b = Some m /\ m <= x /\
            (forall d, b = Some d -> m <= d) /\
            (m = x \/ b = Some m).
Proof.
  destruct b as [d |]; simpl.
  - exists (Z.min x d). repeat split; try lia.
    + intros d' [= <-]. lia.
    + destruct (Z.min_spec x d) as [[_ ->] | [_ ->]]; auto.
  - exists x. repeat split; try lia; auto. discriminate.
Qed.

Lemma isDone_false_iff (ctx : Context) (now : Time) :
  isDone ctx now = false <-> (forall d, doneAt ctx = Some d -> now < d).
Proof.
  unfold isDone. destruct (doneAt ctx) as [d |].
  - destruct (Z.leb_spec d now); split; try done.
    + intros H'. specialize (H' d eq_refl). lia.
    + intros _ d' [= <-]. lia.
  - split; [discriminate | reflexivity].
Qed.

(** A dial always returns, with one event; it succeeds exactly when the
    connection is established before the timeout of the dialer and before
    the context is done. *)
Lemma DialContext_run (timeout : Duration) (ctx : Context) (network : string)
    (ip : IP) (port : string) (me : GoId) (now : Time) :
  exists err t,
    DialContext W timeout ctx network ip port me now
    = Returns err t [entry me t (EvDial network ip port err)] /\
    (err = None <->
     exists e, connect W network ip port me now = Established e /\
               Z.max now e < now + timeout /\
               (forall d, doneAt ctx = Some d -> Z.max now e < d)) /\
    (forall e, err = None ->
               connect W network ip port me now = Established e ->
               t = Z.max now e).
Proof.
  unfold DialContext.
  destruct (isDone ctx now) eqn:D.
  { eexists _, _. split; [reflexivity |]. split; [| discriminate].
    split; [discriminate |]. intros (e & _ & _ & H').
    unfold isDone in D. destruct (doneAt ctx) as [d |]; [| discriminate].
    apply Z.leb_le in D. specialize (H' d eq_refl). lia. }
  destruct (omin_Some_l (now + timeout) (doneAt ctx)) as (m & -> & Hm & Hd & Hc).
  cbn [default from_option]. unfold id.
  destruct (connect W network ip port me now) as [e | e er |] eqn:C.
  - destruct (Z.ltb_spec (Z.max now e) m) as [L | L].
    + eexists _, _. split; [reflexivity |]. split.
      * split; [| reflexivity]. intros _. exists e. repeat split; [lia |].
        intros d Ed. specialize (Hd d Ed). lia.
      * intros e' _ [= <-]. reflexivity.
    + eexists _, _. split; [reflexivity |]. split; [| discriminate].
      split; [discriminate |]. intros (e' & [= <-] & L1 & L2).
      destruct Hc as [-> | Ed]; [lia |]. specialize (L2 m Ed). lia.
  - destruct (Z.max now e <? m); eexists _, _;
      (split; [reflexivity |]); (split; [| discriminate]);
      (split; [discriminate |]); intros (e' & [=] & _).
  - eexists _, _. split; [reflexivity |]. split; [| discriminate].
    split; [discriminate |]. intros (e' & [=] & _).
Qed.

End Dial.

(** C8. One attempt of the TCP stage, for any context it may be given:
    without a slot of the TCP gate it does not dial; with a slot, it reports
    success exactly when the connection is established less than 1.2 s
    after the dial began and before the context of the stage is done; the
    connection is then closed at once, the only events being the dial and
    the close; whatever the error of a dial that fails, the attempt ends the
    same way, without a report; and under the context that [tcpConnectRace]
    makes, a success comes less than 2.2 s after the stage began. *)
Theorem tcp_attempt_success_iff_established_in_time :
  forall (W : World) (ctx2 : Context) (dialNet : string) (ip : IP) (p : string)
         (me : GoId) (now : Time),
    (forall t,
       acquire W ctx2 semTCP me now = Returns false t [] ->
       tcpConnectRace_go W ctx2 dialNet ip p me now = Returns false t []) /\
    (forall g,
       acquire W ctx2 semTCP me now
       = Returns true g [entry me g (EvAcquire semTCP)] ->
       exists err t,
         tcpConnectRace_go W ctx2 dialNet ip p me now
         = Returns (negb (notNil err)) t
             (entry me g (EvAcquire semTCP)
              :: entry me t (EvDial dialNet ip p err)
              :: (if notNil err then [] else [entry me t EvConnClose])
              ++ [entry me t (EvRelease semTCP)]) /\
         (err = None <->
          exists e, connect W dialNet ip p me g = Established e /\
                    Z.max g e < g + 1200 * Millisecond /\
                    (forall d, doneAt ctx2 = Some d -> Z.max g e < d)) /\
         (forall e, err = None ->
                    connect W dialNet ip p me g = Established e ->
                    t = Z.max g e)) /\
    (forall ctx t tr,
       ctx2 = WithTimeout ctx now (2200 * Millisecond) ->
       tcpConnectRace_go W ctx2 dialNet ip p me now = Returns true t tr ->
       t < now + 2200 * Millisecond).
Proof.
  intros W ctx2 dialNet ip p me now.
  assert (Hg : forall g,
    acquire W ctx2 semTCP me now
    = Returns true g [entry me g (EvAcquire semTCP)] ->
    exists err t,
      tcpConnectRace_go W ctx2 dialNet ip p me now
      = Returns (negb (notNil err)) t
          (entry me g (EvAcquire semTCP)
           :: entry me t (EvDial dialNet ip p err)
           :: (if notNil err then [] else [entry me t EvConnClose])
           ++ [entry me t (EvRelease semTCP)]) /\
      (err = None <->
       exists e, connect W dialNet ip p me g = Established e /\
                 Z.max g e < g + 1200 * Millisecond /\
                 (forall d, doneAt ctx2 = Some d -> Z.max g e < d)) /\
      (forall e, err = None ->
                 connect W dialNet ip p me g = Established e ->
                 t = Z.max g e)).
  { intros g A.
    destruct (DialContext_run W (1200 * Millisecond) ctx2 dialNet ip p me g)
      as (err & t & E & Hiff & Ht).
    exists err, t. split; [| split; assumption].
    unfold tcpConnectRace_go. rewrite bind_run, A. cbn beta iota.
    unfold defer. rewrite !bind_run, E. destruct err; reflexivity. }
  split; [| split; [exact Hg |]].
  - intros t A. unfold tcpConnectRace_go. rewrite bind_run, A. reflexivity.
  - intros ctx t tr -> E.
    unfold tcpConnectRace_go in E. rewrite bind_run in E.
    destruct (acquire W _ semTCP me now) as [[|] g tr0 |] eqn:A;
      [| discriminate | discriminate].
    assert (tr0 = [entry me g (EvAcquire semTCP)]) as ->.
    { unfold acquire in A. destruct (select2 _ _ _ _) as [[[|] ?] |];
        congruence. }
    destruct (Hg g eq_refl) as (err & t' & E' & Hiff & Ht).
    unfold tcpConnectRace_go in E'. rewrite bind_run, A in E'.
    rewrite E' in E. destruct err as [er |]; [discriminate |].
    injection E as <- _.
    destruct (proj1 Hiff eq_refl) as (e & C & _ & Hd).
    rewrite (Ht e eq_refl C).
    destruct (omin_Some_l (now + 2200 * Millisecond) (ctxCancel ctx))
      as (m & Em & Hm & _).
    unfold doneAt, WithTimeout in Hd. cbn [ctxDeadline ctxCancel] in Hd.
    destruct (ctxDeadline ctx) as [d0 |], (ctxCancel ctx) as [c0 |];
      cbn [omin] in Hd; specialize (Hd _ eq_refl); lia.
Qed.

(** ** Timing and verdicts, compositionally *)

Section Framework.

Lemma inside_nil (me : GoId) (lo hi : Time) : inside me lo hi [].
Proof. constructor. Qed.

Lemma inside_app (me : GoId) (lo hi : Time) (tr1 tr2 : Trace) :
  inside me lo hi (tr1 ++ tr2) <-> inside me lo hi tr1 /\ inside me lo hi tr2.
Proof. apply Forall_app. Qed.

Lemma inside_one (me : GoId) (lo hi t : Time) (e : Event) :
  lo <= t <= hi -> inside me lo hi [entry me t e].
Proof. intros H. constructor; [| constructor]. split; [reflexivity | exact H]. Qed.

Lemma inside_mono (me me' : GoId) (lo lo' hi hi' : Time) (tr : Trace) :
  me `prefix_of` me' -> lo <= lo' -> hi' <= hi ->
  inside me' lo' hi' tr -> inside me lo hi tr.
Proof.
  intros Hp Hl Hh. apply List.Forall_impl. intros e [Hw Ht]. split; [| lia].
  etransitivity; eassumption.
Qed.

Lemma Timely_ret {A} (d : Time) (a : A) : Timely d (mret a).
Proof.
  intros me now. exists a, now, []. split; [reflexivity |].
  split; [lia | apply inside_nil].
Qed.

Lemma Timely_emit (d : Time) (e : Event) : Timely d (emit e).
Proof.
  intros me now. exists tt, now, [entry me now e]. split; [reflexivity |].
  split; [lia | apply inside_one; lia].
Qed.

Lemma Timely_bind {A B} (d : Time) (m : M A) (k : A -> M B) :
  Timely d m -> (forall a, Timely d (k a)) -> Timely d (m ≫= k).
Proof.
  intros Hm Hk me now. rewrite bind_run.
  destruct (Hm me now) as (a & t & tr & -> & Ht & Hi).
  destruct (Hk a me t) as (b & t' & tr' & -> & Ht' & Hi').
  exists b, t', (tr ++ tr'). split; [reflexivity |].
  split; [lia |]. apply inside_app. split; [exact Hi |].
  eapply inside_mono; [reflexivity | | | exact Hi']; lia.
Qed.

Lemma Timely_defer {A} (d : Time) (dfr : M unit) (body : M A) :
  Timely d dfr -> Timely d body -> Timely d (defer dfr body).
Proof.
  intros Hd Hb. unfold defer. apply Timely_bind; [exact Hb |].
  intros a. apply Timely_bind; [exact Hd |]. intros _. apply Timely_ret.
Qed.

Lemma Timely_orElse (d : Time) (a b : M bool) :
  Timely d a -> Timely d b -> Timely d (a ||| b).
Proof.
  intros Ha Hb. unfold orElse. apply Timely_bind; [exact Ha |].
  intros [|]; [apply Timely_ret | exact Hb].
Qed.

Lemma not_Exists_silent (tr : Trace) :
  Forall (fun e => success (what e) = false) tr ->
  ~ Exists (fun e => success (what e) = true) tr.
Proof.
  intros F X. apply Exists_exists in X as (e & I & S).
  rewrite Forall_forall in F. rewrite (F e I) in S. discriminate.
Qed.

Lemma Forall_silent (d : Time) (tr : Trace) :
  Forall (fun e => success (what e) = false) tr ->
  Forall (fun e => success (what e) = true -> at_ e < d) tr.
Proof. apply List.Forall_impl. intros e -> [=]. Qed.

Lemma Verdict_ret_false (d : Time) : Verdict d (mret false).
Proof.
  intros me now ok t tr [= <- <- <-]. repeat split; try discriminate.
  - intros X. inversion X.
  - constructor.
Qed.

Lemma Verdict_bind_silent {A} (d : Time) (m : M A) (k : A -> M bool) :
  Silent m -> (forall a, Verdict d (k a)) -> Verdict d (m ≫= k).
Proof.
  intros Hm Hk me now ok t tr. rewrite bind_run.
  specialize (Hm me now).
  destruct (m me now) as [a t0 tr0 |]; [| discriminate]. cbn [traceOf] in Hm.
  intros E. apply after_Returns in E as (tr1 & E & ->).
  destruct (Hk a me t0 ok t tr1 E) as (H1 & H2 & H3).
  split; [| split; [| exact H3]].
  - rewrite H1, Exists_app. split; [auto |].
    intros [X | X]; [| exact X]. exfalso. eapply not_Exists_silent; eassumption.
  - apply Forall_app. split; [apply Forall_silent; exact Hm | exact H2].
Qed.

Lemma Verdict_defer_emit (d : Time) (e : Event) (body : M bool) :
  success e = false -> Verdict d body -> Verdict d (defer (emit e) body).
Proof.
  intros He Hb me now ok t tr. unfold defer. rewrite bind_run.
  destruct (body me now) as [a t0 tr0 |] eqn:B; [| discriminate].
  cbn. intros [= <- <- <-].
  destruct (Hb me now a t0 tr0 B) as (H1 & H2 & H3).
  split; [| split; [| exact H3]].
  - rewrite H1, Exists_app. split; [auto |].
    intros [X | X]; [exact X |].
    inversion X as [? ? S | ? ? X']; subst; [| inversion X'].
    cbn in S. rewrite He in S. discriminate.
  - apply Forall_app. split; [exact H2 |]. constructor; [| constructor].
    cbn. rewrite He. discriminate.
Qed.

Lemma Verdict_orElse (d : Time) (a b : M bool) :
  Verdict d a -> Verdict d b -> Verdict d (a ||| b).
Proof.
  intros Ha Hb me now ok t tr. unfold orElse. rewrite bind_run.
  destruct (a me now) as [x t0 tr0 |] eqn:A; [| discriminate].
  destruct (Ha me now x t0 tr0 A) as (H1 & H2 & H3).
  destruct x.
  - cbn. rewrite app_nil_r. intros [= <- <- <-]. auto.
  - intros E. apply after_Returns in E as (tr1 & E & ->).
    destruct (Hb me t0 ok t tr1 E) as (K1 & K2 & K3).
    split; [| split; [| exact K3]].
    + rewrite K1, Exists_app. split; [auto |].
      intros [X | X]; [| exact X]. apply H1 in X. discriminate.
    + apply Forall_app. split; assumption.
Qed.

End Framework.

(** ** The pieces of the engine under a deadline *)

Section Pieces.

Variable W : World.

Lemma doneAt_deadline (ctx : Context) (d : Time) :
  ctxDeadline ctx = Some d -> exists d0, doneAt ctx = Some d0 /\ d0 <= d.
Proof.
  unfold doneAt. intros ->. destruct (ctxCancel ctx) as [c |]; simpl.
  - exists (Z.min d c). split; [reflexivity | lia].
  - exists d. split; [reflexivity | lia].
Qed.

Lemma select2_cases (choice : bool) (now : Time) (a b : option Time) :
  match select2 choice now a b with
  | Some (true, t) =>
      exists x, a = Some x /\ t = Z.max now x /\
                (forall y, b = Some y -> t <= Z.max now y)
  | Some (false, t) =>
      exists y, b = Some y /\ t = Z.max now y /\
                (forall x, a = Some x -> t <= Z.max now x)
  | None => a = None /\ b = None
  end.
Proof.
  unfold select2. destruct a as [x |], b as [y |]; try (split; reflexivity).
  - destruct (Z.ltb_spec (Z.max now x) (Z.max now y)).
    + exists x. repeat split. intros ? [= <-]. lia.
    + destruct (Z.ltb_spec (Z.max now y) (Z.max now x)).
      * exists y. repeat split. intros ? [= <-]. lia.
      * destruct choice.
        -- exists x. repeat split. intros ? [= <-]. lia.
        -- exists y. repeat split; [lia |]. intros ? [= <-]. lia.
  - exists x. repeat split. discriminate.
  - exists y. repeat split. discriminate.
Qed.

(** The three ways [acquire] can go. *)
Lemma acquire_cases (ctx : Context) (sem : Sem) (me : GoId) (now : Time) :
  (exists t, acquire W ctx sem me now
             = Returns true t [entry me t (EvAcquire sem)] /\
             now <= t /\
             (forall d, doneAt ctx = Some d -> t <= Z.max now d)) \/
  (exists d, doneAt ctx = Some d /\
             acquire W ctx sem me now = Returns false (Z.max now d) []) \/
  (doneAt ctx = None /\ acquire W ctx sem me now = Blocks []).
Proof.
  unfold acquire.
  pose proof (select2_cases (pick W me now) now (slotFree W sem me now) (doneAt ctx)) as H.
  destruct (select2 _ _ _ _) as [[[|] t] |].
  - left. destruct H as (x & _ & -> & Hb). exists (Z.max now x).
    split; [reflexivity |]. split; [lia | exact Hb].
  - right. left. destruct H as (y & Hy & -> & _). exists y. split; [exact Hy | reflexivity].
  - right. right. destruct H as [_ H]. split; [exact H | reflexivity].
Qed.

Lemma acquire_timely (ctx : Context) (sem : Sem) (d : Time) :
  ctxDeadline ctx = Some d -> Timely d (acquire W ctx sem).
Proof.
  intros Hd me now. destruct (doneAt_deadline ctx d Hd) as (d0 & E0 & L0).
  destruct (acquire_cases ctx sem me now)
    as [(t & -> & Hn & Ht) | [(d1 & E1 & ->) | (E1 & _)]].
  - specialize (Ht d0 E0). exists true, t, [entry me t (EvAcquire sem)].
    split; [reflexivity |]. split; [lia | apply inside_one; lia].
  - assert (d1 = d0) as -> by congruence.
    exists false, (Z.max now d0), []. split; [reflexivity |].
    split; [lia | apply inside_nil].
  - congruence.
Qed.

Lemma acquire_silent (ctx : Context) (sem : Sem) : Silent (acquire W ctx sem).
Proof.
  intros me now.
  destruct (acquire_cases ctx sem me now)
    as [(t & -> & _) | [(d1 & _ & ->) | (_ & ->)]]; repeat constructor.
Qed.

(** The read loop under a read deadline: it returns by the deadline, it
    reports nothing by itself, and a true comes before the deadline. *)
Lemma readLoop_spec (ctx : Context) (d : Time) (ip : IP) (rx : list Rx) :
  forall (me : GoId) (now : Time),
    exists ok t tr,
      readLoop W ctx (Some d) ip rx me now = Returns ok t tr /\
      now <= t <= Z.max now d /\
      inside me now (Z.max now d) tr /\
      (ok = true -> t < d) /\
      Forall (fun e => success (what e) = false) tr.
Proof.
  induction rx as [| x rest IH]; intros me now;
    destruct (isDone ctx now) eqn:D;
    try (rewrite readLoop_done by assumption;
         exists false, now, []; split; [reflexivity |];
         split; [lia |]; split; [apply inside_nil |];
         split; [discriminate | constructor]).
  - rewrite readLoop_deadline by auto.
    eexists _, _, _. split; [reflexivity |]. split; [lia |].
    split; [apply inside_one; lia |]. split; [discriminate | repeat constructor].
  - destruct (expired (Some d) (Z.max now (rxTime x))) eqn:X.
    + rewrite readLoop_deadline; [| assumption | simpl in X; apply Z.leb_le in X; exact X].
      eexists _, _, _. split; [reflexivity |]. split; [lia |].
      split; [apply inside_one; lia |]. split; [discriminate | repeat constructor].
    + assert (Hx : Z.max now (rxTime x) < d).
      { simpl in X. apply Z.leb_gt in X. exact X. }
      destruct x as [t0 data | t0 timeout]; cbn [rxTime] in X, Hx.
      * rewrite readLoop_packet by assumption.
        destruct (isEchoReplyFor W ip (firstn 1500 data)).
        -- rewrite ret_run. cbn [after app].
           eexists _, _, _. split; [reflexivity |]. split; [lia |].
           split; [apply inside_one; lia |]. split; [intros _; exact Hx |].
           repeat constructor.
        -- destruct (IH me (Z.max now t0)) as (ok & t & tr & -> & Ht & Hi & Hok & Hs).
           cbn [after]. eexists _, _, _. split; [reflexivity |]. split; [lia |].
           split; [| split; [exact Hok |]].
           ++ apply inside_app. split; [apply inside_one; lia |].
              eapply inside_mono; [reflexivity | | | exact Hi]; lia.
           ++ apply Forall_app. split; [repeat constructor | exact Hs].
      * rewrite readLoop_error by assumption.
        eexists _, _, _. split; [reflexivity |]. split; [lia |].
        split; [apply inside_one; lia |]. split; [discriminate | repeat constructor].
Qed.

(** [doICMP] under a context with a deadline. *)
Lemma doICMP_spec (ctx : Context) (d : Time) (ip : IP) :
  ctxDeadline ctx = Some d ->
  Timely d (doICMP W ctx ip) /\ Verdict d (doICMP W ctx ip).
Proof.
  intros Hd.
  assert (H : forall me now, exists ok t tr,
    doICMP W ctx ip me now = Returns ok t tr /\
    now <= t <= Z.max now d /\ inside me now (Z.max now d) tr /\
    (ok = true -> t < d) /\
    exists tr0, tr = tr0 ++ [entry me t (EvDoICMP ip ok)] /\
                Forall (fun e => success (what e) = false) tr0).
  { intros me now. rewrite doICMP_run. cbn zeta.
    destruct (listenOK W _ _ me now).
    2:{ eexists _, _, _. split; [reflexivity |]. split; [lia |].
        split; [| split; [discriminate |]].
        - apply (inside_app _ _ _ [_] [_]). split; apply inside_one; lia.
        - exists [entry me now (EvListenPacket (socketFor ip).1 (socketFor ip).2 false)].
          split; [reflexivity | repeat constructor]. }
    destruct (Marshal W _) as [b |].
    2:{ eexists _, _, _. split; [reflexivity |]. split; [lia |].
        split; [| split; [discriminate |]].
        - apply (inside_app _ _ _ [_] [_; _]). split; [apply inside_one; lia |].
          apply (inside_app _ _ _ [_] [_]). split; apply inside_one; lia.
        - eexists [_; _]. split; [reflexivity | repeat constructor]. }
    destruct (negb _ && _).
    2:{ eexists _, _, _. split; [reflexivity |]. split; [lia |].
        split; [| split; [discriminate |]].
        - apply (inside_app _ _ _ [_] [_; _; _]). split; [apply inside_one; lia |].
          apply (inside_app _ _ _ [_] [_; _]). split; [apply inside_one; lia |].
          apply (inside_app _ _ _ [_] [_]). split; apply inside_one; lia.
        - eexists [_; _; _]. split; [reflexivity | repeat constructor]. }
    rewrite Hd.
    destruct (readLoop_spec ctx d ip (inbound W me now) me now)
      as (ok & t & tr & -> & Ht & Hi & Hok & Hs).
    eexists _, _, _. split; [reflexivity |]. split; [lia |].
    split; [| split; [exact Hok |]].
    - apply (inside_app _ _ _ [_] (_ :: _)). split; [apply inside_one; lia |].
      apply (inside_app _ _ _ [_] _). split; [apply inside_one; lia |].
      apply inside_app. split; [exact Hi |].
      apply (inside_app _ _ _ [_] [_]). split; apply inside_one; lia.
    - exists (entry me now (EvListenPacket (socketFor ip).1 (socketFor ip).2 true)
              :: entry me now (EvWriteTo ip true) :: tr ++ [entry me t EvSockClose]).
      split; [cbn; rewrite <- app_assoc; reflexivity |].
      constructor; [reflexivity |]. constructor; [reflexivity |].
      apply Forall_app. split; [exact Hs | repeat constructor]. }
  split.
  - intros me now. destruct (H me now) as (ok & t & tr & E & Ht & Hi & _).
    eauto 6.
  - intros me now ok t tr E.
    destruct (H me now) as (ok' & t' & tr' & E' & _ & _ & Hok & tr0 & -> & Hs).
    rewrite E in E'. injection E' as -> -> ->.
    split; [| split; [| exact Hok]].
    + rewrite Exists_app. split.
      * intros ->. right. constructor. reflexivity.
      * intros [X | X]; [exfalso; eapply not_Exists_silent; eassumption |].
        inversion X as [? ? S | ? ? X']; subst; [| inversion X'].
        cbn in S. destruct ok'; [reflexivity | discriminate].
    + apply Forall_app. split; [apply Forall_silent; exact Hs |].
      constructor; [| constructor]. cbn. destruct ok'; [auto | discriminate].
Qed.

(** The goroutine of [raceEcho]. *)
Lemma raceEcho_go_spec (ctx2 : Context) (d : Time) (ip : IP) :
  ctxDeadline ctx2 = Some d ->
  Timely d (raceEcho_go W ctx2 ip) /\ Verdict d (raceEcho_go W ctx2 ip).
Proof.
  intros Hd. destruct (doICMP_spec ctx2 d ip Hd) as [Ht Hv].
  unfold raceEcho_go. split.
  - apply Timely_bind; [apply acquire_timely; exact Hd |].
    intros [|]; [| apply Timely_ret].
    apply Timely_defer; [apply Timely_emit | exact Ht].
  - apply Verdict_bind_silent; [apply acquire_silent |].
    intros [|]; [| apply Verdict_ret_false].
    apply Verdict_defer_emit; [reflexivity | exact Hv].
Qed.

Lemma DialContext_timely (timeout : Duration) (ctx : Context) (d : Time)
    (network : string) (ip : IP) (port : string) :
  0 <= timeout -> ctxDeadline ctx = Some d ->
  Timely d (DialContext W timeout ctx network ip port).
Proof.
  intros Hto Hd me now. destruct (doneAt_deadline ctx d Hd) as (d0 & E0 & L0).
  unfold DialContext.
  destruct (isDone ctx now) eqn:D.
  { eexists _, _, _. split; [reflexivity |]. split; [lia | apply inside_one; lia]. }
  assert (now < d0) by (apply (proj1 (isDone_false_iff ctx now) D); exact E0).
  rewrite E0. cbn [omin default from_option]. unfold id.
  destruct (connect W network ip port me now) as [e | e er |];
    try destruct (Z.ltb_spec (Z.max now e) (Z.min (now + timeout) d0));
    eexists _, _, _; (split; [reflexivity |]);
    (split; [lia | apply inside_one; lia]).
Qed.

(** The goroutine of [tcpConnectRace]. *)
Lemma tcpConnectRace_go_spec (ctx2 : Context) (d : Time) (dialNet : string)
    (ip : IP) (p : string) :
  ctxDeadline ctx2 = Some d ->
  Timely d (tcpConnectRace_go W ctx2 dialNet ip p) /\
  Verdict d (tcpConnectRace_go W ctx2 dialNet ip p).
Proof.
  intros Hd. unfold tcpConnectRace_go. split.
  - apply Timely_bind; [apply acquire_timely; exact Hd |].
    intros [|]; [| apply Timely_ret].
    apply Timely_defer; [apply Timely_emit |].
    apply Timely_bind; [apply DialContext_timely; [unfold Millisecond; lia | exact Hd] |].
    intros [er |]; [apply Timely_ret |].
    apply Timely_bind; [apply Timely_emit | intros _; apply Timely_ret].
  - apply Verdict_bind_silent; [apply acquire_silent |].
    intros [|]; [| apply Verdict_ret_false].
    apply Verdict_defer_emit; [reflexivity |].
    intros me now ok t tr. rewrite bind_run.
    destruct (DialContext_run W (1200 * Millisecond) ctx2 dialNet ip p me now)
      as (err & t0 & -> & Hiff & Ht0).
    destruct (doneAt_deadline ctx2 d Hd) as (d0 & E0 & L0).
    destruct err as [er |]; cbn; intros [= <- <- <-].
    + split; [| split; [| discriminate]].
      * split; [discriminate |]. intros X.
        inversion X as [? ? S | ? ? X']; subst; [discriminate | inversion X'].
      * repeat constructor; discriminate.
    + destruct (proj1 Hiff eq_refl) as (e & C & _ & Hlt).
      specialize (Hlt d0 E0). rewrite (Ht0 e eq_refl C).
      split; [| split].
      * split; [| reflexivity]. intros _. constructor. reflexivity.
      * repeat constructor; cbn; intros _; lia.
      * intros _. lia.
Qed.

Lemma CommandContext_Run_spec (ctx : Context) (d : Time) (name : string)
    (args : list string) :
  ctxDeadline ctx = Some d ->
  Timely d (CommandContext_Run W ctx name args) /\
  Verdict d (CommandContext_Run W ctx name args).
Proof.
  intros Hd. destruct (doneAt_deadline ctx d Hd) as (d0 & E0 & L0).
  assert (H : forall me now, exists ok t,
    CommandContext_Run W ctx name args me now
    = Returns ok t [entry me t (EvRun name args ok)] /\
    now <= t <= Z.max now d /\ (ok = true -> t < d)).
  { intros me now. unfold CommandContext_Run.
    destruct (isDone ctx now) eqn:D.
    { eexists _, _. split; [reflexivity |]. split; [lia | discriminate]. }
    assert (now < d0) by (apply (proj1 (isDone_false_iff ctx now) D); exact E0).
    rewrite E0.
    destruct (child W name args me now) as [[ok t] |].
    - destruct (Z.ltb_spec (Z.max now t) d0); eexists _, _;
        (split; [reflexivity |]); (split; [lia |]); [lia | discriminate].
    - eexists _, _. split; [reflexivity |]. split; [lia | discriminate]. }
  split.
  - intros me now. destruct (H me now) as (ok & t & -> & Ht & _).
    eexists _, _, _. split; [reflexivity |]. split; [lia | apply inside_one; lia].
  - intros me now ok t tr E. destruct (H me now) as (ok' & t' & E' & _ & Hok).
    rewrite E in E'. injection E' as -> -> ->.
    split; [| split; [| exact Hok]].
    + split.
      * intros ->. constructor. reflexivity.
      * intros X. inversion X as [? ? S | ? ? X']; subst; [| inversion X'].
        cbn in S. destruct ok'; [reflexivity | discriminate].
    + repeat constructor. cbn. destruct ok'; [auto | discriminate].
Qed.

Lemma pingWithFamily_spec (ctx : Context) (d : Time) (host family : string) :
  ctxDeadline ctx = Some d ->
  Timely d (pingWithFamily W ctx host family) /\
  Verdict d (pingWithFamily W ctx host family).
Proof.
  intros Hd. unfold pingWithFamily. cbn zeta.
  match goal with
  | |- Timely _ (CommandContext_Run _ _ ?n ?a ≫= _) /\ _ =>
      destruct (CommandContext_Run_spec ctx d n a Hd) as [Ht Hv];
      generalize dependent (CommandContext_Run W ctx n a)
  end.
  intros run Ht Hv. split.
  - apply Timely_bind; [exact Ht |]. intros [|]; apply Timely_ret.
  - intros me now ok t tr. rewrite bind_run.
    destruct (run me now) as [ok' t' tr' |] eqn:R; [| discriminate].
    destruct (Hv me now ok' t' tr' R) as (H1 & H2 & H3).
    destruct ok'; cbn; rewrite app_nil_r; intros [= <- <- <-]; auto.
Qed.

End Pieces.

(** ** The deadline of a stage *)

Section Stages.

Variable W : World.

Lemma WithTimeout_deadline (ctx : Context) (now : Time) :
  ctxDeadline (WithTimeout ctx now (2200 * Millisecond)) = Some (stageEnd ctx now).
Proof. unfold WithTimeout, stageEnd. cbn. destruct (ctxDeadline ctx); reflexivity. Qed.

Lemma stageEnd_le (ctx : Context) (now d : Time) :
  ctxDeadline ctx = Some d -> stageEnd ctx now <= d.
Proof. unfold stageEnd. intros ->. lia. Qed.

End Stages.

(** ** The orchestrator *)

Section Orchestrator.

Variable W : World.

(** The goroutine of a literal address. *)
Lemma literal_go_spec (ctx : Context) (D : Time) (parsed : IP)
    (input family : string) :
  ctxDeadline ctx = Some D ->
  Timely D (literal_go W ctx parsed input family) /\
  Verdict D (literal_go W ctx parsed input family).
Proof.
  intros HD.
  destruct (doICMP_spec W ctx D parsed HD) as [T1 V1].
  destruct (pingWithFamily_spec W ctx D input family HD) as [T3 V3].
  unfold literal_go. split.
  - apply Timely_orElse; assumption.
  - apply Verdict_orElse; assumption.
Qed.

Lemma LookupIP_run (ctx : Context) (D : Time) (network host : string)
    (me : GoId) (now : Time) :
  ctxDeadline ctx = Some D ->
  exists ips t,
    LookupIP W ctx network host me now
    = Returns ips t [entry me t (EvLookupIP network host ips)] /\
    now <= t <= Z.max now D.
Proof.
  intros HD. destruct (doneAt_deadline ctx D HD) as (d0 & E0 & L0).
  unfold LookupIP.
  destruct (isDone ctx now) eqn:Dn.
  { eexists _, _. split; [reflexivity | lia]. }
  assert (now < d0) by (apply (proj1 (isDone_false_iff ctx now) Dn); exact E0).
  rewrite E0.
  destruct (resolver W network host me now) as [[ips t] |].
  - destruct (Z.ltb_spec (Z.max now t) d0); eexists _, _;
      (split; [reflexivity | lia]).
  - eexists _, _. split; [reflexivity | lia].
Qed.

(** A resolving goroutine: it returns in time, reports no probe, and what
    it returns, when not empty, is the answer of a lookup it made. *)
Lemma resolve_go_spec (ctx : Context) (D : Time) (network input : string)
    (me : GoId) (now : Time) :
  ctxDeadline ctx = Some D ->
  exists ips t tr,
    resolve_go W ctx network input me now = Returns ips t tr /\
    now <= t <= Z.max now D /\
    inside me now (Z.max now D) tr /\
    Forall (fun e => success (what e) = false) tr /\
    (ips <> [] -> exists t', In (entry me t' (EvLookupIP network input ips)) tr).
Proof.
  intros HD. unfold resolve_go. rewrite bind_run.
  destruct (doneAt_deadline ctx D HD) as (d0 & E0 & L0).
  destruct (acquire_cases W ctx semDNS me now)
    as [(g & -> & Hn & Hg) | [(d1 & E1 & ->) | (E1 & _)]]; [| | congruence].
  - specialize (Hg d0 E0). unfold defer. rewrite !bind_run.
    destruct (LookupIP_run ctx D network input me g HD) as (ips & t & -> & Ht).
    destruct (0 <? Z.of_nat (List.length ips)) eqn:L; cbn.
    + eexists _, _, _. split; [reflexivity |]. split; [lia |].
      split; [| split; [repeat constructor |]].
      * repeat (constructor; [split; [reflexivity | cbn; lia] |]). constructor.
      * intros _. exists t. right. left. reflexivity.
    + eexists _, _, _. split; [reflexivity |]. split; [lia |].
      split; [| split; [repeat constructor | congruence]].
      repeat (constructor; [split; [reflexivity | cbn; lia] |]). constructor.
  - assert (d1 = d0) as -> by congruence. cbn.
    eexists _, _, _. split; [reflexivity |]. split; [lia |].
    split; [constructor |]. split; [constructor | congruence].
Qed.

Lemma goWait2_both {A B} (i j : nat) (m1 : M A) (m2 : M B) (me : GoId)
    (now : Time) (a : A) (b : B) (t1 t2 : Time) (tr1 tr2 : Trace) :
  m1 (me ++ [i]) now = Returns a t1 tr1 ->
  m2 (me ++ [j]) now = Returns b t2 tr2 ->
  goWait2 i (Some m1) j (Some m2) me now
  = Returns (Some a, Some b) (Z.max now (Z.max t1 t2)) (tr1 ++ tr2).
Proof. intros E1 E2. unfold goWait2. cbn. rewrite E1, E2. reflexivity. Qed.


End Orchestrator.

(** ** The kinds of events of each piece *)

Section Kinds.

Variable W : World.

Lemma traceOf_after {A} (tr : Trace) (r : Run A) :
  traceOf (after tr r) = tr ++ traceOf r.
Proof. destruct r; reflexivity. Qed.

Lemma Only_ret {A} (P : Kind -> Prop) (a : A) : Only P (mret a).
Proof. intros me now. constructor. Qed.

Lemma Only_emit (P : Kind -> Prop) (e : Event) : P (kind e) -> Only P (emit e).
Proof. intros H me now. constructor; [exact H | constructor]. Qed.

Lemma Only_bind {A B} (P : Kind -> Prop) (m : M A) (k : A -> M B) :
  Only P m -> (forall a, Only P (k a)) -> Only P (m ≫= k).
Proof.
  intros Hm Hk me now. rewrite bind_run. specialize (Hm me now).
  destruct (m me now) as [a t tr | tr]; cbn [traceOf] in *; [| exact Hm].
  rewrite traceOf_after. apply Forall_app. split; [exact Hm | apply Hk].
Qed.

Lemma Only_defer {A} (P : Kind -> Prop) (dfr : M unit) (body : M A) :
  Only P dfr -> Only P body -> Only P (defer dfr body).
Proof.
  intros Hd Hb. unfold defer. apply Only_bind; [exact Hb |].
  intros a. apply Only_bind; [exact Hd |]. intros _. apply Only_ret.
Qed.

Lemma Only_orElse (P : Kind -> Prop) (a b : M bool) :
  Only P a -> Only P b -> Only P (a ||| b).
Proof.
  intros Ha Hb. unfold orElse. apply Only_bind; [exact Ha |].
  intros [|]; [apply Only_ret | exact Hb].
Qed.

Lemma Only_mono {A} (P Q : Kind -> Prop) (m : M A) :
  (forall k, P k -> Q k) -> Only P m -> Only Q m.
Proof.
  intros H Hm me now. eapply Forall_impl; [apply Hm |]. cbn beta. auto.
Qed.

Lemma acquire_kind (ctx : Context) (sem : Sem) :
  Only (fun k => k = KGate sem) (acquire W ctx sem).
Proof.
  intros me now.
  destruct (acquire_cases W ctx sem me now)
    as [(t & -> & _) | [(d1 & _ & ->) | (_ & ->)]]; repeat constructor.
Qed.

Lemma readLoop_kind (ctx : Context) (sd : option Time) (ip : IP) (rx : list Rx) :
  Only (fun k => k = KICMP) (readLoop W ctx sd ip rx).
Proof.
  induction rx as [| x rest IH]; intros me now; cbn [readLoop];
    (destruct (isDone ctx now); [constructor |]).
  - revert me now. change (Only (fun k => k = KICMP)
      (r ← ReadFrom sd None; afterRead W ip r (mret false))).
    apply Only_bind.
    + intros me now. unfold ReadFrom. destruct sd; repeat constructor.
    + intros [pkt |]; [| apply Only_ret]. rewrite afterRead_packet.
      destruct (isEchoReplyFor W ip pkt); apply Only_ret.
  - revert me now. change (Only (fun k => k = KICMP)
      (r ← ReadFrom sd (Some x); afterRead W ip r (readLoop W ctx sd ip rest))).
    apply Only_bind.
    + intros me now. unfold ReadFrom.
      destruct (expired sd _); [repeat constructor |].
      destruct x; repeat constructor.
    + intros [pkt |]; [| apply Only_ret]. rewrite afterRead_packet.
      destruct (isEchoReplyFor W ip pkt); [apply Only_ret | exact IH].
Qed.

Lemma doICMP_kind (ctx : Context) (ip : IP) :
  Only (fun k => k = KICMP) (doICMP W ctx ip).
Proof.
  intros me now. rewrite doICMP_run. cbn zeta.
  destruct (listenOK W _ _ me now); [| repeat constructor].
  destruct (Marshal W _) as [b |]; [| repeat constructor].
  destruct (negb _ && _); [| repeat constructor].
  pose proof (readLoop_kind ctx (ctxDeadline ctx) ip (inbound W me now) me now) as H.
  destruct (readLoop W ctx _ ip _ me now) as [ok t tr | tr]; cbn [traceOf] in *.
  - constructor; [reflexivity |]. constructor; [reflexivity |].
    apply Forall_app. split; [exact H | repeat constructor].
  - constructor; [reflexivity |]. constructor; [reflexivity | exact H].
Qed.

Lemma DialContext_kind (timeout : Duration) (ctx : Context) (network : string)
    (ip : IP) (port : string) :
  Only (fun k => k = KTCP) (DialContext W timeout ctx network ip port).
Proof.
  intros me now.
  destruct (DialContext_run W timeout ctx network ip port me now)
    as (err & t & -> & _). repeat constructor.
Qed.

Lemma pingWithFamily_kind (ctx : Context) (host family : string) :
  Only (fun k => k = KPing) (pingWithFamily W ctx host family).
Proof.
  unfold pingWithFamily. cbn zeta. apply Only_bind.
  - intros me now. unfold CommandContext_Run.
    destruct (isDone ctx now); [repeat constructor |].
    destruct (child W _ _ me now) as [[ok t] |], (doneAt ctx) as [d0 |];
      try destruct (_ <? _); repeat constructor.
  - intros [|]; apply Only_ret.
Qed.

Lemma LookupIP_kind (ctx : Context) (network host : string) :
  Only (fun k => k = KResolve) (LookupIP W ctx network host).
Proof.
  intros me now. unfold LookupIP.
  destruct (isDone ctx now); [repeat constructor |].
  destruct (resolver W _ _ me now) as [[ips t] |], (doneAt ctx) as [d0 |];
    try destruct (_ <? _); repeat constructor.
Qed.

Lemma raceEcho_go_kind (ctx2 : Context) (ip : IP) :
  Only (fun k => k = KGate semICMP \/ k = KICMP) (raceEcho_go W ctx2 ip).
Proof.
  unfold raceEcho_go. apply Only_bind.
  - eapply Only_mono; [| apply acquire_kind]. auto.
  - intros [|]; [| apply Only_ret]. apply Only_defer.
    + apply Only_emit. left. reflexivity.
    + eapply Only_mono; [| apply doICMP_kind]. auto.
Qed.

(** In a goroutine of [raceEcho] nothing happens before the acquisition of
    the ICMP gate: without a slot there is no event at all, with a slot
    the prober runs between the acquisition and the release. *)
Lemma raceEcho_go_acquires_first (ctx2 : Context) (ip : IP) (me : GoId)
    (now : Time) :
  match traceOf (raceEcho_go W ctx2 ip me now) with
  | [] => True
  | e :: tr =>
      what e = EvAcquire semICMP /\
      Forall (fun e => kind (what e) = KICMP \/ what e = EvRelease semICMP) tr
  end.
Proof.
  unfold raceEcho_go. rewrite bind_run.
  destruct (acquire_cases W ctx2 semICMP me now)
    as [(g & -> & _) | [(d1 & _ & ->) | (_ & ->)]]; cbn [traceOf]; [| exact I ..].
  assert (H : Only (fun k => k = KICMP) (doICMP W ctx2 ip)) by apply doICMP_kind.
  specialize (H me g). unfold defer. rewrite bind_run.
  destruct (doICMP W ctx2 ip me g) as [ok t tr | tr]; cbn in *.
  - split; [reflexivity |]. rewrite app_nil_r.
    apply (proj2 (Forall_app _ tr [entry me t (EvRelease semICMP)])). split.
    + eapply Forall_impl; [exact H |]. cbn beta. auto.
    + constructor; [right; reflexivity | constructor].
  - split; [reflexivity |]. eapply Forall_impl; [exact H |]. cbn beta. auto.
Qed.

Lemma tcpConnectRace_go_kind (ctx2 : Context) (dialNet : string) (ip : IP)
    (p : string) :
  Only (fun k => k = KGate semTCP \/ k = KTCP) (tcpConnectRace_go W ctx2 dialNet ip p).
Proof.
  unfold tcpConnectRace_go. apply Only_bind.
  - eapply Only_mono; [| apply acquire_kind]. auto.
  - intros [|]; [| apply Only_ret]. apply Only_defer.
    + apply Only_emit. left. reflexivity.
    + apply Only_bind.
      * eapply Only_mono; [| apply DialContext_kind]. auto.
      * intros [er |]; [apply Only_ret |].
        apply Only_bind; [apply Only_emit; right; reflexivity |].
        intros _. apply Only_ret.
Qed.

Lemma awaitFirst_kind (P : Kind -> Prop) (ctx2 : Context) (rs : list (Run bool)) :
  Forall (fun r => Forall (fun e => P (kind (what e))) (traceOf r)) rs ->
  Only P (awaitFirst W ctx2 rs).
Proof.
  intros H me now. unfold awaitFirst.
  assert (Forall (fun e => P (kind (what e))) (concat (map traceOf rs))).
  { induction H; cbn; [constructor |]. apply Forall_app. split; assumption. }
  destruct (select2 _ _ _ _) as [[b t] |]; assumption.
Qed.

Lemma raceEcho_kind (ctx : Context) (ips : list IP) :
  Only (fun k => k = KGate semICMP \/ k = KICMP) (raceEcho W ctx ips).
Proof.
  intros me now. unfold raceEcho. cbn zeta.
  apply (fun H => awaitFirst_kind (fun k => k = KGate semICMP \/ k = KICMP) _ _ H me now).
  apply Forall_forall. intros r I.
  apply elem_of_lookup_imap in I as (i & ip & -> & _).
  apply raceEcho_go_kind.
Qed.

Lemma tcpConnectRace_kind (ctx : Context) (ips : list IP) (family : string)
    (ports : list string) :
  Only (fun k => k = KGate semTCP \/ k = KTCP) (tcpConnectRace W ctx ips family ports).
Proof.
  intros me now. unfold tcpConnectRace. cbn zeta.
  apply (fun H => awaitFirst_kind (fun k => k = KGate semTCP \/ k = KTCP) _ _ H me now).
  apply Forall_forall. intros r I. apply list_elem_of_In in I.
  apply in_concat in I as (l & Il & I).
  apply (proj2 (list_elem_of_In _ _)) in Il.
  apply (proj2 (list_elem_of_In _ _)) in I.
  apply elem_of_lookup_imap in Il as (i & ip & -> & _).
  apply elem_of_lookup_imap in I as (j & p & -> & _).
  apply tcpConnectRace_go_kind.
Qed.

Lemma literal_go_kind (ctx : Context) (parsed : IP) (input family : string) :
  Only (fun k => k = KICMP \/ k = KPing) (literal_go W ctx parsed input family).
Proof.
  unfold literal_go. apply Only_orElse.
  - eapply Only_mono; [| apply doICMP_kind]. auto.
  - eapply Only_mono; [| apply pingWithFamily_kind]. auto.
Qed.

Lemma goWait2_kind {A B} (P : Kind -> Prop) (i j : nat)
    (m1 : option (M A)) (m2 : option (M B)) :
  (forall m, m1 = Some m -> Only P m) ->
  (forall m, m2 = Some m -> Only P m) ->
  Only P (goWait2 i m1 j m2).
Proof.
  intros H1 H2 me now. unfold goWait2.
  assert (Forall (fun e => P (kind (what e)))
            (from_option traceOf [] (option_map (fun m => m (me ++ [i]) now) m1)
             ++ from_option traceOf [] (option_map (fun m => m (me ++ [j]) now) m2))).
  { apply Forall_app. split.
    - destruct m1 as [m |]; [apply (H1 m eq_refl) | constructor].
    - destruct m2 as [m |]; [apply (H2 m eq_refl) | constructor]. }
  destruct m1 as [m1 |], m2 as [m2 |]; cbn [option_map] in *;
    try destruct (m1 _ now); try destruct (m2 _ now); assumption.
Qed.

(** A request for a literal address consists of events of the ICMP prober
    and of the system ping, and of nothing else. *)
Lemma literal_request_kinds (parent : Context) (input : string) (parsed : IP) :
  ParseIP W input = Some parsed ->
  Only (fun k => k = KICMP \/ k = KPing) (detectAndPing W parent input).
Proof.
  intros P me now. unfold detectAndPing. cbn zeta. rewrite P.
  apply (fun H1 H2 => Only_bind (fun k => k = KICMP \/ k = KPing) _ _ H1 H2 me now);
    [| intros flags; apply Only_ret].
  destruct (notNil (To4 parsed)); apply goWait2_kind;
    try discriminate; intros m [= <-]; apply literal_go_kind.
Qed.

End Kinds.

(** ** The gates *)

Section Gates.

Lemma gateOps_app (s : Sem) (tr1 tr2 : Trace) :
  gateOps s (tr1 ++ tr2) = gateOps s tr1 ++ gateOps s tr2.
Proof. unfold gateOps. apply omap_app. Qed.

Lemma gateOps_cons (s : Sem) (e : Entry) (tr : Trace) :
  gateOps s (e :: tr)
  = match gateOp s (what e) with
    | Some o => o :: gateOps s tr
    | None => gateOps s tr
    end.
Proof. reflexivity. Qed.

Lemma gateOps_other (s : Sem) (tr : Trace) :
  Forall (fun e => kind (what e) <> KGate s) tr -> gateOps s tr = [].
Proof.
  induction 1 as [| e tr H _ IH]; [reflexivity |].
  rewrite gateOps_cons, IH.
  destruct (what e); cbn in *; try reflexivity;
    destruct (decide (sem = s)); congruence.
Qed.

Lemma gateOps_Only {A} (s : Sem) (P : Kind -> Prop) (m : M A) (me : GoId)
    (now : Time) :
  Only P m -> ~ P (KGate s) -> gateOps s (traceOf (m me now)) = [].
Proof.
  intros H N. apply gateOps_other. eapply Forall_impl; [apply H |].
  cbn beta. intros e Pe E. rewrite E in Pe. contradiction.
Qed.

(** A goroutine that takes a slot, runs a body that returns and does not
    touch the gates, and gives the slot back on its way out. *)
Lemma scoped_gate_ops {A} (W : World) (ctx : Context) (d : Time) (s s' : Sem)
    (body : M A) (dflt : A) (P : Kind -> Prop) (me : GoId) (now : Time) :
  ctxDeadline ctx = Some d ->
  Timely d body -> Only P body -> (forall g, ~ P (KGate g)) ->
  let m := (got ← acquire W ctx s;
            if got : bool then defer (release s) body else mret dflt) in
  exists a t tr,
    m me now = Returns a t tr /\
    gateOps s' tr = if decide (s = s')
                    then (if decide (tr = []) then [] else [Acq; Rel])
                    else [].
Proof.
  intros Hd Ht Ho Hn m. unfold m. rewrite bind_run.
  destruct (doneAt_deadline ctx d Hd) as (d0 & E0 & L0).
  destruct (acquire_cases W ctx s me now)
    as [(g & -> & _) | [(d1 & _ & ->) | (E1 & _)]]; [| | congruence].
  - cbn [after]. unfold defer. rewrite bind_run.
    pose proof (gateOps_Only s' P body me g Ho (Hn s')) as Hb.
    destruct (Ht me g) as (a & t & tr & E & _). rewrite E in *. cbn [traceOf] in Hb.
    cbn. eexists _, _, _. split; [reflexivity |].
    change (gateOps s' ([entry me g (EvAcquire s)] ++ tr ++ [entry me t (EvRelease s)])
            = if decide (s = s') then [Acq; Rel] else []).
    rewrite !gateOps_app, Hb. cbn. destruct (decide (s = s')); reflexivity.
  - cbn. eexists _, _, _. split; [reflexivity |]. destruct (decide (s = s')); reflexivity.
Qed.

(** Every goroutine that uses a gate returns, having done on that gate
    either nothing or one acquisition followed by one release, and nothing
    on the other gates. *)
Lemma worker_gate_ops (W : World) (s : Sem) (tr : Trace) :
  WorkerTrace W s tr ->
  forall s', gateOps s' tr = [] \/ (s' = s /\ gateOps s' tr = [Acq; Rel]).
Proof.
  assert (G : forall {A} ctx d s (body : M A) dflt (P : Kind -> Prop) me now,
    ctxDeadline ctx = Some d -> Timely d body -> Only P body ->
    (forall g, ~ P (KGate g)) ->
    forall s',
      gateOps s' (traceOf ((got ← acquire W ctx s;
                            if got : bool then defer (release s) body
                            else mret dflt) me now)) = [] \/
      (s' = s /\
       gateOps s' (traceOf ((got ← acquire W ctx s;
                             if got : bool then defer (release s) body
                             else mret dflt) me now)) = [Acq; Rel])).
  { intros A ctx d s0 body dflt P me now Hd Ht Ho Hn s'.
    destruct (scoped_gate_ops W ctx d s0 s' body dflt P me now Hd Ht Ho Hn)
      as (a & t & tr0 & -> & E).
    cbn [traceOf]. rewrite E.
    destruct (decide (s0 = s')) as [-> |]; [| auto].
    destruct (decide (tr0 = [])); auto. }
  intros [ctx2 d ip me now Hd | ctx2 d dialNet ip p me now Hd
          | ctx d network input me now Hd] s'.
  - apply (G _ ctx2 d semICMP (doICMP W ctx2 ip) false (fun k => k = KICMP));
      [exact Hd | apply doICMP_spec; exact Hd | apply doICMP_kind | discriminate].
  - apply (G _ ctx2 d semTCP _ false (fun k => k = KTCP)); [exact Hd | | | discriminate].
    + apply Timely_bind;
        [apply DialContext_timely; [unfold Millisecond; lia | exact Hd] |].
      intros [er |]; [apply Timely_ret |].
      apply Timely_bind; [apply Timely_emit | intros _; apply Timely_ret].
    + apply Only_bind; [apply DialContext_kind |].
      intros [er |]; [apply Only_ret |].
      apply Only_bind; [apply Only_emit; reflexivity | intros _; apply Only_ret].
  - apply (G _ ctx d semDNS _ [] (fun k => k = KResolve)); [exact Hd | | | discriminate].
    + apply Timely_bind.
      * intros me' now'.
        destruct (LookupIP_run W ctx d network input me' now' Hd) as (ips & t & -> & Ht).
        eexists _, _, _. split; [reflexivity |]. split; [lia | apply inside_one; lia].
      * intros ips. destruct (0 <? _); apply Timely_ret.
    + apply Only_bind; [apply LookupIP_kind |].
      intros ips. destruct (0 <? _); apply Only_ret.
Qed.










End Gates.


(** ** Literal addresses *)

(** What [detectAndPing] does with a literal address: the outcome of
    [doICMP || pingWithFamily] of the family of the address goes to the
    field of that family, the other field stays "no". *)
Lemma literal_request_run (W : World) (parent : Context) (input : string)
    (parsed : IP) (me : GoId) (now : Time) :
  ParseIP W input = Some parsed ->
  let ctx := WithTimeout parent now (5 * Second) in
  let v4 := notNil (To4 parsed) in
  let okno (ok : bool) := if ok then "ok" else "no" in
  detectAndPing W parent input me now =
    match literal_go W ctx parsed input (if v4 then "4" else "6")
            (me ++ [if v4 then 4%nat else 6%nat]) now with
    | Returns ok t tr =>
        Returns (if v4 then {| IPv4 := okno ok; IPv6 := "no" |}
                 else {| IPv4 := "no"; IPv6 := okno ok |}) (Z.max now t) tr
    | Blocks tr => Blocks tr
    end.
Proof.
  intros P. cbv zeta. unfold detectAndPing. cbv zeta. rewrite P.
  destruct (notNil (To4 parsed)); rewrite bind_run; unfold goWait2;
    cbn [option_map from_option traceOf];
    destruct (literal_go W _ parsed input _ _ now) as [[|] t tr | tr];
    cbn; rewrite ?app_nil_r; reflexivity.
Qed.

(** C10. A request for a literal address makes no lookup and does nothing
    on the DNS gate: whatever the state of the gate, the request leaves
    it as it was. *)
Theorem literal_address_leaves_dns_gate_alone :
  forall (W : World) (parent : Context) (input : string) (parsed : IP)
         (me : GoId) (now : Time) (c : Chan),
    ParseIP W input = Some parsed ->
    let tr := traceOf (detectAndPing W parent input me now) in
    Forall (fun e => kind (what e) <> KResolve /\ kind (what e) <> KGate semDNS) tr /\
    gateOps semDNS tr = [] /\
    runGate c (gateOps semDNS tr) = Some c.
Proof.
  intros W parent input parsed me now c P tr.
  pose proof (literal_request_kinds W parent input parsed P me now) as K.
  fold tr in K.
  assert (G : gateOps semDNS tr = []).
  { apply gateOps_other. eapply Forall_impl; [exact K |]. cbn beta.
    intros e [-> | ->]; discriminate. }
  split; [| split; [exact G | rewrite G; reflexivity]].
  eapply Forall_impl; [exact K |]. cbn beta.
  intros e [-> | ->]; split; discriminate.
Qed.

(** C10 on a request for 8.8.8.8 that is answered by an echo reply. *)
Lemma literal_address_leaves_dns_gate_alone_witness :
  let W := sampleWorld true [RxPacket (12 * Millisecond) echoReply4]
             (fun _ => false) false in
  let run := detectAndPing W (deadlineOnly None) "8.8.8.8" [] 0 in
  (exists t tr, run = Returns {| IPv4 := "ok"; IPv6 := "no" |} t tr) /\
  gateOps semDNS (traceOf run) = [] /\
  runGate (make 4096) (gateOps semDNS (traceOf run)) = Some (make 4096).
Proof.
  intros W run. split; [eexists _, _; vm_compute; reflexivity |].
  apply (literal_address_leaves_dns_gate_alone W (deadlineOnly None) "8.8.8.8"
           addr_8_8_8_8 [] 0 (make 4096)).
  reflexivity.
Defined.

(** C2, where the code departs from it: a request for the literal address
    8.8.8.8 on a host without raw sockets whose ping fails, the target
    accepting connections on port 443.  [detectAndPing] answers "no" for
    IPv4 without a single TCP event, whereas the chain of the family
    goroutine (ICMP stage, TCP stage on 443 and 80, system ping), given
    that one address, returns true. *)
Theorem literal_address_skips_tcp_stage :
  let W := sampleWorld false [] (String.eqb "443") false in
  let ctx := WithTimeout (deadlineOnly None) 0 (5 * Second) in
  (exists t tr,
     detectAndPing W (deadlineOnly None) "8.8.8.8" [] 0
     = Returns {| IPv4 := "no"; IPv6 := "no" |} t tr /\
     Forall (fun e => kind (what e) = KICMP \/ kind (what e) = KPing) tr) /\
  (exists t tr,
     family_go W ctx [addr_8_8_8_8] "4" ["443"; "80"] "8.8.8.8" [4%nat] 0
     = Returns true t tr /\
     In (EvDial "tcp4" addr_8_8_8_8 "443" None) (map what tr)).
Proof.
  intros W ctx. split.
  - eexists _, _. split; [vm_compute; reflexivity |].
    repeat (constructor; [cbn; auto |]). constructor.
  - eexists _, _. split; [vm_compute; reflexivity |].
    cbn. tauto.
Qed.

(** C3, where the code departs from it: on a request for the literal
    address 8.8.8.8, answered by an echo reply, the ICMP prober runs and
    succeeds while nothing at all is done on the ICMP gate; on a request
    for a domain in the same world the prober runs between an acquisition
    and a release of that gate. *)
Theorem literal_address_icmp_bypasses_gate :
  let W := sampleWorld true [RxPacket (12 * Millisecond) echoReply4]
             (fun _ => false) false in
  (exists t tr,
     detectAndPing W (deadlineOnly None) "8.8.8.8" [] 0
     = Returns {| IPv4 := "ok"; IPv6 := "no" |} t tr /\
     In (EvDoICMP addr_8_8_8_8 true) (map what tr) /\
     gateOps semICMP tr = []) /\
  (exists t tr,
     detectAndPing W (deadlineOnly None) "example.com" [] 0
     = Returns {| IPv4 := "ok"; IPv6 := "no" |} t tr /\
     In (EvDoICMP addr_example true) (map what tr) /\
     gateOps semICMP tr = [Acq; Rel]).
Proof.
  intros W. split.
  - eexists _, _. split; [vm_compute; reflexivity |].
    split; [cbn; tauto | reflexivity].
  - eexists _, _. split; [vm_compute; reflexivity |].
    split; [cbn; tauto | reflexivity].
Qed.

(** ** Runs of the sample worlds *)

(** C4 on a probe of 8.8.8.8 whose socket receives a destination
    unreachable, then an echo reply: the first packet is dropped, the
    second ends the loop with true; an ICMPv6 echo reply is dropped too;
    a done context, a passed deadline and a read error end it with
    false. *)
Lemma doICMP_loop_echo_reply_only_witness :
  let W := sampleWorld true [] (fun _ => false) false in
  let ctx := deadlineOnly (Some (5 * Second)) in
  let sd := Some (5 * Second) in
  let ms := Millisecond in
  (exists discarded pkt,
     [entry [] (5 * ms) (EvReadFrom (Some unreachable4));
      entry [] (9 * ms) (EvReadFrom (Some echoReply4))]
     = reads [] discarded ++ [entry [] (9 * ms) (EvReadFrom (Some pkt))] /\
     isEchoReplyFor W addr_8_8_8_8 pkt = true /\
     Forall (fun tp => isEchoReplyFor W addr_8_8_8_8 tp.2 = false) discarded) /\
  readLoop W ctx sd addr_8_8_8_8 [RxPacket (9 * ms) echoReply4] [] 0
  = Returns true (9 * ms) [entry [] (9 * ms) (EvReadFrom (Some echoReply4))] /\
  readLoop W ctx sd addr_8_8_8_8
    [RxPacket (5 * ms) echoReply6; RxPacket (9 * ms) echoReply4] [] 0
  = after [entry [] (5 * ms) (EvReadFrom (Some echoReply6))]
      (readLoop W ctx sd addr_8_8_8_8 [RxPacket (9 * ms) echoReply4] [] (5 * ms)) /\
  readLoop W ctx sd addr_8_8_8_8 [RxPacket (9 * ms) echoReply4] [] (6 * Second)
  = Returns false (6 * Second) [] /\
  readLoop W ctx sd addr_8_8_8_8 [] [] 0
  = Returns false (5 * Second) [entry [] (5 * Second) (EvReadFrom None)] /\
  readLoop W ctx sd addr_8_8_8_8 [RxError (7 * ms) false] [] 0
  = Returns false (7 * ms) [entry [] (7 * ms) (EvReadFrom None)].
Proof.
  intros W ctx sd ms.
  split; [| split; [| split; [| split; [| split]]]].
  - apply (proj1 (doICMP_loop_echo_reply_only W ctx sd addr_8_8_8_8
             [RxPacket (5 * ms) unreachable4; RxPacket (9 * ms) echoReply4] [] 0)
             (9 * ms)).
    vm_compute. reflexivity.
  - apply (proj1 (proj2 (doICMP_loop_echo_reply_only W ctx sd addr_8_8_8_8
             [RxPacket (9 * ms) echoReply4] [] 0)) (9 * ms) echoReply4 []);
      reflexivity.
  - apply (proj1 (proj2 (proj2 (doICMP_loop_echo_reply_only W ctx sd addr_8_8_8_8
             [RxPacket (5 * ms) echoReply6; RxPacket (9 * ms) echoReply4] [] 0)))
             (5 * ms) echoReply6 [RxPacket (9 * ms) echoReply4]);
      reflexivity.
  - apply (proj1 (proj2 (proj2 (proj2 (doICMP_loop_echo_reply_only W ctx sd
             addr_8_8_8_8 [RxPacket (9 * ms) echoReply4] [] (6 * Second)))))).
    reflexivity.
  - apply (proj1 (proj2 (proj2 (proj2 (proj2 (doICMP_loop_echo_reply_only W ctx sd
             addr_8_8_8_8 [] [] 0))))) (5 * Second)); [reflexivity | reflexivity |].
    exact I.
  - apply (proj2 (proj2 (proj2 (proj2 (proj2 (doICMP_loop_echo_reply_only W ctx sd
             addr_8_8_8_8 [RxError (7 * ms) false] [] 0))))) (7 * ms) false []);
      reflexivity.
Defined.

(** C7 on probes of 8.8.8.8: without the right to open a raw socket the
    result is false at once; with it and an echo reply the result is true,
    after a socket, a send and the read of the reply. *)
Lemma doICMP_failures_are_false_witness :
  let denied := sampleWorld false [] (fun _ => false) false in
  let granted := sampleWorld true [RxPacket (12 * Millisecond) echoReply4]
                   (fun _ => false) false in
  let ctx := deadlineOnly (Some (5 * Second)) in
  (exists ok t tr, doICMP denied ctx addr_8_8_8_8 [] 0 = Returns ok t tr) /\
  (exists tr, doICMP denied ctx addr_8_8_8_8 [] 0 = Returns false 0 tr) /\
  (exists pkt,
     In (entry [] (12 * Millisecond) (EvReadFrom (Some pkt)))
        (traceOf (doICMP granted ctx addr_8_8_8_8 [] 0)) /\
     isEchoReplyFor granted addr_8_8_8_8 pkt = true).
Proof.
  intros denied granted ctx.
  split; [| split].
  - apply (proj1 (doICMP_failures_are_false denied ctx addr_8_8_8_8 [] 0)
             (5 * Second)).
    reflexivity.
  - apply (proj1 (proj2 (doICMP_failures_are_false denied ctx addr_8_8_8_8 [] 0))).
    reflexivity.
  - apply (proj2 (proj2 (proj2 (proj2 (proj2
             (doICMP_failures_are_false granted ctx addr_8_8_8_8 [] 0)))))
             (12 * Millisecond)).
    vm_compute. reflexivity.
Defined.

(** C8 on attempts against 8.8.8.8 under the context of a stage that
    starts at 0: port 443 accepts after 30 ms, port 80 refuses. *)
Lemma tcp_attempt_success_iff_established_in_time_witness :
  let W := sampleWorld false [] (String.eqb "443") false in
  let ctx := WithTimeout (deadlineOnly None) 0 (5 * Second) in
  let ctx2 := WithTimeout ctx 0 (2200 * Millisecond) in
  (exists err t,
     tcpConnectRace_go W ctx2 "tcp4" addr_8_8_8_8 "443" [1; 0; 0]%nat 0
     = Returns (negb (notNil err)) t
         (entry [1; 0; 0]%nat 0 (EvAcquire semTCP)
          :: entry [1; 0; 0]%nat t (EvDial "tcp4" addr_8_8_8_8 "443" err)
          :: (if notNil err then [] else [entry [1; 0; 0]%nat t EvConnClose])
          ++ [entry [1; 0; 0]%nat t (EvRelease semTCP)]) /\
     (err = None <->
      exists e, connect W "tcp4" addr_8_8_8_8 "443" [1; 0; 0]%nat 0 = Established e /\
                Z.max 0 e < 0 + 1200 * Millisecond /\
                (forall d, doneAt ctx2 = Some d -> Z.max 0 e < d)) /\
     (forall e, err = None ->
                connect W "tcp4" addr_8_8_8_8 "443" [1; 0; 0]%nat 0 = Established e ->
                t = Z.max 0 e)) /\
  30 * Millisecond < 0 + 2200 * Millisecond.
Proof.
  intros W ctx ctx2. split.
  - apply (proj1 (proj2 (tcp_attempt_success_iff_established_in_time W ctx2 "tcp4"
             addr_8_8_8_8 "443" [1; 0; 0]%nat 0)) 0).
    reflexivity.
  - apply (proj2 (proj2 (tcp_attempt_success_iff_established_in_time W ctx2 "tcp4"
             addr_8_8_8_8 "443" [1; 0; 0]%nat 0)) ctx (30 * Millisecond)
             [entry [1; 0; 0]%nat 0 (EvAcquire semTCP);
              entry [1; 0; 0]%nat (30 * Millisecond)
                (EvDial "tcp4" addr_8_8_8_8 "443" None);
              entry [1; 0; 0]%nat (30 * Millisecond) EvConnClose;
              entry [1; 0; 0]%nat (30 * Millisecond) (EvRelease semTCP)]);
      reflexivity.
Defined.


(** * Further properties of the code *)

(** ** Regular expressions: the matcher decides the language *)

Section Regexps.

Import Go_regexp.

Ltac nil_app :=
  match goal with
  | E : [] = _ ++ _ |- _ => symmetry in E; apply app_eq_nil in E as [-> ->]
  | E : _ ++ _ = [] |- _ => apply app_eq_nil in E as [-> ->]
  end.

Lemma Lang_Repeat_bounds (a : Regexp) (max : nat) :
  forall (min : nat) (s : list Z), Lang (Repeat min max a) s -> (min <= max)%nat.
Proof.
  induction max as [| max IH]; intros min s H; inv H; try lia.
  match goal with H' : Lang (Repeat (Nat.pred min) max a) _ |- _ =>
    apply IH in H' end.
  lia.
Qed.

Lemma Lang_Repeat_nullable (a : Regexp) (max : nat) :
  forall min : nat, Lang a [] -> (min <= max)%nat -> Lang (Repeat min max a) [].
Proof.
  induction max as [| max IH]; intros min Ha Hm.
  - assert (min = 0%nat) as -> by lia. constructor.
  - destruct min as [| min]; [constructor |].
    apply (L_Repeat_app (S min) max a [] []); [exact Ha |].
    apply IH; [exact Ha | cbn; lia].
Qed.

Lemma nullable_spec (re : Regexp) : nullable re = true <-> Lang re [].
Proof.
  induction re as [| | ranges | a IHa b IHb | a IHa b IHb | a IHa | a IHa
                   | min max a IHa]; cbn [nullable].
  - split; [discriminate | intros H; inv H].
  - split; [constructor | reflexivity].
  - split; [discriminate | intros H; inv H].
  - rewrite andb_true_iff, IHa, IHb. split.
    + intros [Ha Hb]. apply (L_Concat a b [] []); assumption.
    + intros H. inv H. nil_app. auto.
  - rewrite orb_true_iff, IHa, IHb. split.
    + intros [H | H]; [apply L_Alt_l | apply L_Alt_r]; exact H.
    + intros H. inv H; auto.
  - split; [constructor | reflexivity].
  - split; [constructor | reflexivity].
  - rewrite andb_true_iff, orb_true_iff, Nat.leb_le, Nat.eqb_eq, IHa. split.
    + intros [Hm [-> | Ha]]; [constructor | apply Lang_Repeat_nullable; assumption].
    + intros H. split; [eapply Lang_Repeat_bounds; exact H |].
      inv H; [left; reflexivity |]. nil_app. right. assumption.
Qed.

Lemma Lang_Star_cons (a : Regexp) (r : Z) (s : list Z) :
  Lang (Star a) (r :: s) ->
  exists s1 s2, s = s1 ++ s2 /\ Lang a (r :: s1) /\ Lang (Star a) s2.
Proof.
  intros H. remember (Star a) as re eqn:E. remember (r :: s) as w eqn:Ew.
  revert E Ew.
  induction H as [| | | | | | a' s1 s2 H1 _ H2 IH2 | | | |]; try discriminate.
  intros [= ->] Ew. destruct s1 as [| r1 s1].
  - cbn in Ew. apply IH2; [reflexivity | exact Ew].
  - cbn in Ew. injection Ew as -> <-. exists s1, s2. auto.
Qed.

Lemma Lang_Repeat_cons (a : Regexp) (max : nat) :
  forall (min : nat) (r : Z) (s : list Z),
    Lang (Repeat min max a) (r :: s) ->
    exists max' s1 s2,
      max = S max' /\ s = s1 ++ s2 /\ Lang a (r :: s1) /\
      Lang (Repeat (Nat.pred min) max' a) s2.
Proof.
  induction max as [| max IH]; intros min r s H.
  - inv H.
  - inversion H as [| | | | | | | | | | ? ? ? s1 s2 H1 H2 E1 E2]; subst.
    destruct s1 as [| r1 s1].
    + cbn in E2. subst s2.
      apply IH in H2 as (max' & s1 & s2 & -> & -> & Ha & Hr).
      exists (S max'), s1, s2. split; [reflexivity |]. split; [reflexivity |].
      split; [exact Ha |].
      apply (L_Repeat_app (Nat.pred min) max' a [] s2); assumption.
    + cbn in E2. injection E2 as -> <-. exists max, s1, s2. auto.
Qed.

Lemma Lang_Concat_cons (a b : Regexp) (r : Z) (s : list Z) :
  Lang (Concat a b) (r :: s) <->
  (exists s1 s2, s = s1 ++ s2 /\ Lang a (r :: s1) /\ Lang b s2) \/
  (Lang a [] /\ Lang b (r :: s)).
Proof.
  split.
  - intros H. inversion H as [| | ? ? s1 s2 H1 H2 E1 E2 | | | | | | | |]; subst.
    destruct s1 as [| r1 s1]; cbn in E2.
    + subst s2. right. auto.
    + injection E2 as -> <-. left. eauto.
  - intros [(s1 & s2 & -> & H1 & H2) | [Ha Hb]].
    + apply (L_Concat a b (r :: s1) s2); assumption.
    + apply (L_Concat a b [] (r :: s)); assumption.
Qed.

Lemma deriv_spec (re : Regexp) :
  forall (r : Z) (s : list Z), Lang (deriv r re) s <-> Lang re (r :: s).
Proof.
  induction re as [| | ranges | a IHa b IHb | a IHa b IHb | a IHa | a IHa
                   | min max a IHa]; intros r s; cbn [deriv].
  - split; intros H; inv H.
  - split; intros H; inv H.
  - destruct (inClass ranges r) eqn:C; split; intros H; inv H.
    + constructor. exact C.
    + constructor.
    + congruence.
  - rewrite Lang_Concat_cons.
    assert (K : Lang (Concat (deriv r a) b) s
                <-> exists s1 s2, s = s1 ++ s2 /\ Lang a (r :: s1) /\ Lang b s2).
    { split.
      - intros H. inv H. eexists _, _. split; [reflexivity |].
        split; [apply IHa |]; assumption.
      - intros (s1 & s2 & -> & H1 & H2). constructor; [apply IHa |]; assumption. }
    destruct (nullable a) eqn:N.
    + rewrite <- K, <- IHb. split.
      * intros H. inv H; [left; assumption |].
        right. split; [apply nullable_spec; exact N | assumption].
      * intros [H | [_ H]]; [apply L_Alt_l; exact H | apply L_Alt_r; exact H].
    + rewrite <- K. split; [auto |]. intros [H | [H _]]; [exact H |].
      apply nullable_spec in H. congruence.
  - split; intros H; inv H.
    + apply L_Alt_l, IHa. assumption.
    + apply L_Alt_r, IHb. assumption.
    + apply L_Alt_l, IHa. assumption.
    + apply L_Alt_r, IHb. assumption.
  - split.
    + intros H. inv H.
      match goal with H1 : Lang (deriv r a) ?s1 |- _ => apply IHa in H1 end.
      match goal with H1 : Lang a (r :: ?s1), H2 : Lang (Star a) ?s2 |- _ =>
        apply (L_Star_app a (r :: s1) s2); assumption end.
    + intros H. apply Lang_Star_cons in H as (s1 & s2 & -> & H1 & H2).
      constructor; [apply IHa; exact H1 | exact H2].
  - rewrite IHa. split; intros H; [constructor; exact H | inv H; assumption].
  - destruct max as [| max].
    + split; intros H; inv H.
    + split.
      * intros H. inv H.
        match goal with H1 : Lang (deriv r a) ?s1 |- _ => apply IHa in H1 end.
        match goal with H1 : Lang a (r :: ?s1), H2 : Lang (Repeat _ _ a) ?s2 |- _ =>
          apply (L_Repeat_app min max a (r :: s1) s2); assumption end.
      * intros H. apply Lang_Repeat_cons in H as (max' & s1 & s2 & [= <-] & -> & H1 & H2).
        constructor; [apply IHa; exact H1 | exact H2].
Qed.

Lemma matches_spec (s : list Z) :
  forall re : Regexp, matches re s = true <-> Lang re s.
Proof.
  unfold matches. induction s as [| r s IH]; intros re; cbn [fold_left].
  - apply nullable_spec.
  - rewrite IH. apply deriv_spec.
Qed.

End Regexps.

(** ** The language of [reDomain] *)

Section Domain.

Import Go_regexp.

Lemma Lang_CharClass (ranges : list (Z * Z)) (s : list Z) :
  Lang (CharClass ranges) s <-> exists r, s = [r] /\ inClass ranges r = true.
Proof.
  split.
  - intros H. inv H. eauto.
  - intros (r & -> & C). constructor. exact C.
Qed.

Lemma Lang_Repeat_class (ranges : list (Z * Z)) (n : nat) :
  forall s : list Z,
    Lang (Repeat 0 n (CharClass ranges)) s <->
    (List.length s <= n)%nat /\ Forall (fun r => inClass ranges r = true) s.
Proof.
  induction n as [| n IH]; intros s.
  - split.
    + intros H. inv H. split; [cbn; lia | constructor].
    + intros [L _]. destruct s; [constructor | cbn in L; lia].
  - split.
    + intros H. inv H; [split; [cbn; lia | constructor] |].
      match goal with H1 : Lang (CharClass _) _ |- _ =>
        apply Lang_CharClass in H1 as (r & -> & C) end.
      match goal with H2 : Lang (Repeat _ _ _) _ |- _ =>
        apply IH in H2 as [L F] end.
      split; [cbn; lia | constructor; assumption].
    + intros [L F]. destruct s as [| r s]; [constructor |].
      inv F. apply (L_Repeat_app 0 n _ [r] s); [constructor; assumption |].
      apply IH. split; [cbn in L; lia | assumption].
Qed.

Lemma inClass_a_z0_9 (r : Z) : inClass a_z0_9 r = letterDigit r.
Proof.
  unfold inClass, a_z0_9, letterDigit, Go_utf8.between. cbn [existsb fst snd].
  rewrite orb_false_r, !orb_assoc.
  f_equal; [f_equal |].
  - destruct (Z.eqb_spec r 383) as [-> | N]; [reflexivity |].
    destruct (Z.leb_spec 383 r), (Z.leb_spec r 383); try reflexivity; lia.
  - destruct (Z.eqb_spec r 8490) as [-> | N]; [reflexivity |].
    destruct (Z.leb_spec 8490 r), (Z.leb_spec r 8490); try reflexivity; lia.
Qed.

Lemma inClass_a_z0_9_hyphen (r : Z) :
  inClass a_z0_9_hyphen r = true <-> letterDigit r = true \/ r = 45.
Proof.
  unfold a_z0_9_hyphen. change (inClass ((45, 45) :: a_z0_9) r)
    with ((45 <=? r) && (r <=? 45) || inClass a_z0_9 r).
  rewrite orb_true_iff, inClass_a_z0_9, andb_true_iff, !Z.leb_le. intuition lia.
Qed.

(** The language of one label. *)
Lemma Lang_reLabel (l : list Z) : Lang reLabel l <-> hostLabel l.
Proof.
  unfold reLabel, hostLabel. split.
  - intros H. inv H.
    match goal with H1 : Lang (CharClass _) _ |- _ =>
      apply Lang_CharClass in H1 as (c & -> & C) end.
    rewrite inClass_a_z0_9 in C.
    match goal with H2 : Lang (Quest _) _ |- _ => inv H2 end.
    + cbn. split; [lia |]. split; [repeat constructor; auto |].
      split; exists c; auto.
    + match goal with H2 : Lang (Concat _ _) _ |- _ => inv H2 end.
      match goal with H1 : Lang (CharClass _) _ |- _ =>
        apply Lang_CharClass in H1 as (c' & -> & C') end.
      rewrite inClass_a_z0_9 in C'.
      match goal with H1 : Lang (Repeat _ _ _) _ |- _ =>
        apply Lang_Repeat_class in H1 as [L F] end.
      split; [cbn; rewrite length_app; cbn; lia |].
      split; [| split].
      * constructor; [auto |]. apply Forall_app. split.
        -- eapply Forall_impl; [exact F |]. intros r. apply inClass_a_z0_9_hyphen.
        -- repeat constructor. auto.
      * exists c. auto.
      * exists c'. split; [| exact C'].
        change ([c] ++ s1 ++ [c']) with ((c :: s1) ++ [c']). apply last_snoc.
  - intros (L & F & (c & Hc & C) & (c' & Hc' & C')).
    destruct l as [| c0 l]; [discriminate |]. injection Hc as ->.
    apply (L_Concat _ _ [c] l); [constructor; rewrite inClass_a_z0_9; exact C |].
    apply last_Some in Hc' as [l' E]. destruct l' as [| c1 mid]; cbn in E.
    + injection E as -> ->. constructor.
    + injection E as <- ->. apply L_Quest_one.
      constructor; [| constructor; rewrite inClass_a_z0_9; exact C'].
      apply Lang_Repeat_class. inv F. apply Forall_app in H2 as [F _].
      split; [cbn in L; rewrite length_app in L; cbn in L; lia |].
      eapply Forall_impl; [exact F |]. intros r. apply inClass_a_z0_9_hyphen.
Qed.

Lemma Lang_dotLabels (s : list Z) :
  Lang (Star (Concat (CharClass [(46, 46)]) reLabel)) s <->
  exists ls, Forall hostLabel ls /\ s = concat (map (cons 46) ls).
Proof.
  split.
  - intros H. remember (Star _) as re eqn:E. revert E.
    induction H as [| | | | | | a s1 s2 H1 _ H2 IH2 | | | |]; try discriminate.
    + intros _. exists []. split; [constructor | reflexivity].
    + intros [= ->]. destruct (IH2 eq_refl) as (ls & F & ->).
      inv H1.
      match goal with H : Lang (CharClass _) _ |- _ =>
        apply Lang_CharClass in H as (c & -> & C) end.
      match goal with H : Lang reLabel ?l |- _ =>
        apply Lang_reLabel in H; exists (l :: ls) end.
      split; [constructor; assumption |].
      assert (c = 46) as ->.
      { unfold inClass in C. cbn in C. lia. }
      reflexivity.
  - intros (ls & F & ->). induction F as [| l ls Hl _ IH]; [constructor |].
    cbn. change (46 :: l ++ concat (map (cons 46) ls))
      with (([46] ++ l) ++ concat (map (cons 46) ls)).
    constructor; [| exact IH].
    constructor; [constructor; reflexivity | apply Lang_reLabel; exact Hl].
Qed.

Lemma Lang_reDomain (s : list Z) :
  Lang reDomain s <->
  exists l0 ls, hostLabel l0 /\ Forall hostLabel ls /\ s = joinDots l0 ls.
Proof.
  unfold reDomain, joinDots. split.
  - intros H. inv H.
    match goal with H : Lang reLabel _ |- _ => apply Lang_reLabel in H end.
    match goal with H : Lang (Star _) _ |- _ =>
      apply Lang_dotLabels in H as (ls & F & ->) end.
    eauto.
  - intros (l0 & ls & H0 & F & ->).
    constructor; [apply Lang_reLabel; exact H0 |].
    apply Lang_dotLabels. eauto.
Qed.

Lemma hostLabel_no_dot (l : list Z) : hostLabel l -> ~ In 46 l.
Proof.
  intros (_ & F & _) I. rewrite Forall_forall in F.
  apply (proj2 (list_elem_of_In _ _)) in I.
  destruct (F 46 I) as [H | H]; [vm_compute in H |]; discriminate.
Qed.

Lemma splitOn_app_nodot (l rest l' : list Z) (ls : list (list Z)) :
  ~ In 46 l -> splitOn 46 rest = l' :: ls ->
  splitOn 46 (l ++ rest) = (l ++ l') :: ls.
Proof.
  intros N E. induction l as [| r l IH]; [exact E |].
  cbn [app splitOn]. destruct (Z.eqb_spec r 46) as [-> | _];
    [exfalso; apply N; left; reflexivity |].
  rewrite IH by (intros I; apply N; right; exact I). reflexivity.
Qed.

Lemma splitOn_dotLabels (ls : list (list Z)) :
  Forall (fun l => ~ In 46 l) ls ->
  splitOn 46 (concat (map (cons 46) ls)) = [] :: ls.
Proof.
  induction 1 as [| l ls N _ IH]; [reflexivity |].
  cbn [map concat]. change ((46 :: l) ++ concat (map (cons 46) ls))
    with (46 :: (l ++ concat (map (cons 46) ls))).
  cbn [splitOn]. rewrite Z.eqb_refl. f_equal.
  rewrite (splitOn_app_nodot l _ [] ls N IH), app_nil_r. reflexivity.
Qed.

Lemma splitOn_joinDots (l0 : list Z) (ls : list (list Z)) :
  ~ In 46 l0 -> Forall (fun l => ~ In 46 l) ls ->
  splitOn 46 (joinDots l0 ls) = l0 :: ls.
Proof.
  intros N F. unfold joinDots.
  rewrite (splitOn_app_nodot l0 _ [] ls N (splitOn_dotLabels ls F)), app_nil_r.
  reflexivity.
Qed.

Lemma joinDots_splitOn (s : list Z) :
  exists l0 ls, splitOn 46 s = l0 :: ls /\ s = joinDots l0 ls.
Proof.
  unfold joinDots. induction s as [| r s (l0 & ls & E & ->)].
  - exists [], []. split; reflexivity.
  - cbn [splitOn]. rewrite E. destruct (r =? 46) eqn:R.
    + apply Z.eqb_eq in R as ->. exists [], (l0 :: ls). split; reflexivity.
    + exists (r :: l0), ls. split; reflexivity.
Qed.

(** The language of [reDomain]: the strings whose pieces between dots
    are all labels. *)
Lemma matches_reDomain (s : list Z) :
  matches reDomain s = true <-> Forall hostLabel (splitOn 46 s).
Proof.
  rewrite matches_spec, Lang_reDomain. split.
  - intros (l0 & ls & H0 & F & ->).
    rewrite splitOn_joinDots.
    + constructor; assumption.
    + apply hostLabel_no_dot. exact H0.
    + eapply Forall_impl; [exact F |]. apply hostLabel_no_dot.
  - intros F. destruct (joinDots_splitOn s) as (l0 & ls & E & ->).
    rewrite E in F. inv F. eauto.
Qed.

End Domain.

(** X3. [reDomain] matches exactly the strings whose pieces between dots
    are all labels: 1 to 63 letters, digits or hyphens, the first and the
    last of them a letter or a digit.  So it matches no empty string, no
    string with a leading, trailing or doubled dot, no label over 63
    characters, and under the flag [i] the letters include U+017F and
    U+212A besides a-z and A-Z. *)
Theorem reDomain_matches_dotted_labels :
  forall s : string,
    Go_regexp.MatchString reDomain s = true
    <-> Forall hostLabel (splitOn 46 (Go_utf8.runes s)).
Proof. intros s. apply matches_reDomain. Qed.

(** X4. [isValidInput] accepts exactly the non-empty strings of at most
    255 bytes that [net.ParseIP] reads as an address, or else whose IDNA
    form exists, has at most 253 bytes and is made of labels separated by
    dots.  The test for an empty IDNA form changes nothing: an empty
    string is not made of labels. *)
Theorem isValidInput_accepts_addresses_and_host_names :
  forall (W : World) (ToASCII : string -> option string) (s : string),
    isValidInput W ToASCII s = true <->
    s <> "" /\ (String.length s <= 255)%nat /\
    (ParseIP W s <> None \/
     exists ascii,
       ToASCII s = Some ascii /\ (String.length ascii <= 253)%nat /\
       Forall hostLabel (splitOn 46 (Go_utf8.runes ascii))).
Proof.
  intros W ToASCII s. unfold isValidInput.
  destruct (String.eqb_spec s "") as [-> | Ns]; cbn [orb].
  { split; [discriminate | intros [N _]; congruence]. }
  destruct (Z.ltb_spec 255 (Z.of_nat (String.length s))) as [L | L].
  { split; [discriminate | intros (_ & L' & _); lia]. }
  destruct (ParseIP W s) as [ip |] eqn:P; cbn [notNil].
  { split; [| reflexivity]. intros _. split; [exact Ns |]. split; [lia |].
    left. discriminate. }
  assert (E : forall a, Forall hostLabel (splitOn 46 (Go_utf8.runes a)) -> a <> "").
  { intros a F ->. cbn in F. inversion F as [| ? ? [La _] _]; subst. cbn in La. lia. }
  destruct (ToASCII s) as [ascii |] eqn:A.
  2:{ split; [discriminate |]. intros (_ & _ & [N | (a & [=] & _)]). congruence. }
  destruct (String.eqb_spec ascii "") as [-> | Na]; cbn [orb].
  { split; [discriminate |]. intros (_ & _ & [N | (a & [= <-] & _ & F)]); [congruence |].
    exfalso. exact (E "" F eq_refl). }
  destruct (Z.ltb_spec 253 (Z.of_nat (String.length ascii))) as [La | La].
  { split; [discriminate |]. intros (_ & _ & [N | (a & [= <-] & La' & _)]);
      [congruence | lia]. }
  unfold Go_regexp.MatchString. rewrite matches_reDomain. split.
  - intros F. split; [exact Ns |]. split; [lia |]. right. exists ascii.
    split; [reflexivity |]. split; [lia | exact F].
  - intros (_ & _ & [N | (a & [= <-] & _ & F)]); [congruence | exact F].
Qed.

(** ** Requests under any context: timing *)

Section Bounds.

Variable W : World.

Lemma doneAt_WithTimeout (ctx : Context) (now : Time) (d : Duration) :
  doneAt (WithTimeout ctx now d)
  = Some (match doneAt ctx with
          | Some c => Z.min c (now + d)
          | None => now + d
          end).
Proof.
  unfold doneAt, WithTimeout. cbn [ctxDeadline ctxCancel].
  destruct (ctxDeadline ctx) as [x |], (ctxCancel ctx) as [c |]; cbn [omin];
    f_equal; lia.
Qed.

Lemma doneAt_stage (ctx : Context) (now : Time) :
  doneAt (WithTimeout ctx now (2200 * Millisecond)) = Some (stageDone ctx now).
Proof. apply doneAt_WithTimeout. Qed.

(** The final [select] of a stage whose goroutines all return: it ends
    when the context of the stage is done at the latest. *)
Lemma awaitFirst_returns (ctx2 : Context) (c : Time) (rs : list (Run bool))
    (me : GoId) (now : Time) :
  doneAt ctx2 = Some c ->
  exists ok t,
    awaitFirst W ctx2 rs me now = Returns ok t (concat (map traceOf rs)) /\
    now <= t <= Z.max now c /\
    (ok = false -> t = Z.max now c).
Proof.
  intros Hc. unfold awaitFirst. rewrite Hc.
  pose proof (select2_cases (pick W me now) now (firstSignal rs) (Some c)) as H.
  destruct (select2 _ _ _ _) as [[[|] t] |].
  - destruct H as (x & _ & -> & Hy). specialize (Hy c eq_refl).
    exists true, (Z.max now x). split; [reflexivity |]. split; [lia | discriminate].
  - destruct H as (y & [= <-] & -> & _).
    exists false, (Z.max now c). split; [reflexivity |]. split; [lia | reflexivity].
  - destruct H as [_ H]. discriminate.
Qed.

Lemma inside_concat (me : GoId) (lo hi : Time) (rs : list (Run bool)) :
  Forall (fun r => inside me lo hi (traceOf r)) rs ->
  inside me lo hi (concat (map traceOf rs)).
Proof.
  induction 1 as [| r rs H _ IH]; [constructor |].
  cbn. apply inside_app. split; assumption.
Qed.

(** A stage is timely, whether its context is cancelled or not. *)
Lemma stage_timely (ctx : Context) (D : Time) (me : GoId) (now : Time)
    (rs : list (Run bool)) :
  ctxDeadline ctx = Some D ->
  Forall (fun r => inside me now (Z.max now (stageEnd ctx now)) (traceOf r)) rs ->
  exists ok t,
    awaitFirst W (WithTimeout ctx now (2200 * Millisecond)) rs me now
    = Returns ok t (concat (map traceOf rs)) /\
    now <= t <= Z.max now D /\
    inside me now (Z.max now D) (concat (map traceOf rs)).
Proof.
  intros HD Hrs.
  destruct (awaitFirst_returns (WithTimeout ctx now (2200 * Millisecond))
              (stageDone ctx now) rs me now (doneAt_stage ctx now))
    as (ok & t & E & Ht & _).
  pose proof (stageEnd_le ctx now D HD) as L1.
  assert (L2 : stageDone ctx now <= D).
  { unfold stageDone, doneAt. rewrite HD.
    destruct (ctxCancel ctx); cbn [omin]; lia. }
  exists ok, t. split; [exact E |]. split; [lia |].
  eapply inside_mono; [reflexivity | | | apply inside_concat; exact Hrs]; lia.
Qed.

Lemma raceEcho_timely (ctx : Context) (D : Time) (ips : list IP) :
  ctxDeadline ctx = Some D -> Timely D (raceEcho W ctx ips).
Proof.
  intros HD me now. unfold raceEcho. cbn zeta.
  match goal with
  | |- context [awaitFirst W _ ?rs me now] =>
      destruct (stage_timely ctx D me now rs HD) as (ok & t & E & Ht & Hi)
  end.
  - apply Forall_forall. intros r I.
    apply elem_of_lookup_imap in I as (i & ip & -> & _).
    destruct (raceEcho_go_spec W (WithTimeout ctx now (2200 * Millisecond))
                (stageEnd ctx now) ip (WithTimeout_deadline ctx now)) as [T _].
    destruct (T (me ++ [0; i]%nat) now) as (ok & t & tr & -> & _ & Hi).
    cbn [traceOf]. eapply inside_mono; [apply prefix_app_r; reflexivity | | | exact Hi]; lia.
  - eauto 6.
Qed.

Lemma tcpConnectRace_timely (ctx : Context) (D : Time) (ips : list IP)
    (family : string) (ports : list string) :
  ctxDeadline ctx = Some D -> Timely D (tcpConnectRace W ctx ips family ports).
Proof.
  intros HD me now. unfold tcpConnectRace. cbn zeta.
  match goal with
  | |- context [awaitFirst W _ ?rs me now] =>
      destruct (stage_timely ctx D me now rs HD) as (ok & t & E & Ht & Hi)
  end.
  - apply Forall_forall. intros r I. apply list_elem_of_In in I.
    apply in_concat in I as (l & Il & I).
    apply (proj2 (list_elem_of_In _ _)) in Il.
    apply (proj2 (list_elem_of_In _ _)) in I.
    apply elem_of_lookup_imap in Il as (i & ip & -> & _).
    apply elem_of_lookup_imap in I as (j & p & -> & _).
    match goal with
    | |- context [tcpConnectRace_go W ?c2 ?n ip p] =>
        destruct (tcpConnectRace_go_spec W c2 (stageEnd ctx now) n ip p
                    (WithTimeout_deadline ctx now)) as [T _]
    end.
    destruct (T (me ++ [1; i; j]%nat) now) as (ok & t & tr & -> & _ & Hi).
    cbn [traceOf]. eapply inside_mono; [apply prefix_app_r; reflexivity | | | exact Hi]; lia.
  - eauto 6.
Qed.

Lemma family_go_timely (ctx : Context) (D : Time) (ips : list IP)
    (family : string) (ports : list string) (input : string) :
  ctxDeadline ctx = Some D -> Timely D (family_go W ctx ips family ports input).
Proof.
  intros HD. unfold family_go.
  apply Timely_orElse; [apply Timely_orElse |].
  - apply raceEcho_timely; exact HD.
  - apply tcpConnectRace_timely; exact HD.
  - apply pingWithFamily_spec; exact HD.
Qed.

Lemma resolve_go_timely (ctx : Context) (D : Time) (network input : string) :
  ctxDeadline ctx = Some D -> Timely D (resolve_go W ctx network input).
Proof.
  intros HD me now.
  destruct (resolve_go_spec W ctx D network input me now HD)
    as (ips & t & tr & E & Ht & Hi & _).
  eauto 6.
Qed.

(** Goroutines started together and waited for: timely when each is. *)
Lemma goWait2_timely {A B} (D : Time) (i j : nat)
    (m1 : option (M A)) (m2 : option (M B)) :
  (forall m, m1 = Some m -> Timely D m) ->
  (forall m, m2 = Some m -> Timely D m) ->
  Timely D (goWait2 i m1 j m2).
Proof.
  intros H1 H2 me now. unfold goWait2.
  assert (R1 : exists (r : option A) t tr,
    option_map (fun m => m (me ++ [i]) now) m1 = option_map (fun a => Returns a t tr) r /\
    (m1 = None -> r = None /\ tr = []) /\
    now <= t <= Z.max now D /\ inside me now (Z.max now D) tr).
  { destruct m1 as [m |].
    - destruct (H1 m eq_refl (me ++ [i]) now) as (a & t & tr & E & Ht & Hi).
      exists (Some a), t, tr. cbn. rewrite E. split; [reflexivity |].
      split; [discriminate |]. split; [exact Ht |].
      eapply inside_mono; [apply prefix_app_r; reflexivity | | | exact Hi]; lia.
    - exists None, now, []. cbn. split; [reflexivity |]. split; [auto |].
      split; [lia | constructor]. }
  assert (R2 : exists (r : option B) t tr,
    option_map (fun m => m (me ++ [j]) now) m2 = option_map (fun a => Returns a t tr) r /\
    (m2 = None -> r = None /\ tr = []) /\
    now <= t <= Z.max now D /\ inside me now (Z.max now D) tr).
  { destruct m2 as [m |].
    - destruct (H2 m eq_refl (me ++ [j]) now) as (a & t & tr & E & Ht & Hi).
      exists (Some a), t, tr. cbn. rewrite E. split; [reflexivity |].
      split; [discriminate |]. split; [exact Ht |].
      eapply inside_mono; [apply prefix_app_r; reflexivity | | | exact Hi]; lia.
    - exists None, now, []. cbn. split; [reflexivity |]. split; [auto |].
      split; [lia | constructor]. }
  destruct R1 as (r1 & t1 & tr1 & E1 & N1 & Ht1 & Hi1).
  destruct R2 as (r2 & t2 & tr2 & E2 & N2 & Ht2 & Hi2).
  rewrite E1, E2.
  destruct r1 as [a |], r2 as [b |]; cbn [option_map from_option traceOf];
    eexists _, _, _; (split; [reflexivity |]);
    (split; [lia | apply inside_app; split; first [assumption | constructor]]).
Qed.

Lemma overall_deadline (parent : Context) (now : Time) :
  ctxDeadline (WithTimeout parent now (5 * Second))
  = Some (overallEnd (ctxDeadline parent) now).
Proof. unfold WithTimeout, overallEnd. cbn. destruct (ctxDeadline parent); reflexivity. Qed.

(** [detectAndPing] from the instant [now]: it is timely for the overall
    deadline it makes at [now]. *)
Lemma detectAndPing_timely (parent : Context) (input : string) (me : GoId)
    (now : Time) :
  let D := overallEnd (ctxDeadline parent) now in
  exists res t tr,
    detectAndPing W parent input me now = Returns res t tr /\
    now <= t <= Z.max now D /\ inside me now (Z.max now D) tr.
Proof.
  intros D. unfold detectAndPing. cbn zeta.
  set (ctx := WithTimeout parent now (5 * Second)).
  assert (HD : ctxDeadline ctx = Some D) by apply overall_deadline.
  destruct (ParseIP W input) as [parsed |].
  - match goal with
    | |- exists res t tr, ?m me now = _ /\ _ =>
        assert (T : Timely D m); [| exact (T me now)]
    end.
    apply Timely_bind; [| intros flags; apply Timely_ret].
    destruct (notNil (To4 parsed)); apply goWait2_timely;
      try discriminate; intros m [= <-]; apply literal_go_spec; exact HD.
  - match goal with
    | |- exists res t tr, ?m me now = _ /\ _ =>
        assert (T : Timely D m); [| exact (T me now)]
    end.
    apply Timely_bind.
    + apply goWait2_timely; intros m [= <-]; apply resolve_go_timely; exact HD.
    + intros found. apply Timely_bind; [| intros flags; apply Timely_ret].
      apply goWait2_timely; intros m; destruct (0 <? _); try discriminate;
        intros [= <-]; apply family_go_timely; exact HD.
Qed.

End Bounds.

(** ** Waits that end with the context *)

Section Promptness.

Variable W : World.

Lemma Prompt_ret {A} (c : Time) (a : A) : Prompt c (mret a).
Proof. intros me now a' t tr [= _ <- _]. lia. Qed.

Lemma Prompt_emit (c : Time) (e : Event) : Prompt c (emit e).
Proof. intros me now a' t tr [= _ <- _]. lia. Qed.

Lemma Prompt_bind {A B} (c : Time) (m : M A) (k : A -> M B) :
  Prompt c m -> (forall a, Prompt c (k a)) -> Prompt c (m ≫= k).
Proof.
  intros Hm Hk me now b t tr. rewrite bind_run.
  destruct (m me now) as [a t1 tr1 |] eqn:E; [| discriminate].
  specialize (Hm me now a t1 tr1 E).
  destruct (k a me t1) as [b' t' tr' |] eqn:E'; [| discriminate].
  specialize (Hk a me t1 b' t' tr' E'). cbn. intros [= _ <- _]. lia.
Qed.

Lemma Prompt_defer {A} (c : Time) (dfr : M unit) (body : M A) :
  Prompt c dfr -> Prompt c body -> Prompt c (defer dfr body).
Proof.
  intros Hd Hb. unfold defer. apply Prompt_bind; [exact Hb |].
  intros a. apply Prompt_bind; [exact Hd |]. intros _. apply Prompt_ret.
Qed.

Lemma Prompt_orElse (c : Time) (a b : M bool) :
  Prompt c a -> Prompt c b -> Prompt c (a ||| b).
Proof.
  intros Ha Hb. unfold orElse. apply Prompt_bind; [exact Ha |].
  intros [|]; [apply Prompt_ret | exact Hb].
Qed.

Lemma acquire_prompt (ctx : Context) (sem : Sem) (c : Time) :
  doneAt ctx = Some c -> Prompt c (acquire W ctx sem).
Proof.
  intros Hc me now a t tr.
  destruct (acquire_cases W ctx sem me now)
    as [(g & -> & _ & Hg) | [(d1 & E1 & ->) | (_ & ->)]].
  - intros [= _ <- _]. apply Hg. exact Hc.
  - intros [= _ <- _]. assert (d1 = c) by congruence. lia.
  - discriminate.
Qed.

Lemma LookupIP_prompt (ctx : Context) (network host : string) (c : Time) :
  doneAt ctx = Some c -> Prompt c (LookupIP W ctx network host).
Proof.
  intros Hc me now a t tr. unfold LookupIP.
  destruct (isDone ctx now) eqn:Dn; [intros [= _ <- _]; lia |].
  rewrite Hc.
  destruct (resolver W network host me now) as [[ips t'] |].
  - destruct (Z.ltb_spec (Z.max now t') c); intros [= _ <- _]; lia.
  - intros [= _ <- _]. lia.
Qed.

Lemma pingWithFamily_prompt (ctx : Context) (host family : string) (c : Time) :
  doneAt ctx = Some c -> Prompt c (pingWithFamily W ctx host family).
Proof.
  intros Hc. unfold pingWithFamily. cbn zeta.
  apply Prompt_bind; [| intros [|]; apply Prompt_ret].
  intros me now a t tr. unfold CommandContext_Run.
  destruct (isDone ctx now) eqn:Dn; [intros [= _ <- _]; lia |].
  rewrite Hc.
  destruct (child W _ _ me now) as [[ok t'] |].
  - destruct (Z.ltb_spec (Z.max now t') c); intros [= _ <- _]; lia.
  - intros [= _ <- _]. lia.
Qed.

Lemma stageDone_le (ctx : Context) (now c : Time) :
  doneAt ctx = Some c -> stageDone ctx now <= c.
Proof. unfold stageDone. intros ->. lia. Qed.

Lemma raceEcho_prompt (ctx : Context) (ips : list IP) (c : Time) :
  doneAt ctx = Some c -> Prompt c (raceEcho W ctx ips).
Proof.
  intros Hc me now a t tr. unfold raceEcho. cbn zeta.
  match goal with
  | |- context [awaitFirst W ?c2 ?rs me now] =>
      destruct (awaitFirst_returns W c2 (stageDone ctx now) rs me now
                  (doneAt_stage ctx now)) as (ok & t' & -> & Ht & _)
  end.
  pose proof (stageDone_le ctx now c Hc). intros [= _ <- _]. lia.
Qed.

Lemma tcpConnectRace_prompt (ctx : Context) (ips : list IP) (family : string)
    (ports : list string) (c : Time) :
  doneAt ctx = Some c -> Prompt c (tcpConnectRace W ctx ips family ports).
Proof.
  intros Hc me now a t tr. unfold tcpConnectRace. cbn zeta.
  match goal with
  | |- context [awaitFirst W ?c2 ?rs me now] =>
      destruct (awaitFirst_returns W c2 (stageDone ctx now) rs me now
                  (doneAt_stage ctx now)) as (ok & t' & -> & Ht & _)
  end.
  pose proof (stageDone_le ctx now c Hc). intros [= _ <- _]. lia.
Qed.

Lemma goWait2_prompt {A B} (c : Time) (i j : nat)
    (m1 : option (M A)) (m2 : option (M B)) :
  (forall m, m1 = Some m -> Prompt c m) ->
  (forall m, m2 = Some m -> Prompt c m) ->
  Prompt c (goWait2 i m1 j m2).
Proof.
  intros H1 H2 me now a t tr. unfold goWait2.
  destruct m1 as [m1 |], m2 as [m2 |]; cbn [option_map].
  - specialize (H1 m1 eq_refl (me ++ [i]) now).
    specialize (H2 m2 eq_refl (me ++ [j]) now).
    destruct (m1 _ now) as [a1 t1 tr1 |]; [| discriminate].
    destruct (m2 _ now) as [a2 t2 tr2 |]; [| discriminate].
    specialize (H1 _ _ _ eq_refl). specialize (H2 _ _ _ eq_refl).
    intros [= _ <- _]. lia.
  - specialize (H1 m1 eq_refl (me ++ [i]) now).
    destruct (m1 _ now) as [a1 t1 tr1 |]; [| discriminate].
    specialize (H1 _ _ _ eq_refl). intros [= _ <- _]. lia.
  - specialize (H2 m2 eq_refl (me ++ [j]) now).
    destruct (m2 _ now) as [a2 t2 tr2 |]; [| discriminate].
    specialize (H2 _ _ _ eq_refl). intros [= _ <- _]. lia.
  - intros [= _ <- _]. lia.
Qed.

Lemma resolve_go_prompt (ctx : Context) (network input : string) (c : Time) :
  doneAt ctx = Some c -> Prompt c (resolve_go W ctx network input).
Proof.
  intros Hc. unfold resolve_go.
  apply Prompt_bind; [apply acquire_prompt; exact Hc |].
  intros [|]; [| apply Prompt_ret].
  apply Prompt_defer; [apply Prompt_emit |].
  apply Prompt_bind; [apply LookupIP_prompt; exact Hc |].
  intros ips. destruct (0 <? _); apply Prompt_ret.
Qed.

Lemma family_go_prompt (ctx : Context) (ips : list IP) (family : string)
    (ports : list string) (input : string) (c : Time) :
  doneAt ctx = Some c -> Prompt c (family_go W ctx ips family ports input).
Proof.
  intros Hc. unfold family_go.
  apply Prompt_orElse; [apply Prompt_orElse |].
  - apply raceEcho_prompt; exact Hc.
  - apply tcpConnectRace_prompt; exact Hc.
  - apply pingWithFamily_prompt; exact Hc.
Qed.

End Promptness.

(** X8. A request for a domain ends as soon as the context of its caller
    is done, by deadline or by cancellation: every wait on that path (for
    a slot, for the resolver, for the first success of a stage, for the
    ping process) is a wait against the context. *)
Theorem domain_request_ends_with_its_context :
  forall (W : World) (parent : Context) (input : string) (me : GoId) (now c : Time)
         (res : pingResult) (t : Time) (tr : Trace),
    ParseIP W input = None ->
    doneAt parent = Some c ->
    detectAndPing W parent input me now = Returns res t tr ->
    t <= Z.max now c.
Proof.
  intros W parent input me now c res t tr P Hc.
  unfold detectAndPing. cbn zeta. rewrite P.
  set (ctx := WithTimeout parent now (5 * Second)).
  assert (Hc' : doneAt ctx = Some (Z.min c (now + 5 * Second))).
  { unfold ctx. rewrite doneAt_WithTimeout, Hc. reflexivity. }
  match goal with
  | |- ?m me now = _ -> _ =>
      assert (Pr : Prompt (Z.min c (now + 5 * Second)) m)
  end.
  { apply Prompt_bind.
    - apply goWait2_prompt; intros m [= <-]; apply resolve_go_prompt; exact Hc'.
    - intros found. apply Prompt_bind; [| intros flags; apply Prompt_ret].
      apply goWait2_prompt; intros m; destruct (0 <? _); try discriminate;
        intros [= <-]; apply family_go_prompt; exact Hc'. }
  intros E. specialize (Pr me now res t tr E). lia.
Qed.

(** ** The result of a stage and the instant of its return *)

Section StageResults.

Variable W : World.

(** [doICMP] under a deadline: nothing but its last event, the verdict,
    can report a success. *)
Lemma doICMP_shape (ctx : Context) (d : Time) (ip : IP) (me : GoId) (now : Time) :
  ctxDeadline ctx = Some d ->
  exists ok t tr0,
    doICMP W ctx ip me now = Returns ok t (tr0 ++ [entry me t (EvDoICMP ip ok)]) /\
    now <= t /\
    Forall (fun e => success (what e) = false) tr0.
Proof.
  intros Hd. rewrite doICMP_run. cbn zeta.
  destruct (listenOK W _ _ me now).
  2:{ eexists _, _, [_]. split; [reflexivity |]. split; [lia | repeat constructor]. }
  destruct (Marshal W _) as [b |].
  2:{ eexists _, _, [_; _]. split; [reflexivity |]. split; [lia | repeat constructor]. }
  destruct (negb _ && _).
  2:{ eexists _, _, [_; _; _]. split; [reflexivity |]. split; [lia | repeat constructor]. }
  rewrite Hd.
  destruct (readLoop_spec W ctx d ip (inbound W me now) me now)
    as (ok & t & tr & -> & Ht & _ & _ & Hs).
  exists ok, t, (entry me now (EvListenPacket (socketFor ip).1 (socketFor ip).2 true)
                 :: entry me now (EvWriteTo ip true) :: tr ++ [entry me t EvSockClose]).
  split; [cbn; rewrite <- app_assoc; reflexivity |]. split; [lia |].
  constructor; [reflexivity |]. constructor; [reflexivity |].
  apply Forall_app. split; [exact Hs | repeat constructor].
Qed.

Lemma raceEcho_go_worker (ctx2 : Context) (d : Time) (ip : IP) (me : GoId)
    (now : Time) :
  ctxDeadline ctx2 = Some d -> Worker now (raceEcho_go W ctx2 ip me now).
Proof.
  intros Hd. unfold raceEcho_go. rewrite bind_run.
  destruct (doneAt_deadline ctx2 d Hd) as (d0 & E0 & _).
  destruct (acquire_cases W ctx2 semICMP me now)
    as [(g & -> & Hg & _) | [(d1 & _ & ->) | (E1 & _)]]; [| | congruence].
  - unfold defer. rewrite !bind_run.
    destruct (doICMP_shape ctx2 d ip me g Hd) as (ok & t & tr0 & -> & Ht & Hs).
    cbn. eexists _, _, _. split; [reflexivity |]. split; [lia |]. split.
    + rewrite !Exists_app, !Exists_cons, !Exists_nil. cbn.
      split.
      * intros ->. right. left. right. left. reflexivity.
      * intros [[X | []] | [[X | [X | []]] | [[X | []] | []]]]; try discriminate.
        -- exfalso. eapply not_Exists_silent; eassumption.
        -- destruct ok; [reflexivity | discriminate].
    + rewrite !Forall_app. split; [| split; [split |]].
      * constructor; [discriminate | constructor].
      * eapply Forall_impl; [exact Hs |]. cbn beta. congruence.
      * constructor; [reflexivity | constructor].
      * split; constructor; [discriminate | constructor].
  - cbn. eexists _, _, _. split; [reflexivity |]. split; [lia |].
    split; [| constructor]. split; [discriminate | intros X; inversion X].
Qed.

Lemma tcpConnectRace_go_worker (ctx2 : Context) (d : Time) (dialNet : string)
    (ip : IP) (p : string) (me : GoId) (now : Time) :
  ctxDeadline ctx2 = Some d ->
  Worker now (tcpConnectRace_go W ctx2 dialNet ip p me now).
Proof.
  intros Hd. unfold tcpConnectRace_go. rewrite bind_run.
  destruct (doneAt_deadline ctx2 d Hd) as (d0 & E0 & _).
  destruct (acquire_cases W ctx2 semTCP me now)
    as [(g & -> & Hg & _) | [(d1 & _ & ->) | (E1 & _)]]; [| | congruence].
  - unfold defer. rewrite !bind_run.
    destruct (DialContext_run W (1200 * Millisecond) ctx2 dialNet ip p me g)
      as (err & t & E & _ & _).
    assert (g <= t).
    { destruct (DialContext_timely W (1200 * Millisecond) ctx2 d dialNet ip p
                  ltac:(unfold Millisecond; lia) Hd me g) as (? & ? & ? & E' & Ht & _).
      rewrite E in E'. injection E' as <- <- <-. lia. }
    rewrite E. destruct err as [er |]; cbn.
    + eexists _, _, _. split; [reflexivity |]. split; [lia |]. split.
      * split; [discriminate |]. intros X. repeat (inversion X as [? ? S | ? ? X']; subst;
          [discriminate | clear X; rename X' into X]). inversion X.
      * repeat constructor; discriminate.
    + eexists _, _, _. split; [reflexivity |]. split; [lia |]. split.
      * split; [| reflexivity]. intros _. right. left. reflexivity.
      * repeat constructor; cbn; congruence.
  - cbn. eexists _, _, _. split; [reflexivity |]. split; [lia |].
    split; [| constructor]. split; [discriminate | intros X; inversion X].
Qed.

Lemma firstSignal_least (rs : list (Run bool)) (x : Time) :
  firstSignal rs = Some x ->
  Exists (fun r => signalOf r = Some x) rs /\
  Forall (fun r => forall y, signalOf r = Some y -> x <= y) rs.
Proof.
  revert x. induction rs as [| r rs IH]; intros x; [discriminate |].
  cbn [firstSignal foldr]. fold (firstSignal rs).
  destruct (signalOf r) as [s |] eqn:S, (firstSignal rs) as [s' |] eqn:F;
    cbn [omin]; intros [= <-].
  - destruct (IH s' eq_refl) as [X A].
    destruct (Z.min_spec s s') as [[L ->] | [L ->]].
    + split; [left; exact S |]. constructor; [intros y; rewrite S; intros [= <-]; lia |].
      eapply Forall_impl; [exact A |]. cbn beta. intros r' H y Hy. specialize (H y Hy). lia.
    + split; [right; exact X |]. constructor; [intros y; rewrite S; intros [= <-]; lia |].
      exact A.
  - split; [left; exact S |].
    constructor; [intros y; rewrite S; intros [= <-]; lia |].
    clear IH. induction rs as [| r' rs IH']; [constructor |].
    cbn [firstSignal foldr] in F. fold (firstSignal rs) in F.
    destruct (signalOf r') eqn:S'; [destruct (firstSignal rs); discriminate |].
    cbn [omin] in F. constructor; [intros y; rewrite S'; discriminate | apply IH'; exact F].
  - destruct (IH s' eq_refl) as [X A]. split; [right; exact X |].
    constructor; [intros y; rewrite S; discriminate | exact A].
Qed.

(** The final [select] of a stage over its goroutines: true comes at the
    instant of the first success, and no success is earlier. *)
Lemma awaitFirst_true (ctx2 : Context) (rs : list (Run bool)) (me : GoId)
    (now t : Time) (tr : Trace) :
  Forall (Worker now) rs ->
  awaitFirst W ctx2 rs me now = Returns true t tr ->
  Exists (fun e => success (what e) = true /\ at_ e = t) tr /\
  Forall (fun e => success (what e) = true -> t <= at_ e) tr.
Proof.
  intros Hrs. unfold awaitFirst.
  pose proof (select2_cases (pick W me now) now (firstSignal rs) (doneAt ctx2)) as H.
  destruct (select2 _ _ _ _) as [[[|] t'] |]; [| discriminate ..].
  intros [= <- <-]. destruct H as (x & F & -> & _).
  destruct (firstSignal_least rs x F) as [X A].
  assert (Hx : now <= x).
  { rewrite Forall_forall in Hrs. apply Exists_exists in X as (r & I & S).
    destruct (Hrs r I) as (ok & t & tr & -> & Ht & _). destruct ok; [| discriminate].
    injection S as <-. exact Ht. }
  rewrite (Z.max_r now x) by exact Hx. split.
  - clear A F. induction Hrs as [| r rs Hr _ IH]; [inversion X |].
    cbn. apply Exists_app. inversion X as [? ? S | ? ? X']; subst.
    + left. destruct Hr as (ok & t & tr & -> & _ & Hiff & Hat).
      destruct ok; [| discriminate]. injection S as ->.
      apply proj1 in Hiff. specialize (Hiff eq_refl).
      apply Exists_exists in Hiff as (e & I & Se). apply Exists_exists.
      exists e. split; [exact I |]. split; [exact Se |].
      rewrite Forall_forall in Hat. apply Hat; assumption.
    + right. apply IH. exact X'.
  - clear X F. induction Hrs as [| r rs Hr _ IH]; [constructor |].
    inversion A as [| ? ? Ar A']; subst. cbn. apply Forall_app. split; [| apply IH; exact A'].
    destruct Hr as (ok & t & tr & -> & _ & Hiff & Hat). cbn [traceOf].
    rewrite Forall_forall in Hat. apply Forall_forall. intros e I Se.
    rewrite (Hat e I Se). apply Ar.
    assert (ok = true) as ->; [| reflexivity].
    apply Hiff. apply Exists_exists. eauto.
Qed.

Lemma raceEcho_workers (ctx : Context) (ips : list IP) (me : GoId) (now : Time) :
  Forall (Worker now)
    (imap (fun i ip => raceEcho_go W (WithTimeout ctx now (2200 * Millisecond)) ip
                         (me ++ [0; i]%nat) now) ips).
Proof.
  apply Forall_forall. intros r I.
  apply elem_of_lookup_imap in I as (i & ip & -> & _).
  eapply raceEcho_go_worker. apply WithTimeout_deadline.
Qed.

Lemma tcpConnectRace_workers (ctx : Context) (dialNet : string) (ips : list IP)
    (ports : list string) (me : GoId) (now : Time) :
  Forall (Worker now)
    (concat
       (imap (fun i ip =>
          imap (fun j p =>
            tcpConnectRace_go W (WithTimeout ctx now (2200 * Millisecond)) dialNet ip p
              (me ++ [1; i; j]%nat) now) ports) ips)).
Proof.
  apply Forall_forall. intros r I. apply list_elem_of_In in I.
  apply in_concat in I as (l & Il & I).
  apply (proj2 (list_elem_of_In _ _)) in Il.
  apply (proj2 (list_elem_of_In _ _)) in I.
  apply elem_of_lookup_imap in Il as (i & ip & -> & _).
  apply elem_of_lookup_imap in I as (j & p & -> & _).
  eapply tcpConnectRace_go_worker. apply WithTimeout_deadline.
Qed.

End StageResults.

(** X16. [raceEcho] and [tcpConnectRace] return true at the instant of the
    first success among the goroutines they started: an event of the
    trace reports a success at the instant of the return, and no event
    reports one earlier. *)
Theorem stage_returns_at_first_success :
  forall (W : World) (ctx : Context) (ips : list IP) (family : string)
         (ports : list string) (me : GoId) (now : Time),
    (forall t tr,
       raceEcho W ctx ips me now = Returns true t tr ->
       Exists (fun e => success (what e) = true /\ at_ e = t) tr /\
       Forall (fun e => success (what e) = true -> t <= at_ e) tr) /\
    (forall t tr,
       tcpConnectRace W ctx ips family ports me now = Returns true t tr ->
       Exists (fun e => success (what e) = true /\ at_ e = t) tr /\
       Forall (fun e => success (what e) = true -> t <= at_ e) tr).
Proof.
  intros W ctx ips family ports me now. split; intros t tr.
  - unfold raceEcho. cbn zeta. apply awaitFirst_true. apply raceEcho_workers.
  - unfold tcpConnectRace. cbn zeta. apply awaitFirst_true. apply tcpConnectRace_workers.
Qed.

(** X15. [raceEcho] and [tcpConnectRace] return false only at the instant
    at which their own context is done (2.2 s after they started, or when
    the context they were given is done), also when every goroutine has
    failed long before, and also when there is nothing to try: with no
    address, or no port, they start no goroutine and return false at that
    same instant. *)
Theorem failed_stage_lasts_until_its_context_is_done :
  forall (W : World) (ctx : Context) (ips : list IP) (family : string)
         (ports : list string) (me : GoId) (now : Time),
    (forall t tr,
       raceEcho W ctx ips me now = Returns false t tr ->
       t = Z.max now (stageDone ctx now)) /\
    (forall t tr,
       tcpConnectRace W ctx ips family ports me now = Returns false t tr ->
       t = Z.max now (stageDone ctx now)) /\
    raceEcho W ctx [] me now = Returns false (Z.max now (stageDone ctx now)) [] /\
    tcpConnectRace W ctx [] family ports me now
    = Returns false (Z.max now (stageDone ctx now)) [] /\
    tcpConnectRace W ctx ips family [] me now
    = Returns false (Z.max now (stageDone ctx now)) [].
Proof.
  intros W ctx ips family ports me now.
  assert (A : forall rs ok t tr,
    awaitFirst W (WithTimeout ctx now (2200 * Millisecond)) rs me now = Returns ok t tr ->
    tr = concat (map traceOf rs) /\ (ok = false -> t = Z.max now (stageDone ctx now))).
  { intros rs ok t tr E.
    destruct (awaitFirst_returns W _ (stageDone ctx now) rs me now (doneAt_stage ctx now))
      as (ok' & t' & E' & _ & F).
    rewrite E in E'. injection E' as <- <- ->. auto. }
  assert (B : forall rs,
    firstSignal rs = None ->
    awaitFirst W (WithTimeout ctx now (2200 * Millisecond)) rs me now
    = Returns false (Z.max now (stageDone ctx now)) (concat (map traceOf rs))).
  { intros rs F. unfold awaitFirst. rewrite F, doneAt_stage. reflexivity. }
  split; [| split; [| split; [| split]]].
  - intros t tr E. apply (A _ _ _ _ E). reflexivity.
  - intros t tr E. apply (A _ _ _ _ E). reflexivity.
  - unfold raceEcho. cbn zeta. apply (B []). reflexivity.
  - unfold tcpConnectRace. cbn zeta. apply (B []). reflexivity.
  - unfold tcpConnectRace. cbn zeta.
    match goal with |- awaitFirst _ _ ?rs _ _ = _ => assert (R : rs = []) end.
    { match goal with |- concat (imap ?f ips) = [] =>
        assert (N : forall i ip, f i ip = []) by reflexivity; revert N; generalize f end.
      induction ips as [| ip ips IH]; intros f N; [reflexivity |].
      cbn. rewrite N. apply IH. intros i ip'. apply N. }
    rewrite R. apply (B []). reflexivity.
Qed.

(** ** Requests for a domain, goroutine by goroutine *)

Section Requests.

Variable W : World.

(** A resolving goroutine, event by event: without a slot it does
    nothing; with a slot it makes one lookup and returns what the lookup
    gave. *)
Lemma resolve_go_run (ctx : Context) (D : Time) (network input : string)
    (me : GoId) (now : Time) :
  ctxDeadline ctx = Some D ->
  (exists t, resolve_go W ctx network input me now = Returns [] t [] /\ now <= t) \/
  (exists g ips t,
     resolve_go W ctx network input me now
     = Returns ips t [entry me g (EvAcquire semDNS);
                      entry me t (EvLookupIP network input ips);
                      entry me t (EvRelease semDNS)] /\
     now <= g <= t).
Proof.
  intros HD. unfold resolve_go. rewrite bind_run.
  destruct (doneAt_deadline ctx D HD) as (d0 & E0 & L0).
  destruct (acquire_cases W ctx semDNS me now)
    as [(g & -> & Hn & Hg) | [(d1 & E1 & ->) | (E1 & _)]]; [| | congruence].
  - right. unfold defer. rewrite !bind_run.
    destruct (LookupIP_run W ctx D network input me g HD) as (ips & t & -> & Ht).
    exists g, ips, t. split; [| lia].
    destruct ips; reflexivity.
  - left. exists (Z.max now d1). split; [reflexivity | lia].
Qed.

(** What [detectAndPing] does with a domain: the two resolving goroutines
    from the start, then, from their end on, one goroutine for each family
    that has addresses. *)
Lemma domain_request_run (parent : Context) (input : string) (me : GoId)
    (now : Time) :
  ParseIP W input = None ->
  let ctx := WithTimeout parent now (5 * Second) in
  exists v4 t1 tr1 v6 t2 tr2,
    resolve_go W ctx "ip4" input (me ++ [1%nat]) now = Returns v4 t1 tr1 /\
    resolve_go W ctx "ip6" input (me ++ [2%nat]) now = Returns v6 t2 tr2 /\
    now <= t1 /\ now <= t2 /\
    let t0 := Z.max t1 t2 in
    exists f4 t4 tr4 f6 t6 tr6,
      (if 0 <? Z.of_nat (List.length v4)
       then family_go W ctx v4 "4" ["443"; "80"] input (me ++ [4%nat]) t0
            = Returns f4 t4 tr4 /\ t0 <= t4
       else f4 = false /\ t4 = t0 /\ tr4 = []) /\
      (if 0 <? Z.of_nat (List.length v6)
       then family_go W ctx v6 "6" ["443"; "80"] input (me ++ [6%nat]) t0
            = Returns f6 t6 tr6 /\ t0 <= t6
       else f6 = false /\ t6 = t0 /\ tr6 = []) /\
      detectAndPing W parent input me now
      = Returns {| IPv4 := okno f4; IPv6 := okno f6 |} (Z.max t4 t6)
          (tr1 ++ tr2 ++ tr4 ++ tr6).
Proof.
  intros P ctx.
  assert (HD : ctxDeadline ctx = Some (overallEnd (ctxDeadline parent) now))
    by apply overall_deadline.
  destruct (resolve_go_timely W ctx _ "ip4" input HD (me ++ [1%nat]) now)
    as (v4 & t1 & tr1 & E1 & Ht1 & _).
  destruct (resolve_go_timely W ctx _ "ip6" input HD (me ++ [2%nat]) now)
    as (v6 & t2 & tr2 & E2 & Ht2 & _).
  exists v4, t1, tr1, v6, t2, tr2.
  split; [exact E1 |]. split; [exact E2 |]. split; [lia |]. split; [lia |].
  cbn zeta. unfold detectAndPing. cbn zeta. rewrite P. fold ctx.
  rewrite bind_run, (goWait2_both 1 2 _ _ me now v4 v6 t1 t2 tr1 tr2 E1 E2).
  cbn [after fst snd default from_option]. unfold id.
  rewrite (Z.max_r now (Z.max t1 t2)) by lia.
  rewrite bind_run.
  destruct (0 <? Z.of_nat (List.length v4)) eqn:L4;
    destruct (0 <? Z.of_nat (List.length v6)) eqn:L6.
  - destruct (family_go_timely W ctx _ v4 "4" ["443"; "80"] input HD (me ++ [4%nat])
                (Z.max t1 t2)) as (f4 & t4 & tr4 & E4 & Ht4 & _).
    destruct (family_go_timely W ctx _ v6 "6" ["443"; "80"] input HD (me ++ [6%nat])
                (Z.max t1 t2)) as (f6 & t6 & tr6 & E6 & Ht6 & _).
    exists f4, t4, tr4, f6, t6, tr6.
    split; [split; [exact E4 | lia] |]. split; [split; [exact E6 | lia] |].
    rewrite (goWait2_both 4 6 _ _ me _ f4 f6 t4 t6 tr4 tr6 E4 E6).
    cbn [after mret M_ret fst snd]. rewrite app_nil_r, <- !app_assoc.
    rewrite (Z.max_r (Z.max t1 t2) (Z.max t4 t6)) by lia.
    destruct f4, f6; reflexivity.
  - destruct (family_go_timely W ctx _ v4 "4" ["443"; "80"] input HD (me ++ [4%nat])
                (Z.max t1 t2)) as (f4 & t4 & tr4 & E4 & Ht4 & _).
    exists f4, t4, tr4, false, (Z.max t1 t2), [].
    split; [split; [exact E4 | lia] |]. split; [auto |].
    unfold goWait2. cbn [option_map from_option]. rewrite E4.
    cbn [traceOf after mret M_ret fst snd]. rewrite !app_nil_r, <- !app_assoc.
    rewrite (Z.max_r (Z.max t1 t2) t4), (Z.max_l t4 (Z.max t1 t2)) by lia.
    destruct f4; reflexivity.
  - destruct (family_go_timely W ctx _ v6 "6" ["443"; "80"] input HD (me ++ [6%nat])
                (Z.max t1 t2)) as (f6 & t6 & tr6 & E6 & Ht6 & _).
    exists false, (Z.max t1 t2), [], f6, t6, tr6.
    split; [auto |]. split; [split; [exact E6 | lia] |].
    unfold goWait2. cbn [option_map from_option]. rewrite E6.
    cbn [traceOf after mret M_ret fst snd app]. rewrite !app_nil_r, <- !app_assoc.
    rewrite (Z.max_r (Z.max t1 t2) t6) by lia.
    destruct f6; reflexivity.
  - exists false, (Z.max t1 t2), [], false, (Z.max t1 t2), [].
    split; [auto |]. split; [auto |].
    unfold goWait2. cbn. rewrite !app_nil_r, Z.max_id. reflexivity.
Qed.

End Requests.

(** ** The stages of a family in time *)

Section Escalation.

Variable W : World.

Lemma raceEcho_false_at (ctx : Context) (ips : list IP) (me : GoId) (now t : Time)
    (tr : Trace) :
  raceEcho W ctx ips me now = Returns false t tr -> t = Z.max now (stageDone ctx now).
Proof.
  unfold raceEcho. cbn zeta. intros E.
  match type of E with
  | awaitFirst W ?c2 ?rs me now = _ =>
      destruct (awaitFirst_returns W c2 (stageDone ctx now) rs me now
                  (doneAt_stage ctx now)) as (ok & t' & E' & _ & F)
  end.
  rewrite E in E'. injection E' as <- <- _. apply F. reflexivity.
Qed.

Lemma tcpConnectRace_false_at (ctx : Context) (ips : list IP) (family : string)
    (ports : list string) (me : GoId) (now t : Time) (tr : Trace) :
  tcpConnectRace W ctx ips family ports me now = Returns false t tr ->
  t = Z.max now (stageDone ctx now).
Proof.
  unfold tcpConnectRace. cbn zeta. intros E.
  match type of E with
  | awaitFirst W ?c2 ?rs me now = _ =>
      destruct (awaitFirst_returns W c2 (stageDone ctx now) rs me now
                  (doneAt_stage ctx now)) as (ok & t' & E' & _ & F)
  end.
  rewrite E in E'. injection E' as <- <- _. apply F. reflexivity.
Qed.

(** The goroutine of a family, stage by stage, under any context with a
    deadline: nothing of the TCP stage happens before the ICMP stage has
    lasted until its context was done, nothing of the ping before the TCP
    stage has done the same, and a false comes after both. *)
Lemma family_go_run (ctx : Context) (D : Time) (ips : list IP) (family : string)
    (ports : list string) (input : string) (me : GoId) (now : Time) :
  ctxDeadline ctx = Some D ->
  let s1 := Z.max now (stageDone ctx now) in
  let s2 := Z.max s1 (stageDone ctx s1) in
  exists ok t tr,
    family_go W ctx ips family ports input me now = Returns ok t tr /\
    Forall (fun e =>
              match kind (what e) with
              | KGate semICMP | KICMP => True
              | KGate semTCP | KTCP => s1 <= at_ e
              | KPing => s2 <= at_ e
              | _ => False
              end) tr /\
    (ok = false -> s2 <= t).
Proof.
  intros HD s1 s2. unfold family_go, orElse. rewrite !bind_run.
  destruct (raceEcho_timely W ctx D ips HD me now) as (ok1 & t1 & tr1 & E1 & _).
  pose proof (raceEcho_kind W ctx ips me now) as K1. rewrite E1 in K1 |- *.
  cbn [traceOf] in K1.
  assert (G1 : Forall (fun e =>
              match kind (what e) with
              | KGate semICMP | KICMP => True
              | KGate semTCP | KTCP => s1 <= at_ e
              | KPing => s2 <= at_ e
              | _ => False
              end) tr1).
  { eapply Forall_impl; [exact K1 |]. cbn beta. intros e [-> | ->]; exact I. }
  destruct ok1.
  { cbn. rewrite !app_nil_r. eexists _, _, _. split; [reflexivity |].
    split; [exact G1 | discriminate]. }
  apply raceEcho_false_at in E1 as ->. fold s1. cbn [after].
  destruct (tcpConnectRace_timely W ctx D ips family ports HD me s1)
    as (ok2 & t2 & tr2 & E2 & _ & I2).
  pose proof (tcpConnectRace_kind W ctx ips family ports me s1) as K2.
  rewrite E2 in K2 |- *. cbn [traceOf] in K2.
  assert (G2 : Forall (fun e =>
              match kind (what e) with
              | KGate semICMP | KICMP => True
              | KGate semTCP | KTCP => s1 <= at_ e
              | KPing => s2 <= at_ e
              | _ => False
              end) tr2).
  { unfold inside in I2. rewrite Forall_forall in K2, I2. apply Forall_forall.
    intros e Ie. destruct (I2 e Ie) as [_ [L _]].
    destruct (K2 e Ie) as [-> | ->]; exact L. }
  destruct ok2.
  { cbn. rewrite !app_nil_r. eexists _, _, _. split; [reflexivity |].
    split; [apply Forall_app_2; assumption | discriminate]. }
  apply tcpConnectRace_false_at in E2 as ->. fold s2. cbn [after].
  destruct (pingWithFamily_spec W ctx D input family HD) as [T3 _].
  destruct (T3 me s2) as (ok3 & t3 & tr3 & E3 & Ht3 & I3).
  pose proof (pingWithFamily_kind W ctx input family me s2) as K3.
  rewrite E3 in K3 |- *. cbn [traceOf] in K3.
  cbn [after]. eexists _, _, _. split; [reflexivity |]. split; [| intros _; lia].
  apply Forall_app_2; [apply Forall_app_2; assumption |].
  unfold inside in I3. rewrite Forall_forall in K3, I3. apply Forall_forall.
  intros e Ie. destruct (I3 e Ie) as [_ [L _]]. rewrite (K3 e Ie). exact L.
Qed.

End Escalation.

Section Latency.

Variable W : World.

Lemma doneAt_overall (parent : Context) (now : Time) :
  doneAt (WithTimeout parent now (5 * Second)) = Some (overallDone parent now).
Proof. apply doneAt_WithTimeout. Qed.

Lemma stageDone_overall (parent : Context) (now x : Time) :
  stageDone (WithTimeout parent now (5 * Second)) x
  = Z.min (overallDone parent now) (x + 2200 * Millisecond).
Proof. unfold stageDone. rewrite doneAt_overall. reflexivity. Qed.

(** The events of a resolving goroutine. *)
Lemma resolve_go_events (ctx : Context) (D : Time) (network input : string)
    (me : GoId) (now : Time) (v : list IP) (t : Time) (tr : Trace) :
  ctxDeadline ctx = Some D ->
  resolve_go W ctx network input me now = Returns v t tr ->
  Forall (fun e => kind (what e) = KGate semDNS \/
                   what e = EvLookupIP network input v) tr.
Proof.
  intros HD E.
  destruct (resolve_go_run W ctx D network input me now HD)
    as [(t' & E' & _) | (g & ips & t' & E' & _)];
    rewrite E in E'; injection E' as -> -> ->.
  - constructor.
  - repeat (constructor; [cbn; auto |]). constructor.
Qed.

End Latency.

(** X12. In a request for a domain, no TCP connection is attempted
    earlier than 2.2 s, and no ping run earlier than 4.4 s, after the
    call, unless the overall context is done before: a stage that fails
    lasts its whole 2.2 s.  So the "no" of a family for which the lookup
    brought addresses is never given before 4.4 s have passed or the
    context is done, and a ping can only report a success in what then
    is left of the 5 s. *)
Theorem domain_fallbacks_wait_for_failed_stages :
  forall (W : World) (parent : Context) (input : string) (me : GoId) (now : Time)
         (res : pingResult) (t : Time) (tr : Trace),
    ParseIP W input = None ->
    detectAndPing W parent input me now = Returns res t tr ->
    let D := overallDone parent now in
    let answered (network : string) (e : Entry) :=
      exists ips, what e = EvLookupIP network input ips /\ ips <> [] in
    Forall (fun e =>
              (kind (what e) = KTCP -> Z.min D (now + 2200 * Millisecond) <= at_ e) /\
              (kind (what e) = KPing -> Z.min D (now + 4400 * Millisecond) <= at_ e))
           tr /\
    (IPv4 res = "no" -> Exists (answered "ip4") tr ->
     Z.min D (now + 4400 * Millisecond) <= t) /\
    (IPv6 res = "no" -> Exists (answered "ip6") tr ->
     Z.min D (now + 4400 * Millisecond) <= t).
Proof.
  intros W parent input me now res t tr P E D answered.
  destruct (domain_request_run W parent input me now P)
    as (v4 & t1 & tr1 & v6 & t2 & tr2 & E1 & E2 & L1 & L2 & R).
  cbn zeta in R. destruct R as (f4 & t4 & tr4 & f6 & t6 & tr6 & R4 & R6 & E').
  rewrite E in E'. injection E' as -> -> ->.
  set (ctx := WithTimeout parent now (5 * Second)) in *.
  assert (HD : ctxDeadline ctx = Some (overallEnd (ctxDeadline parent) now))
    by apply overall_deadline.
  set (t0 := Z.max t1 t2) in *.
  set (s1 := Z.max t0 (stageDone ctx t0)).
  set (s2 := Z.max s1 (stageDone ctx s1)).
  assert (L0 : now <= t0) by (unfold t0; lia).
  assert (B1 : Z.min D (now + 2200 * Millisecond) <= s1).
  { unfold s1, ctx. rewrite stageDone_overall. fold D. unfold Millisecond.
    clearbody t0 D. lia. }
  assert (B2 : Z.min D (now + 4400 * Millisecond) <= s2).
  { unfold s2, s1, ctx. rewrite !stageDone_overall. fold D. unfold Millisecond.
    clearbody t0 D. lia. }
  pose proof (resolve_go_events W ctx _ "ip4" input _ now v4 t1 tr1 HD E1) as K1.
  pose proof (resolve_go_events W ctx _ "ip6" input _ now v6 t2 tr2 HD E2) as K2.
  assert (F : forall ips family f tf trf who0,
    (if 0 <? Z.of_nat (List.length ips)
     then family_go W ctx ips family ["443"; "80"] input who0 t0 = Returns f tf trf /\
          t0 <= tf
     else f = false /\ tf = t0 /\ trf = []) ->
    Forall (fun e =>
              match kind (what e) with
              | KGate semICMP | KICMP => True
              | KGate semTCP | KTCP => s1 <= at_ e
              | KPing => s2 <= at_ e
              | _ => False
              end) trf /\
    (ips <> [] -> f = false -> s2 <= tf)).
  { intros ips family f tf trf who0 H.
    destruct (0 <? Z.of_nat (List.length ips)) eqn:L.
    - destruct H as [Ef _].
      destruct (family_go_run W ctx _ ips family ["443"; "80"] input who0 t0 HD)
        as (ok & t' & tr' & E' & G & Hf).
      rewrite Ef in E'. injection E' as <- <- <-. split; [exact G |]. intros _. exact Hf.
    - destruct H as (-> & -> & ->). split; [constructor |].
      intros N. destruct ips; [congruence |].
      apply Z.ltb_ge in L. cbn [List.length] in L. lia. }
  destruct (F v4 "4" f4 t4 tr4 _ R4) as [G4 H4].
  destruct (F v6 "6" f6 t6 tr6 _ R6) as [G6 H6].
  assert (T4 : t0 <= t4).
  { revert R4. destruct (0 <? Z.of_nat (List.length v4));
      [intros [_ H]; exact H | intros (_ & -> & _); lia]. }
  assert (T6 : t0 <= t6).
  { revert R6. destruct (0 <? Z.of_nat (List.length v6));
      [intros [_ H]; exact H | intros (_ & -> & _); lia]. }
  assert (NR : forall trf network,
    Forall (fun e =>
              match kind (what e) with
              | KGate semICMP | KICMP => True
              | KGate semTCP | KTCP => s1 <= at_ e
              | KPing => s2 <= at_ e
              | _ => False
              end) trf ->
    ~ Exists (answered network) trf).
  { intros trf network G X. apply Exists_exists in X as (e & I & ips & Ee & _).
    rewrite Forall_forall in G. specialize (G e I). rewrite Ee in G. exact G. }
  split; [| split].
  - apply Forall_app_2; [| apply Forall_app_2; [| apply Forall_app_2]].
    + eapply Forall_impl; [exact K1 |]. cbn beta.
      intros e [-> | ->]; split; discriminate.
    + eapply Forall_impl; [exact K2 |]. cbn beta.
      intros e [-> | ->]; split; discriminate.
    + eapply Forall_impl; [exact G4 |]. cbn beta. intros e.
      destruct (kind (what e)) as [[| |] | | | |]; intros H; split; try discriminate;
        intros _; lia.
    + eapply Forall_impl; [exact G6 |]. cbn beta. intros e.
      destruct (kind (what e)) as [[| |] | | | |]; intros H; split; try discriminate;
        intros _; lia.
  - cbn [IPv4]. intros N X.
    assert (f4 = false) as -> by (destruct f4; [discriminate | reflexivity]).
    rewrite !Exists_app in X. destruct X as [X | [X | [X | X]]].
    + apply Exists_exists in X as (e & I & ips & Ee & Ne).
      rewrite Forall_forall in K1. destruct (K1 e I) as [K | K].
      * rewrite Ee in K. discriminate.
      * rewrite Ee in K. injection K as ->. specialize (H4 Ne eq_refl). lia.
    + exfalso. apply Exists_exists in X as (e & I & ips & Ee & Ne).
      rewrite Forall_forall in K2. destruct (K2 e I) as [K | K];
        rewrite Ee in K; discriminate.
    + exfalso. exact (NR tr4 "ip4" G4 X).
    + exfalso. exact (NR tr6 "ip4" G6 X).
  - cbn [IPv6]. intros N X.
    assert (f6 = false) as -> by (destruct f6; [discriminate | reflexivity]).
    rewrite !Exists_app in X. destruct X as [X | [X | [X | X]]].
    + exfalso. apply Exists_exists in X as (e & I & ips & Ee & Ne).
      rewrite Forall_forall in K1. destruct (K1 e I) as [K | K];
        rewrite Ee in K; discriminate.
    + apply Exists_exists in X as (e & I & ips & Ee & Ne).
      rewrite Forall_forall in K2. destruct (K2 e I) as [K | K].
      * rewrite Ee in K. discriminate.
      * rewrite Ee in K. injection K as ->. specialize (H6 Ne eq_refl). lia.
    + exfalso. exact (NR tr4 "ip6" G4 X).
    + exfalso. exact (NR tr6 "ip6" G6 X).
Qed.

(** ** The stages of a family, one after the other *)

Section Overlap.

Variable W : World.






End Overlap.


(** ** What a request touches *)

Section Footprint.

Variable W : World.

Lemma Every_ret {A} (P : Event -> Prop) (a : A) : Every P (mret a).
Proof. intros me now. constructor. Qed.

Lemma Every_emit (P : Event -> Prop) (e : Event) : P e -> Every P (emit e).
Proof. intros H me now. constructor; [exact H | constructor]. Qed.

Lemma Every_bind {A B} (P : Event -> Prop) (m : M A) (k : A -> M B) :
  Every P m -> (forall a, Every P (k a)) -> Every P (m ≫= k).
Proof.
  intros Hm Hk me now. rewrite bind_run. specialize (Hm me now).
  destruct (m me now) as [a t tr | tr]; cbn [traceOf] in *; [| exact Hm].
  rewrite traceOf_after. apply Forall_app_2; [exact Hm | apply Hk].
Qed.

Lemma Every_defer {A} (P : Event -> Prop) (dfr : M unit) (body : M A) :
  Every P dfr -> Every P body -> Every P (defer dfr body).
Proof.
  intros Hd Hb. unfold defer. apply Every_bind; [exact Hb |].
  intros a. apply Every_bind; [exact Hd |]. intros _. apply Every_ret.
Qed.

Lemma Every_orElse (P : Event -> Prop) (a b : M bool) :
  Every P a -> Every P b -> Every P (a ||| b).
Proof.
  intros Ha Hb. unfold orElse. apply Every_bind; [exact Ha |].
  intros [|]; [apply Every_ret | exact Hb].
Qed.

Lemma Every_mono {A} (P Q : Event -> Prop) (m : M A) :
  (forall e, P e -> Q e) -> Every P m -> Every Q m.
Proof.
  intros H Hm me now. eapply Forall_impl; [apply Hm |]. cbn beta. auto.
Qed.

Lemma awaitFirst_every (P : Event -> Prop) (ctx2 : Context) (rs : list (Run bool)) :
  Forall (fun r => Forall (fun e => P (what e)) (traceOf r)) rs ->
  Every P (awaitFirst W ctx2 rs).
Proof.
  intros H me now. unfold awaitFirst.
  assert (Forall (fun e => P (what e)) (concat (map traceOf rs))).
  { induction H; cbn; [constructor |]. apply Forall_app_2; assumption. }
  destruct (select2 _ _ _ _) as [[b t] |]; assumption.
Qed.

Lemma acquire_every (ctx : Context) (sem : Sem) :
  Every (fun e => e = EvAcquire sem) (acquire W ctx sem).
Proof.
  intros me now.
  destruct (acquire_cases W ctx sem me now)
    as [(t & -> & _) | [(d1 & _ & ->) | (_ & ->)]]; repeat constructor.
Qed.

Lemma readLoop_every (ctx : Context) (sd : option Time) (ip : IP) (rx : list Rx) :
  Every (fun e => exists r, e = EvReadFrom r) (readLoop W ctx sd ip rx).
Proof.
  induction rx as [| x rest IH]; intros me now; cbn [readLoop];
    (destruct (isDone ctx now); [constructor |]).
  - revert me now. change (Every (fun e => exists r, e = EvReadFrom r)
      (r ← ReadFrom sd None; afterRead W ip r (mret false))).
    apply Every_bind.
    + intros me now. unfold ReadFrom. destruct sd; repeat constructor. eauto.
    + intros [pkt |]; [| apply Every_ret]. rewrite afterRead_packet.
      destruct (isEchoReplyFor W ip pkt); apply Every_ret.
  - revert me now. change (Every (fun e => exists r, e = EvReadFrom r)
      (r ← ReadFrom sd (Some x); afterRead W ip r (readLoop W ctx sd ip rest))).
    apply Every_bind.
    + intros me now. unfold ReadFrom.
      destruct (expired sd _); [repeat constructor; eauto |].
      destruct x; repeat constructor; eauto.
    + intros [pkt |]; [| apply Every_ret]. rewrite afterRead_packet.
      destruct (isEchoReplyFor W ip pkt); [apply Every_ret | exact IH].
Qed.

(** What [doICMP] does outside: one socket of the protocol of the
    address, at most one datagram, to that address. *)
Lemma doICMP_every (ctx : Context) (ip : IP) :
  Every (fun e =>
           match e with
           | EvListenPacket network laddr _ => (network, laddr) = socketFor ip
           | EvWriteTo ip' _ | EvDoICMP ip' _ => ip' = ip
           | EvReadFrom _ | EvSockClose => True
           | _ => False
           end) (doICMP W ctx ip).
Proof.
  intros me now. rewrite doICMP_run. cbn zeta.
  assert (S : (socketFor ip).1 = fst (socketFor ip) /\ True) by auto.
  destruct (socketFor ip) as [network laddr] eqn:Es. cbn [fst snd].
  destruct (listenOK W _ _ me now); [| repeat constructor].
  destruct (Marshal W _) as [b |]; [| repeat constructor].
  destruct (negb _ && _); [| repeat constructor].
  pose proof (readLoop_every ctx (ctxDeadline ctx) ip (inbound W me now) me now) as H.
  destruct (readLoop W ctx _ ip _ me now) as [ok t tr | tr]; cbn [traceOf] in *.
  - constructor; [reflexivity |]. constructor; [reflexivity |].
    apply Forall_app_2; [| repeat constructor].
    eapply Forall_impl; [exact H |]. cbn beta. intros e [r ->]. exact I.
  - constructor; [reflexivity |]. constructor; [reflexivity |].
    eapply Forall_impl; [exact H |]. cbn beta. intros e [r ->]. exact I.
Qed.

Lemma DialContext_every (timeout : Duration) (ctx : Context) (network : string)
    (ip : IP) (port : string) :
  Every (fun e => exists err, e = EvDial network ip port err)
    (DialContext W timeout ctx network ip port).
Proof.
  intros me now.
  destruct (DialContext_run W timeout ctx network ip port me now)
    as (err & t & -> & _). repeat constructor. eauto.
Qed.

Lemma pingWithFamily_every (ctx : Context) (host family : string) :
  Every (fun e =>
           match e with
           | EvRun name args _ => pingCommand family host name args
           | _ => False
           end) (pingWithFamily W ctx host family).
Proof.
  unfold pingWithFamily. cbn zeta. apply Every_bind; [| intros [|]; apply Every_ret].
  intros me now. unfold CommandContext_Run.
  assert (C : pingCommand family host "ping"
    (if String.eqb (GOOS W) "windows"
     then (if String.eqb family "4" then ["-4"] ++ ["-n"; "1"; "-w"; "1500"]
           else ["-6"] ++ ["-n"; "1"; "-w"; "1500"]) ++ [host]
     else (if String.eqb family "4" then ["-4"] ++ ["-c"; "1"]
           else ["-6"] ++ ["-c"; "1"]) ++ ["-W"; "1"; host])).
  { split; [reflexivity |]. eexists. split; [reflexivity |].
    destruct (String.eqb (GOOS W) "windows"), (String.eqb family "4"); cbn; auto. }
  destruct (isDone ctx now); [repeat (first [exact C | constructor]) |].
  destruct (child W _ _ me now) as [[ok t] |], (doneAt ctx) as [d0 |];
    try destruct (_ <? _); repeat (first [exact C | constructor]).
Qed.

Lemma raceEcho_every (ctx : Context) (ips : list IP) (dialNet family : string)
    (ports : list string) (input : string) :
  Every (probes ips dialNet family ports input) (raceEcho W ctx ips).
Proof.
  intros me now. unfold raceEcho. cbn zeta.
  apply (fun H => awaitFirst_every _ _ _ H me now).
  apply Forall_forall. intros r I.
  apply elem_of_lookup_imap in I as (i & ip & -> & L).
  apply list_elem_of_lookup_2, list_elem_of_In in L.
  assert (H : Every (probes ips dialNet family ports input)
                (raceEcho_go W (WithTimeout ctx now (2200 * Millisecond)) ip));
    [| apply H].
  unfold raceEcho_go. apply Every_bind.
  - eapply Every_mono; [| apply acquire_every]. intros e ->. left. reflexivity.
  - intros [|]; [| apply Every_ret]. apply Every_defer.
    + apply Every_emit. left. reflexivity.
    + eapply Every_mono; [| apply doICMP_every].
      intros [] H; cbn in *; try contradiction; subst; eauto.
Qed.

Lemma tcpConnectRace_every (ctx : Context) (ips : list IP) (family : string)
    (ports : list string) (input : string) :
  Every (probes ips (if String.eqb family "6" then "tcp6" else "tcp4") family ports input)
    (tcpConnectRace W ctx ips family ports).
Proof.
  intros me now. unfold tcpConnectRace. cbn zeta.
  apply (fun H => awaitFirst_every _ _ _ H me now).
  apply Forall_forall. intros r I. apply list_elem_of_In in I.
  apply in_concat in I as (l & Il & I).
  apply (proj2 (list_elem_of_In _ _)) in Il.
  apply (proj2 (list_elem_of_In _ _)) in I.
  apply elem_of_lookup_imap in Il as (i & ip & -> & L).
  apply elem_of_lookup_imap in I as (j & p & -> & Lp).
  apply list_elem_of_lookup_2, list_elem_of_In in L.
  apply list_elem_of_lookup_2, list_elem_of_In in Lp.
  match goal with
  | |- Forall _ (traceOf (?m _ now)) =>
      assert (H : Every (probes ips (if String.eqb family "6" then "tcp6" else "tcp4")
                           family ports input) m); [| apply H]
  end.
  unfold tcpConnectRace_go. apply Every_bind.
  - eapply Every_mono; [| apply acquire_every]. intros e ->. right. reflexivity.
  - intros [|]; [| apply Every_ret]. apply Every_defer.
    + apply Every_emit. right. reflexivity.
    + apply Every_bind.
      * eapply Every_mono; [| apply DialContext_every].
        intros e [err ->]. cbn. auto.
      * intros [er |]; [apply Every_ret |].
        apply Every_bind; [apply Every_emit; exact I | intros _; apply Every_ret].
Qed.

Lemma family_go_every (ctx : Context) (ips : list IP) (family : string)
    (ports : list string) (input : string) :
  Every (probes ips (if String.eqb family "6" then "tcp6" else "tcp4") family ports input)
    (family_go W ctx ips family ports input).
Proof.
  unfold family_go. apply Every_orElse; [apply Every_orElse |].
  - apply raceEcho_every.
  - apply tcpConnectRace_every.
  - eapply Every_mono; [| apply pingWithFamily_every].
    intros [] H; cbn in *; try contradiction; exact H.
Qed.

End Footprint.

Section FootprintOfRequests.

Variable W : World.

Lemma resolve_go_answer (ctx : Context) (D : Time) (network input : string)
    (me : GoId) (now : Time) (v : list IP) (t : Time) (tr : Trace) (ip : IP) :
  ctxDeadline ctx = Some D ->
  resolve_go W ctx network input me now = Returns v t tr ->
  In ip v ->
  exists e, In e tr /\ what e = EvLookupIP network input v.
Proof.
  intros HD E I.
  destruct (resolve_go_run W ctx D network input me now HD)
    as [(t' & E' & _) | (g & ips & t' & E' & _)];
    rewrite E in E'; injection E' as -> -> ->.
  - destruct I.
  - eexists. split; [right; left; reflexivity | reflexivity].
Qed.

Lemma literal_go_every (ctx : Context) (parsed : IP) (input family : string) :
  Every (fun e =>
           match e with
           | EvListenPacket network laddr _ => (network, laddr) = socketFor parsed
           | EvWriteTo ip _ | EvDoICMP ip _ => ip = parsed
           | EvReadFrom _ | EvSockClose => True
           | EvRun name args _ => pingCommand family input name args
           | _ => False
           end) (literal_go W ctx parsed input family).
Proof.
  unfold literal_go. apply Every_orElse.
  - eapply Every_mono; [| apply doICMP_every].
    intros [] H; first [exact H | destruct H].
  - eapply Every_mono; [| apply pingWithFamily_every].
    intros [] H; first [exact H | destruct H].
Qed.

End FootprintOfRequests.

(** X13. What a request touches, in all its goroutines and whether or not
    they are waited for: lookups are lookups of the input, on ip4 or ip6;
    raw sockets are the ICMPv4 and the ICMPv6 socket; echo requests go
    to the parsed literal or to an address that a lookup of the input
    brought; connections go to port 443 or 80 of an address that the
    lookup of the same family brought (tcp4 with ip4, tcp6 with ip6); the
    only command run is ping, with the flag of a family, fixed options
    and the input as its last argument. *)
Theorem request_concerns_only_its_input :
  forall (W : World) (parent : Context) (input : string) (me : GoId) (now : Time),
    let tr := traceOf (detectAndPing W parent input me now) in
    Forall (fun e => concerns W input tr (what e)) tr.
Proof.
  intros W parent input me now.
  destruct (ParseIP W input) as [parsed |] eqn:P.
  - pose proof (literal_request_run W parent input parsed me now P) as R.
    cbv zeta in R. rewrite R. clear R.
    assert (Sock : socketFor parsed = ("ip4:icmp", "0.0.0.0") \/
                   socketFor parsed = ("ip6:ipv6-icmp", "::")).
    { unfold socketFor. destruct (notNil (To4 parsed)); auto. }
    match goal with
    | |- context [literal_go W ?ctx parsed input ?f ?who0 now] =>
        pose proof (literal_go_every W ctx parsed input f who0 now) as H;
        destruct (literal_go W ctx parsed input f who0 now) as [ok t tr | tr]
    end; cbn [traceOf] in *; cbv zeta;
      (eapply Forall_impl; [exact H |]); cbn beta; intros e; unfold concerns;
      destruct (what e); try tauto;
      try (intros ->; first [exact Sock | left; exact P]);
      destruct (notNil (To4 parsed)); auto.
  - destruct (domain_request_run W parent input me now P)
      as (v4 & t1 & tr1 & v6 & t2 & tr2 & E1 & E2 & L1 & L2 & R).
    cbn zeta in R. destruct R as (f4 & t4 & tr4 & f6 & t6 & tr6 & R4 & R6 & E).
    rewrite E. cbn [traceOf]. cbv zeta.
    set (ctx := WithTimeout parent now (5 * Second)) in *.
    assert (HD : ctxDeadline ctx = Some (overallEnd (ctxDeadline parent) now))
      by apply overall_deadline.
    set (tr := tr1 ++ tr2 ++ tr4 ++ tr6).
    assert (A4 : forall ip, In ip v4 -> resolvedBy input tr "ip4" ip).
    { intros ip I.
      destruct (resolve_go_answer W ctx _ "ip4" input _ now v4 t1 tr1 ip HD E1 I)
        as (e & Ie & Ee).
      exists e, v4. split; [| auto]. unfold tr. apply in_or_app. left. exact Ie. }
    assert (A6 : forall ip, In ip v6 -> resolvedBy input tr "ip6" ip).
    { intros ip I.
      destruct (resolve_go_answer W ctx _ "ip6" input _ now v6 t2 tr2 ip HD E2 I)
        as (e & Ie & Ee).
      exists e, v6. split; [| auto]. unfold tr.
      apply in_or_app. right. apply in_or_app. left. exact Ie. }
    pose proof (resolve_go_events W ctx _ "ip4" input _ now v4 t1 tr1 HD E1) as K1.
    pose proof (resolve_go_events W ctx _ "ip6" input _ now v6 t2 tr2 HD E2) as K2.
    assert (G4 : Forall (fun e => probes v4 "tcp4" "4" ["443"; "80"] input (what e)) tr4).
    { revert R4. destruct (0 <? Z.of_nat (List.length v4)).
      - intros [E4 _].
        pose proof (family_go_every W ctx v4 "4" ["443"; "80"] input (me ++ [4%nat])
                      (Z.max t1 t2)) as H.
        rewrite E4 in H. exact H.
      - intros (_ & _ & ->). constructor. }
    assert (G6 : Forall (fun e => probes v6 "tcp6" "6" ["443"; "80"] input (what e)) tr6).
    { revert R6. destruct (0 <? Z.of_nat (List.length v6)).
      - intros [E6 _].
        pose proof (family_go_every W ctx v6 "6" ["443"; "80"] input (me ++ [6%nat])
                      (Z.max t1 t2)) as H.
        rewrite E6 in H. exact H.
      - intros (_ & _ & ->). constructor. }
    assert (Sock : forall ip network laddr,
      (network, laddr) = socketFor ip ->
      (network, laddr) = ("ip4:icmp", "0.0.0.0") \/
      (network, laddr) = ("ip6:ipv6-icmp", "::")).
    { intros ip network laddr ->. unfold socketFor. destruct (notNil (To4 ip)); auto. }
    apply Forall_app_2; [| apply Forall_app_2; [| apply Forall_app_2]].
    + eapply Forall_impl; [exact K1 |]. cbn beta. intros e [K | ->].
      * destruct (what e); try discriminate; exact I.
      * cbn. auto.
    + eapply Forall_impl; [exact K2 |]. cbn beta. intros e [K | ->].
      * destruct (what e); try discriminate; exact I.
      * cbn. auto.
    + eapply Forall_impl; [exact G4 |]. cbn beta. intros e.
      destruct (what e); cbn; try tauto.
      * intros (ip & _ & H). eapply Sock. exact H.
      * intros H. right. left. apply A4. exact H.
      * intros H. right. left. apply A4. exact H.
      * intros (-> & H & [<- | [<- | []]]); split; auto.
    + eapply Forall_impl; [exact G6 |]. cbn beta. intros e.
      destruct (what e); cbn; try tauto.
      * intros (ip & _ & H). eapply Sock. exact H.
      * intros H. right. right. apply A6. exact H.
      * intros H. right. right. apply A6. exact H.
      * intros (-> & H & [<- | [<- | []]]); split; auto.
Qed.

(** X11. A request for a domain whose lookups bring no address (they
    failed, were cut off, or could not get a slot) is answered "no", "no"
    and nothing is probed: the trace holds at most the two lookups
    between their acquisition and release of the DNS gate, at most six
    events, none of them later than the answer; in particular the system
    ping, which could resolve the name by itself, is not run. *)
Theorem unresolved_domain_is_not_probed :
  forall (W : World) (parent : Context) (input : string) (me : GoId) (now : Time)
         (res : pingResult) (t : Time) (tr : Trace),
    ParseIP W input = None ->
    detectAndPing W parent input me now = Returns res t tr ->
    Forall (fun e => forall network host ips,
                       what e = EvLookupIP network host ips -> ips = []) tr ->
    res = {| IPv4 := "no"; IPv6 := "no" |} /\
    Forall (fun e => kind (what e) = KGate semDNS \/ kind (what e) = KResolve) tr /\
    (List.length tr <= 6)%nat /\
    Forall (fun e => at_ e <= t) tr.
Proof.
  intros W parent input me now res t tr P E N.
  destruct (domain_request_run W parent input me now P)
    as (v4 & t1 & tr1 & v6 & t2 & tr2 & E1 & E2 & L1 & L2 & R).
  cbn zeta in R. destruct R as (f4 & t4 & tr4 & f6 & t6 & tr6 & R4 & R6 & E').
  rewrite E in E'. injection E' as -> -> ->.
  set (ctx := WithTimeout parent now (5 * Second)) in *.
  assert (HD : ctxDeadline ctx = Some (overallEnd (ctxDeadline parent) now))
    by apply overall_deadline.
  rewrite !Forall_app in N. destruct N as (N1 & N2 & _).
  assert (S : forall network who0 v t' tr',
    resolve_go W ctx network input who0 now = Returns v t' tr' ->
    Forall (fun e => forall network host ips,
                       what e = EvLookupIP network host ips -> ips = []) tr' ->
    v = [] /\ (List.length tr' <= 3)%nat /\
    Forall (fun e => kind (what e) = KGate semDNS \/ kind (what e) = KResolve) tr' /\
    Forall (fun e => at_ e <= t') tr').
  { intros network who0 v t' tr' Er Nr.
    destruct (resolve_go_run W ctx _ network input who0 now HD)
      as [(t'' & E' & _) | (g & ips & t'' & E' & Hg)];
      rewrite Er in E'; injection E' as -> -> ->.
    - repeat split; [cbn; lia | constructor | constructor].
    - inversion Nr as [| ? ? _ Nr']; subst. inversion Nr' as [| ? ? Nl _]; subst.
      split; [eapply Nl; reflexivity |]. split; [cbn; lia |]. split.
      + repeat (constructor; [cbn; auto |]). constructor.
      + repeat (constructor; [cbn; lia |]). constructor. }
  destruct (S _ _ _ _ _ E1 N1) as (-> & Len1 & K1 & A1).
  destruct (S _ _ _ _ _ E2 N2) as (-> & Len2 & K2 & A2).
  cbn in R4, R6. destruct R4 as (-> & -> & ->). destruct R6 as (-> & -> & ->).
  rewrite !app_nil_r. split; [reflexivity |]. split; [| split].
  - apply Forall_app_2; assumption.
  - rewrite length_app. lia.
  - apply Forall_app_2; (eapply Forall_impl; [eassumption |]); cbn beta; intros; lia.
Qed.

(** ** What the result reports *)

Section Reporting.

Variable W : World.











End Reporting.

Section Fields.

Variable W : World.







End Fields.


(** ** The slots of a request *)

Section Accounting.

Variable W : World.

Lemma acquisitions_app (s : Sem) (tr1 tr2 : Trace) :
  acquisitions s (tr1 ++ tr2) = (acquisitions s tr1 + acquisitions s tr2)%nat.
Proof. unfold acquisitions. rewrite gateOps_app, List.filter_app, length_app. reflexivity. Qed.

Lemma releases_app (s : Sem) (tr1 tr2 : Trace) :
  releases s (tr1 ++ tr2) = (releases s tr1 + releases s tr2)%nat.
Proof. unfold releases. rewrite gateOps_app, List.filter_app, length_app. reflexivity. Qed.

Lemma resolved_app (tr1 tr2 : Trace) :
  resolved (tr1 ++ tr2) = (resolved tr1 + resolved tr2)%nat.
Proof. unfold resolved. rewrite map_app, list_sum_app. reflexivity. Qed.

Lemma Budget_nil (b : Sem -> nat) : Budget b [].
Proof. intros s. split; [reflexivity | cbn; lia]. Qed.

Lemma Budget_app (b1 b2 : Sem -> nat) (tr1 tr2 : Trace) :
  Budget b1 tr1 -> Budget b2 tr2 -> Budget (fun s => (b1 s + b2 s)%nat) (tr1 ++ tr2).
Proof.
  intros H1 H2 s. destruct (H1 s) as [E1 L1], (H2 s) as [E2 L2].
  rewrite acquisitions_app, releases_app. lia.
Qed.

Lemma Budget_mono (b b' : Sem -> nat) (tr : Trace) :
  (forall s, (b s <= b' s)%nat) -> Budget b tr -> Budget b' tr.
Proof. intros L H s. destruct (H s) as [E Ls]. specialize (L s). lia. Qed.

Lemma Budget_quiet (tr : Trace) :
  (forall s, gateOps s tr = []) -> Budget (fun _ => 0%nat) tr.
Proof.
  intros H s. unfold acquisitions, releases. rewrite H. split; [reflexivity | cbn; lia].
Qed.

Lemma Budget_worker (s : Sem) (tr : Trace) :
  WorkerTrace W s tr -> Budget (only s 1) tr.
Proof.
  intros H s'. unfold acquisitions, releases, only.
  destruct (worker_gate_ops W s tr H s') as [-> | [-> ->]].
  - split; [reflexivity | cbn; lia].
  - rewrite decide_True by reflexivity. split; [reflexivity | cbn; lia].
Qed.

Lemma Budget_concat (s : Sem) (trs : list Trace) :
  Forall (Budget (only s 1)) trs -> Budget (only s (List.length trs)) (concat trs).
Proof.
  induction 1 as [| tr trs H _ IH]; [apply Budget_nil |].
  cbn [concat List.length]. eapply Budget_mono; [| apply Budget_app; eassumption].
  intros s'. unfold only. destruct (decide (s' = s)); lia.
Qed.

Lemma Spends_ret {A} (b : Sem -> nat) (a : A) : Spends b (mret a).
Proof. intros me now. apply Budget_nil. Qed.

Lemma Spends_bind {A B} (b1 b2 : Sem -> nat) (m : M A) (k : A -> M B) :
  Spends b1 m -> (forall a, Spends b2 (k a)) ->
  Spends (fun s => (b1 s + b2 s)%nat) (m ≫= k).
Proof.
  intros Hm Hk me now. rewrite bind_run. specialize (Hm me now).
  destruct (m me now) as [a t tr | tr]; cbn [traceOf] in *.
  - rewrite traceOf_after. apply Budget_app; [exact Hm | apply Hk].
  - eapply Budget_mono; [| exact Hm]. intros s. lia.
Qed.

Lemma Spends_orElse (b1 b2 : Sem -> nat) (a b : M bool) :
  Spends b1 a -> Spends b2 b -> Spends (fun s => (b1 s + b2 s)%nat) (a ||| b).
Proof.
  intros Ha Hb. unfold orElse. apply Spends_bind; [exact Ha |].
  intros [|]; [apply Spends_ret | exact Hb].
Qed.

Lemma Spends_quiet {A} (P : Kind -> Prop) (m : M A) :
  Only P m -> (forall s, ~ P (KGate s)) -> Spends (fun _ => 0%nat) m.
Proof.
  intros H N me now. apply Budget_quiet. intros s.
  apply (gateOps_Only s P m me now H (N s)).
Qed.

Lemma traceOf_awaitFirst (ctx2 : Context) (rs : list (Run bool)) (me : GoId)
    (now : Time) :
  traceOf (awaitFirst W ctx2 rs me now) = concat (map traceOf rs).
Proof. unfold awaitFirst. destruct (select2 _ _ _ _) as [[b t] |]; reflexivity. Qed.

Lemma raceEcho_spends (ctx : Context) (ips : list IP) :
  Spends (only semICMP (List.length ips)) (raceEcho W ctx ips).
Proof.
  intros me now. unfold raceEcho. cbn zeta. rewrite traceOf_awaitFirst.
  match goal with
  | |- Budget _ (concat (map traceOf ?rs)) =>
      replace (List.length ips) with (List.length (map traceOf rs))
        by (rewrite length_map, length_imap; reflexivity)
  end.
  apply Budget_concat. apply Forall_map. apply Forall_forall. intros r I.
  apply elem_of_lookup_imap in I as (i & ip & -> & _).
  apply Budget_worker. eapply wt_echo. apply WithTimeout_deadline.
Qed.

Lemma length_concat_imap {A C} (g : nat -> A -> list C) (l : list A) (n : nat) :
  (forall i a, List.length (g i a) = n) ->
  List.length (concat (imap g l)) = (List.length l * n)%nat.
Proof.
  revert g. induction l as [| a l IH]; intros g H; [reflexivity |].
  cbn [imap concat List.length]. rewrite length_app, H, IH; [lia |].
  intros i a'. apply H.
Qed.

Lemma tcpConnectRace_spends (ctx : Context) (ips : list IP) (family : string)
    (ports : list string) :
  Spends (only semTCP (List.length ips * List.length ports))
    (tcpConnectRace W ctx ips family ports).
Proof.
  intros me now. unfold tcpConnectRace. cbn zeta. rewrite traceOf_awaitFirst.
  match goal with
  | |- Budget _ (concat (map traceOf ?rs)) =>
      replace (List.length ips * List.length ports)%nat
        with (List.length (map traceOf rs))
  end.
  2:{ rewrite length_map. apply length_concat_imap.
      intros i ip. apply length_imap. }
  apply Budget_concat. apply Forall_map. apply Forall_forall. intros r I.
  apply list_elem_of_In in I.
  apply in_concat in I as (l & Il & I).
  apply (proj2 (list_elem_of_In _ _)) in Il.
  apply (proj2 (list_elem_of_In _ _)) in I.
  apply elem_of_lookup_imap in Il as (i & ip & -> & _).
  apply elem_of_lookup_imap in I as (j & p & -> & _).
  apply Budget_worker. eapply wt_tcp. apply WithTimeout_deadline.
Qed.

Lemma family_go_spends (ctx : Context) (ips : list IP) (family : string)
    (ports : list string) (input : string) :
  Spends (fun s => match s with
                   | semDNS => 0
                   | semICMP => List.length ips
                   | semTCP => List.length ips * List.length ports
                   end)%nat
    (family_go W ctx ips family ports input).
Proof.
  intros me now.
  eapply Budget_mono;
    [| apply (Spends_orElse _ _ _ _
               (Spends_orElse _ _ _ _ (raceEcho_spends ctx ips)
                  (tcpConnectRace_spends ctx ips family ports))
               (Spends_quiet _ _ (pingWithFamily_kind W ctx input family)
                  ltac:(discriminate)))].
  intros [| |]; unfold only; repeat destruct (decide _); try congruence; lia.
Qed.

Lemma resolved_quiet (tr : Trace) :
  Forall (fun e => kind (what e) <> KResolve) tr -> resolved tr = 0%nat.
Proof.
  induction 1 as [| e tr H _ IH]; [reflexivity |].
  change (resolved (e :: tr)) with (resolved ([e] ++ tr)).
  rewrite resolved_app, IH. unfold resolved. cbn.
  destruct (what e); try reflexivity. cbn in H. congruence.
Qed.

End Accounting.

(** X14. The slots of a request: on each gate the trace of a request holds
    as many releases as acquisitions; a request takes at most two slots of
    the DNS gate, at most one slot of the ICMP gate and two of the TCP
    gate for each address that its lookups brought. *)
Theorem request_returns_every_slot :
  forall (W : World) (parent : Context) (input : string) (me : GoId) (now : Time),
    let tr := traceOf (detectAndPing W parent input me now) in
    (forall s, acquisitions s tr = releases s tr) /\
    (acquisitions semDNS tr <= 2)%nat /\
    (acquisitions semICMP tr <= resolved tr)%nat /\
    (acquisitions semTCP tr <= 2 * resolved tr)%nat.
Proof.
  intros W parent input me now.
  destruct (ParseIP W input) as [parsed |] eqn:P.
  - pose proof (literal_request_kinds W parent input parsed P) as K.
    pose proof (Spends_quiet _ _ K
                  ltac:(intros s [H | H]; discriminate) me now) as B.
    cbv zeta. split; [intros s; apply B |].
    split; [| split]; (eapply Nat.le_trans; [apply B |]); cbn beta; lia.
  - destruct (domain_request_run W parent input me now P)
      as (v4 & t1 & tr1 & v6 & t2 & tr2 & E1 & E2 & L1 & L2 & R).
    cbn zeta in R. destruct R as (f4 & t4 & tr4 & f6 & t6 & tr6 & R4 & R6 & E).
    rewrite E. cbn [traceOf]. cbv zeta.
    set (ctx := WithTimeout parent now (5 * Second)) in *.
    assert (HD : ctxDeadline ctx = Some (overallEnd (ctxDeadline parent) now))
      by apply overall_deadline.
    assert (S : forall network who0 v t' tr',
      resolve_go W ctx network input who0 now = Returns v t' tr' ->
      Budget (only semDNS 1) tr' /\ resolved tr' = List.length v).
    { intros network who0 v t' tr' Er. split.
      - apply (Budget_worker W).
        replace tr' with (traceOf (resolve_go W ctx network input who0 now))
          by (rewrite Er; reflexivity).
        eapply wt_dns. exact HD.
      - destruct (resolve_go_run W ctx _ network input who0 now HD)
          as [(t'' & E' & _) | (g & ips & t'' & E' & Hg)];
          rewrite Er in E'; injection E' as -> -> ->; cbn; lia. }
    destruct (S _ _ _ _ _ E1) as [B1 V1]. destruct (S _ _ _ _ _ E2) as [B2 V2].
    assert (F : forall ips family f tf trf who0,
      (if 0 <? Z.of_nat (List.length ips)
       then family_go W ctx ips family ["443"; "80"] input who0 (Z.max t1 t2)
            = Returns f tf trf /\ Z.max t1 t2 <= tf
       else f = false /\ tf = Z.max t1 t2 /\ trf = []) ->
      Budget (fun s => match s with
                       | semDNS => 0
                       | semICMP => List.length ips
                       | semTCP => List.length ips * 2
                       end)%nat trf /\
      resolved trf = 0%nat).
    { intros ips family f tf trf who0 H.
      destruct (0 <? Z.of_nat (List.length ips)).
      - destruct H as [Ef _]. split.
        + pose proof (family_go_spends W ctx ips family ["443"; "80"] input who0
                        (Z.max t1 t2)) as B.
          rewrite Ef in B. exact B.
        + apply resolved_quiet.
          pose proof (family_go_every W ctx ips family ["443"; "80"] input who0
                        (Z.max t1 t2)) as K.
          rewrite Ef in K. cbn [traceOf] in K.
          eapply Forall_impl; [exact K |]. cbn beta. intros e.
          destruct (what e); cbn; try discriminate. contradiction.
      - destruct H as (_ & _ & ->). split; [apply Budget_nil | reflexivity]. }
    destruct (F _ _ _ _ _ _ R4) as [B4 V4]. destruct (F _ _ _ _ _ _ R6) as [B6 V6].
    pose proof (Budget_app _ _ _ _ B1 (Budget_app _ _ _ _ B2 (Budget_app _ _ _ _ B4 B6)))
      as B.
    rewrite !resolved_app, V1, V2, V4, V6.
    split; [intros s; apply B |].
    split; [| split]; (eapply Nat.le_trans; [apply B |]); unfold only;
      repeat destruct (decide _); try congruence; lia.
Qed.

(** X17. [doICMP] asks for one socket, first; without it nothing else
    happens and the result is false at once.  With it, at most one
    datagram is sent, to the address probed, reads follow only a send
    that went through, and the socket is closed exactly once, last, at
    the return, on every path.  [doICMP] fails to return only under a
    context without deadline, and it is then that the socket stays
    open. *)
Theorem doICMP_closes_the_socket_it_opened :
  forall (W : World) (ctx : Context) (ip : IP) (me : GoId) (now : Time),
    (forall ok t tr,
       doICMP W ctx ip me now = Returns ok t tr ->
       exists opened rest,
         tr = entry me now (EvListenPacket (socketFor ip).1 (socketFor ip).2 opened)
              :: rest /\
         if opened then
           exists ops,
             rest = ops ++ [entry me t EvSockClose; entry me t (EvDoICMP ip ok)] /\
             (ops = [] \/
              exists sent reads,
                ops = entry me now (EvWriteTo ip sent) :: reads /\
                Forall (fun e => exists r, what e = EvReadFrom r) reads /\
                (sent = false -> reads = []))
         else rest = [entry me now (EvDoICMP ip false)] /\ ok = false /\ t = now) /\
    (forall tr,
       doICMP W ctx ip me now = Blocks tr ->
       ctxDeadline ctx = None /\
       Forall (fun e => what e <> EvSockClose) tr).
Proof.
  intros W ctx ip me now. rewrite doICMP_run. cbn zeta.
  destruct (listenOK W _ _ me now).
  2:{ split; [| discriminate]. intros ok t tr [= <- <- <-].
      exists false, [entry me now (EvDoICMP ip false)]. auto. }
  destruct (Marshal W _) as [b |].
  2:{ split; [| discriminate]. intros ok t tr [= <- <- <-].
      eexists true, _. split; [reflexivity |]. exists []. auto. }
  destruct (negb _ && _).
  2:{ split; [| discriminate]. intros ok t tr [= <- <- <-].
      eexists true, _. split; [reflexivity |].
      exists [entry me now (EvWriteTo ip false)]. split; [reflexivity |].
      right. exists false, []. auto. }
  pose proof (readLoop_every W ctx (ctxDeadline ctx) ip (inbound W me now) me now) as H.
  destruct (readLoop W ctx _ ip _ me now) as [ok' t' tr' | tr'] eqn:R;
    cbn [traceOf] in H.
  - split; [| discriminate]. intros ok t tr [= <- <- <-].
    eexists true, _. split; [reflexivity |].
    exists (entry me now (EvWriteTo ip true) :: tr'). split; [reflexivity |].
    right. exists true, tr'. split; [reflexivity |]. split; [exact H | discriminate].
  - split; [discriminate |]. intros tr [= <-]. split.
    + destruct (ctxDeadline ctx) as [d |] eqn:Hd; [| reflexivity].
      destruct (readLoop_returns W ctx d ip (inbound W me now) me now)
        as (? & ? & ? & R'). congruence.
    + constructor; [discriminate |]. constructor; [discriminate |].
      eapply Forall_impl; [exact H |]. cbn beta. intros e [r ->]. discriminate.
Qed.

(** ** Pending reads and cancellation *)

Section Cancellation.

Variable W : World.

Lemma isDone_WithTimeout (parent : Context) (now : Time) (d : Duration) :
  0 < d -> isDone parent now = false ->
  isDone (WithTimeout parent now d) now = false.
Proof.
  intros Hd H. unfold isDone in *. rewrite doneAt_WithTimeout.
  destruct (doneAt parent) as [c |].
  - apply Z.leb_gt in H. apply Z.leb_gt. lia.
  - apply Z.leb_gt. lia.
Qed.

Lemma not_expired (ctx : Context) (now : Time) :
  isDone ctx now = false -> expired (ctxDeadline ctx) now = false.
Proof.
  unfold isDone, doneAt, expired.
  destruct (ctxDeadline ctx) as [d |]; [| reflexivity].
  destruct (ctxCancel ctx) as [c |]; cbn [omin]; intros H;
    apply Z.leb_gt in H; apply Z.leb_gt; lia.
Qed.

(** [doICMP] on a peer that stays silent, under a context that is not
    done at the start. *)
Lemma doICMP_silent_peer (ctx : Context) (d : Time) (ip : IP) (me : GoId)
    (now : Time) (b : list Byte.byte) :
  ctxDeadline ctx = Some d ->
  isDone ctx now = false ->
  listenOK W (socketFor ip).1 (socketFor ip).2 me now = true ->
  Marshal W (echoRequestFor W ip) = Some b ->
  writeOK W b ip me now = true ->
  match inbound W me now with [] => True | x :: _ => d <= rxTime x end ->
  doICMP W ctx ip me now
  = Returns false d
      [entry me now (EvListenPacket (socketFor ip).1 (socketFor ip).2 true);
       entry me now (EvWriteTo ip true);
       entry me d (EvReadFrom None);
       entry me d EvSockClose;
       entry me d (EvDoICMP ip false)].
Proof.
  intros Hd Dn L Mb Wr Rx. rewrite doICMP_run. cbn zeta.
  rewrite L, Mb, Wr, (not_expired ctx now Dn). cbn [negb andb].
  assert (now < d).
  { pose proof (not_expired ctx now Dn) as X. rewrite Hd in X.
    cbn in X. apply Z.leb_gt in X. exact X. }
  rewrite Hd, (readLoop_deadline W ctx d ip (inbound W me now) me now Dn).
  - rewrite (Z.max_r now d) by lia. reflexivity.
  - destruct (inbound W me now) as [| x rest]; [exact I | lia].
Qed.

End Cancellation.

(** X18. A read of [doICMP] that is pending is not ended by the
    cancellation of the context.  Under a context that is not done at the
    call, with the socket opened and the request sent, and a target that
    stays silent: when the context has a deadline [doICMP] returns false
    at the deadline, exactly as under the context with that deadline and
    no cancellation; when it has none [doICMP] never returns, whether the
    context is cancelled or not. *)
Theorem doICMP_read_ignores_cancellation :
  forall (W : World) (ctx : Context) (ip : IP) (me : GoId) (now : Time)
         (b : list Byte.byte),
    isDone ctx now = false ->
    listenOK W (socketFor ip).1 (socketFor ip).2 me now = true ->
    Marshal W (echoRequestFor W ip) = Some b ->
    writeOK W b ip me now = true ->
    match ctxDeadline ctx with
    | Some d =>
        match inbound W me now with [] => True | x :: _ => d <= rxTime x end ->
        exists tr, doICMP W ctx ip me now = Returns false d tr /\
                   doICMP W (deadlineOnly (Some d)) ip me now = Returns false d tr
    | None =>
        inbound W me now = [] ->
        exists tr, doICMP W ctx ip me now = Blocks tr
    end.
Proof.
  intros W ctx ip me now b Dn L Mb Wr.
  destruct (ctxDeadline ctx) as [d |] eqn:Hd.
  - intros Rx. eexists. split.
    + apply (doICMP_silent_peer W ctx d ip me now b); assumption.
    + apply (doICMP_silent_peer W (deadlineOnly (Some d)) d ip me now b);
        try assumption; [reflexivity |].
      pose proof (not_expired ctx now Dn) as X. rewrite Hd in X.
      unfold isDone, doneAt. cbn. exact X.
  - intros Rx. rewrite doICMP_run. cbn zeta.
    rewrite L, Mb, Wr, Hd, Rx. cbn [expired negb andb readLoop].
    rewrite Dn. eexists. reflexivity.
Qed.

(** X9. A request for a literal address does not: when the raw socket
    could be opened and the echo request sent, and the target stays
    silent, the request returns "no", "no" at the overall deadline (the
    caller's deadline, or 5 s after the call), however early the caller
    cancels, because the pending read ends by the deadline of the socket
    only. *)
Theorem literal_request_outlasts_cancellation :
  forall (W : World) (parent : Context) (input : string) (parsed : IP)
         (me : GoId) (now : Time) (b : list Byte.byte),
    ParseIP W input = Some parsed ->
    let probe := me ++ [if notNil (To4 parsed) then 4%nat else 6%nat] in
    let D := overallEnd (ctxDeadline parent) now in
    isDone parent now = false ->
    listenOK W (socketFor parsed).1 (socketFor parsed).2 probe now = true ->
    Marshal W (echoRequestFor W parsed) = Some b ->
    writeOK W b parsed probe now = true ->
    match inbound W probe now with [] => True | x :: _ => D <= rxTime x end ->
    exists tr,
      detectAndPing W parent input me now
      = Returns {| IPv4 := "no"; IPv6 := "no" |} D tr.
Proof.
  intros W parent input parsed me now b P probe D Dn L Mb Wr Rx.
  pose proof (literal_request_run W parent input parsed me now P) as R.
  cbv zeta in R. rewrite R. clear R.
  set (ctx := WithTimeout parent now (5 * Second)).
  assert (HD : ctxDeadline ctx = Some D) by apply overall_deadline.
  assert (Dn' : isDone ctx now = false).
  { apply isDone_WithTimeout; [unfold Second, Millisecond; lia | exact Dn]. }
  assert (now < D).
  { pose proof (not_expired ctx now Dn') as X. rewrite HD in X.
    cbn in X. apply Z.leb_gt in X. exact X. }
  assert (Done : isDone ctx D = true).
  { destruct (doneAt_deadline ctx D HD) as (d0 & E0 & L0).
    unfold isDone. rewrite E0. apply Z.leb_le. exact L0. }
  fold probe.
  assert (G : forall family,
    literal_go W ctx parsed input family probe now
    = Returns false D
        ([entry probe now (EvListenPacket (socketFor parsed).1 (socketFor parsed).2 true);
          entry probe now (EvWriteTo parsed true);
          entry probe D (EvReadFrom None);
          entry probe D EvSockClose;
          entry probe D (EvDoICMP parsed false)]
         ++ traceOf (pingWithFamily W ctx input family probe D))).
  { intros family. unfold literal_go, orElse. rewrite bind_run.
    rewrite (doICMP_silent_peer W ctx D parsed probe now b HD Dn' L Mb Wr Rx).
    unfold pingWithFamily. cbn zeta. rewrite bind_run.
    unfold CommandContext_Run. rewrite Done. reflexivity. }
  unfold probe in G |- *. destruct (notNil (To4 parsed)); rewrite G;
    rewrite (Z.max_r now D) by lia; eexists; reflexivity.
Qed.

(** ** Answers *)

Section Answers.

Variable W : World.

(** [detectAndPing] always returns, whatever its caller's context, with
    "ok" or "no" in each field. *)
Lemma detectAndPing_returns (parent : Context) (input : string) (me : GoId)
    (now : Time) :
  exists f4 f6 t tr,
    detectAndPing W parent input me now
    = Returns {| IPv4 := okno f4; IPv6 := okno f6 |} t tr /\
    now <= t <= now + 5 * Second /\
    (forall d, ctxDeadline parent = Some d -> t <= Z.max now d) /\
    Forall (fun e => me `prefix_of` who e /\ now <= at_ e <= now + 5 * Second) tr.
Proof.
  destruct (detectAndPing_timely W parent input me now) as (res & t & tr & E & Ht & Hi).
  assert (R : exists f4 f6, res = {| IPv4 := okno f4; IPv6 := okno f6 |}).
  { destruct (ParseIP W input) as [parsed |] eqn:P.
    - pose proof (literal_request_run W parent input parsed me now P) as R.
      cbv zeta in R. rewrite R in E. clear R.
      destruct (literal_go W _ parsed input _ _ now) as [ok t' tr' |]; [| discriminate].
      destruct (notNil (To4 parsed)); injection E as <- _ _;
        [exists ok, false | exists false, ok]; reflexivity.
    - destruct (domain_request_run W parent input me now P)
        as (v4 & t1 & tr1 & v6 & t2 & tr2 & _ & _ & _ & _ & R).
      cbn zeta in R. destruct R as (f4 & t4 & tr4 & f6 & t6 & tr6 & _ & _ & E').
      rewrite E in E'. injection E' as -> _ _. eauto. }
  destruct R as (f4 & f6 & ->). exists f4, f6, t, tr. split; [exact E |].
  assert (L : overallEnd (ctxDeadline parent) now <= now + 5 * Second).
  { unfold overallEnd. destruct (ctxDeadline parent); lia. }
  assert (0 < 5 * Second) by (unfold Second, Millisecond; lia).
  split; [lia |]. split.
  - intros d Hd. rewrite Hd in Ht. cbn [overallEnd] in Ht. lia.
  - eapply Forall_impl; [exact Hi |]. cbn beta. intros e [P T]. split; [exact P | lia].
Qed.

End Answers.

(** X7. [detectAndPing] returns whatever the context of its caller (with
    or without a deadline, cancelled or not) and whatever the world: with
    "ok" or "no" in each field, at most 5 s after the call and not later
    than the deadline of the caller; and everything the request does,
    also in the goroutines it does not wait for, is done by goroutines
    started from it within these 5 s. *)
Theorem detectAndPing_answers_by_its_deadline :
  forall (W : World) (parent : Context) (input : string) (me : GoId) (now : Time),
    exists res t tr,
      detectAndPing W parent input me now = Returns res t tr /\
      (IPv4 res = "ok" \/ IPv4 res = "no") /\
      (IPv6 res = "ok" \/ IPv6 res = "no") /\
      now <= t <= now + 5 * Second /\
      (forall d, ctxDeadline parent = Some d -> t <= Z.max now d) /\
      Forall (fun e => me `prefix_of` who e /\ now <= at_ e <= now + 5 * Second) tr.
Proof.
  intros W parent input me now.
  destruct (detectAndPing_returns W parent input me now)
    as (f4 & f6 & t & tr & E & H).
  eexists _, t, tr. split; [exact E |]. cbn [IPv4 IPv6].
  split; [destruct f4; auto |]. split; [destruct f6; auto |]. exact H.
Qed.

(** X5. The handler of [GET /api/ping], for any query, world and request
    context.  When the trimmed parameter is not valid the answer is 400
    with the text "invalid ip or domain", at once and without a single
    event: nothing is resolved, probed or taken from a gate.  Otherwise
    the answer is 200, comes within 5 s, carries the content type
    text/plain and is one of four texts, which spell the result that
    [detectAndPing] gave for the trimmed parameter. *)
Theorem GET_api_ping_contract :
  forall (W : World) (ToASCII : string -> option string) (reqCtx : Context)
         (query : string) (me : GoId) (now : Time),
    let input := Go_strings.TrimSpace query in
    if isValidInput W ToASCII input then
      exists f4 f6 t tr,
        detectAndPing W reqCtx input me now
        = Returns {| IPv4 := okno f4; IPv6 := okno f6 |} t tr /\
        now <= t <= now + 5 * Second /\
        GET_api_ping W ToASCII reqCtx query me now
        = Returns {| Api.header := [("Content-Type", "text/plain; charset=utf-8")];
                     Api.render :=
                       Api.String_ 200
                         (match f4, f6 with
                          | true, true => "ipv4:ok,ipv6:ok"
                          | true, false => "ipv4:ok,ipv6:no"
                          | false, true => "ipv4:no,ipv6:ok"
                          | false, false => "ipv4:no,ipv6:no"
                          end) |} t tr
    else
      GET_api_ping W ToASCII reqCtx query me now
      = Returns {| Api.header := [];
                   Api.render := Api.String_ 400 "invalid ip or domain" |} now [].
Proof.
  intros W ToASCII reqCtx query me now input. unfold GET_api_ping. fold input.
  destruct (isValidInput W ToASCII input); cbn [negb]; [| reflexivity].
  destruct (detectAndPing_returns W reqCtx input me now)
    as (f4 & f6 & t & tr & E & Ht & _).
  exists f4, f6, t, tr. split; [exact E |]. split; [exact Ht |].
  rewrite bind_run, E. cbn. rewrite app_nil_r. destruct f4, f6; reflexivity.
Qed.

(** X6. The handler of [GET /api/ping/json], likewise: 400 with code 400,
    the message "invalid ip or domain" and no data, at once and without
    an event, when the trimmed parameter is not valid; otherwise 200
    within 5 s with code 200, the message "success" and as data the
    result of [detectAndPing], whose fields are "ok" or "no". *)
Theorem GET_api_ping_json_contract :
  forall (W : World) (ToASCII : string -> option string) (reqCtx : Context)
         (query : string) (me : GoId) (now : Time),
    let input := Go_strings.TrimSpace query in
    if isValidInput W ToASCII input then
      exists f4 f6 t tr,
        detectAndPing W reqCtx input me now
        = Returns {| IPv4 := okno f4; IPv6 := okno f6 |} t tr /\
        now <= t <= now + 5 * Second /\
        GET_api_ping_json W ToASCII reqCtx query me now
        = Returns {| Api.header := [];
                     Api.render :=
                       Api.JSON 200
                         {| Api.Code := 200; Api.Msg := "success";
                            Api.Data := Some {| IPv4 := okno f4; IPv6 := okno f6 |} |} |}
            t tr
    else
      GET_api_ping_json W ToASCII reqCtx query me now
      = Returns {| Api.header := [];
                   Api.render :=
                     Api.JSON 400
                       {| Api.Code := 400; Api.Msg := "invalid ip or domain";
                          Api.Data := None |} |} now [].
Proof.
  intros W ToASCII reqCtx query me now input. unfold GET_api_ping_json. fold input.
  destruct (isValidInput W ToASCII input); cbn [negb]; [| reflexivity].
  destruct (detectAndPing_returns W reqCtx input me now)
    as (f4 & f6 & t & tr & E & Ht & _).
  exists f4, f6, t, tr. split; [exact E |]. split; [exact Ht |].
  rewrite bind_run, E. cbn. rewrite app_nil_r. reflexivity.
Qed.

(** ** The capacity of the gates *)

Lemma Atoi_range (intSize : Z) (s : string) (v : Z) :
  Go_strconv.Atoi intSize s = Some v ->
  - 2 ^ (intSize - 1) <= v <= 2 ^ (intSize - 1) - 1.
Proof.
  unfold Go_strconv.Atoi. destruct s as [| c r]; [discriminate |].
  cbv zeta.
  destruct (if Ascii.eqb c "+" || Ascii.eqb c "-" then r else String c r);
    [discriminate |].
  destruct (Go_strconv.digits 0 _) as [n |]; [| discriminate].
  destruct (Z.leb_spec (- 2 ^ (intSize - 1)) (if Ascii.eqb c "-" then - n else n));
    [| discriminate].
  destruct (Z.leb_spec (if Ascii.eqb c "-" then - n else n) (2 ^ (intSize - 1) - 1));
    [| discriminate].
  cbn. intros [= <-]. lia.
Qed.

(** X1. Whatever the environment holds for a variable (nothing, zero, a
    negative number, text that is no number, a number too large for an
    [int]), [getEnvInt] with a positive default gives a positive number:
    the default, or a number that fits an [int].  So each of the three
    gates is made empty with a capacity of at least one, and the first
    send on it goes through. *)
Theorem gates_always_have_room :
  forall (intSize : Z) (environ : gmap string string),
    (forall key def,
       0 < def ->
       0 < getEnvInt intSize environ key def /\
       (getEnvInt intSize environ key def = def \/
        getEnvInt intSize environ key def <= 2 ^ (intSize - 1) - 1)) /\
    (forall s,
       1 <= chanCap (init intSize environ s) /\
       chanLen (init intSize environ s) = 0 /\
       exists c, send (init intSize environ s) = Some c /\ chanLen c = 1).
Proof.
  intros intSize environ.
  assert (G : forall key def,
    0 < def ->
    0 < getEnvInt intSize environ key def /\
    (getEnvInt intSize environ key def = def \/
     getEnvInt intSize environ key def <= 2 ^ (intSize - 1) - 1)).
  { intros key def Hd. rewrite getEnvInt_unfold.
    destruct (Go_strconv.Atoi intSize _) as [i |] eqn:A; [| auto].
    destruct (Z.ltb_spec 0 i); [| auto].
    apply Atoi_range in A. split; [lia | right; lia]. }
  split; [exact G |].
  intros s.
  assert (C : 0 < chanCap (init intSize environ s)).
  { destruct s; cbn; apply G; lia. }
  assert (L : chanLen (init intSize environ s) = 0) by (destruct s; reflexivity).
  split; [lia |]. split; [exact L |].
  unfold send. rewrite L. destruct (Z.ltb_spec 0 (chanCap (init intSize environ s))); [| lia].
  eexists. split; [reflexivity | reflexivity].
Qed.

(** ** The pieces on their own *)

(** X2. [acquire] is a race between the gate and the context, with no
    preference for either.  When a slot is free and the context is already
    done at the call, the choice of the runtime decides: a done context
    does not keep [acquire] from taking a slot.  When a slot is free
    strictly before the context is done, the slot is taken at that
    instant; when the context is done strictly before a slot is free, the
    result is false at that instant, without an event; with a gate that
    stays full under a context that is never done, [acquire] never
    returns. *)
Theorem acquire_races_the_gate_against_the_context :
  forall (W : World) (ctx : Context) (sem : Sem) (me : GoId) (now : Time),
    (forall x d,
       slotFree W sem me now = Some x -> doneAt ctx = Some d ->
       x <= now -> d <= now ->
       acquire W ctx sem me now
       = if pick W me now then Returns true now [entry me now (EvAcquire sem)]
         else Returns false now []) /\
    (forall x,
       slotFree W sem me now = Some x ->
       (forall d, doneAt ctx = Some d -> Z.max now x < Z.max now d) ->
       acquire W ctx sem me now
       = Returns true (Z.max now x) [entry me (Z.max now x) (EvAcquire sem)]) /\
    (forall d,
       doneAt ctx = Some d ->
       (forall x, slotFree W sem me now = Some x -> Z.max now d < Z.max now x) ->
       acquire W ctx sem me now = Returns false (Z.max now d) []) /\
    (slotFree W sem me now = None -> doneAt ctx = None ->
     acquire W ctx sem me now = Blocks []).
Proof.
  intros W ctx sem me now. unfold acquire.
  split; [| split; [| split]].
  - intros x d -> -> Hx Hd. unfold select2.
    rewrite !Z.max_l by lia. rewrite Z.ltb_irrefl.
    destruct (pick W me now); reflexivity.
  - intros x -> H. unfold select2. destruct (doneAt ctx) as [d |]; [| reflexivity].
    specialize (H d eq_refl). destruct (Z.ltb_spec (Z.max now x) (Z.max now d)); [| lia].
    reflexivity.
  - intros d -> H. unfold select2. destruct (slotFree W sem me now) as [x |]; [| reflexivity].
    specialize (H x eq_refl).
    destruct (Z.ltb_spec (Z.max now x) (Z.max now d)); [lia |].
    destruct (Z.ltb_spec (Z.max now d) (Z.max now x)); [| lia].
    reflexivity.
  - intros -> ->. reflexivity.
Qed.

(** X19. [pingWithFamily] runs one command, ping, with the flag -4 for
    the family "4" and -6 for any other, the options of Windows exactly
    when [runtime.GOOS] is "windows", and the host as last argument.  It
    returns true exactly when the context is not done at the call and the
    process exits with status zero before the context is done; under a
    context that is done it returns false by then at the latest; it fails
    to return only when the process never exits and the context is never
    done. *)
Theorem pingWithFamily_true_iff_exit_zero_in_time :
  forall (W : World) (ctx : Context) (host family : string) (me : GoId) (now : Time),
    exists args,
      pingCommand family host "ping" args /\
      (args = [if String.eqb family "4" then "-4" else "-6"; "-n"; "1"; "-w"; "1500"; host]
       <-> GOOS W = "windows") /\
      match pingWithFamily W ctx host family me now with
      | Returns ok t tr =>
          tr = [entry me t (EvRun "ping" args ok)] /\
          now <= t /\
          (forall d, doneAt ctx = Some d -> t <= Z.max now d) /\
          (ok = true <->
           isDone ctx now = false /\
           exists e, child W "ping" args me now = Some (true, e) /\
                     t = Z.max now e /\
                     forall d, doneAt ctx = Some d -> Z.max now e < d)
      | Blocks tr =>
          tr = [] /\ doneAt ctx = None /\ child W "ping" args me now = None
      end.
Proof.
  intros W ctx host family me now. unfold pingWithFamily. cbn zeta.
  match goal with
  | |- context [CommandContext_Run W ctx "ping" ?a] => exists a
  end.
  split; [| split].
  - split; [reflexivity |]. eexists. split; [reflexivity |].
    destruct (String.eqb (GOOS W) "windows"), (String.eqb family "4"); cbn; auto.
  - destruct (String.eqb_spec (GOOS W) "windows") as [E | N].
    + split; [auto |]. intros _. destruct (String.eqb family "4"); reflexivity.
    + split; [| contradiction]. destruct (String.eqb family "4"); discriminate.
  - rewrite bind_run. unfold CommandContext_Run.
    destruct (isDone ctx now) eqn:Dn.
    { cbn. split; [reflexivity |]. split; [lia |]. split; [intros; lia |].
      split; [discriminate | intros [X _]; discriminate]. }
    pose proof (proj1 (isDone_false_iff ctx now) Dn) as Hn.
    destruct (child W "ping" _ me now) as [[ok e] |], (doneAt ctx) as [d |].
    + specialize (Hn d eq_refl).
      destruct (Z.ltb_spec (Z.max now e) d).
      * destruct ok; cbn; (split; [reflexivity |]); (split; [lia |]);
          (split; [intros ? [= <-]; lia |]).
        -- split; [| reflexivity]. intros _. split; [reflexivity |].
           exists e. split; [reflexivity |]. split; [reflexivity |].
           intros ? [= <-]. lia.
        -- split; [discriminate |]. intros (_ & e' & [=] & _).
      * cbn. split; [reflexivity |]. split; [lia |].
        split; [intros ? [= <-]; lia |].
        split; [discriminate |]. intros (_ & e' & [= _ <-] & _ & H').
        specialize (H' d eq_refl). lia.
    + destruct ok; cbn; (split; [reflexivity |]); (split; [lia |]);
        (split; [discriminate |]).
      * split; [| reflexivity]. intros _. split; [reflexivity |].
        exists e. split; [reflexivity |]. split; [reflexivity | discriminate].
      * split; [discriminate |]. intros (_ & e' & [=] & _).
    + specialize (Hn d eq_refl). cbn. split; [reflexivity |]. split; [lia |].
      split; [intros ? [= <-]; lia |].
      split; [discriminate |]. intros (_ & e' & [=] & _).
    + cbn. auto.
Qed.

(** X10. A request for a literal address probes one family only, that of
    the parsed address: the field of that family is "ok" exactly when an
    event of the trace reports a success, the other field is "no"; all
    events belong to the one goroutine of that family; the ICMP events
    are on the socket of the protocol of the address and for that
    address; the ping is run with the flag of that family and the input
    as typed. *)
Theorem literal_request_probes_one_family :
  forall (W : World) (parent : Context) (input : string) (parsed : IP)
         (me : GoId) (now : Time),
    ParseIP W input = Some parsed ->
    let v4 := notNil (To4 parsed) in
    let probe := me ++ [if v4 then 4%nat else 6%nat] in
    exists ok t tr,
      detectAndPing W parent input me now
      = Returns (if v4 then {| IPv4 := okno ok; IPv6 := "no" |}
                 else {| IPv4 := "no"; IPv6 := okno ok |}) t tr /\
      (ok = true <-> Exists (fun e => success (what e) = true) tr) /\
      Forall (fun e =>
                probe `prefix_of` who e /\
                match what e with
                | EvListenPacket network laddr _ => (network, laddr) = socketFor parsed
                | EvWriteTo ip _ | EvDoICMP ip _ => ip = parsed
                | EvReadFrom _ | EvSockClose => True
                | EvRun name args _ =>
                    pingCommand (if v4 then "4" else "6") input name args
                | _ => False
                end) tr.
Proof.
  intros W parent input parsed me now P v4 probe.
  pose proof (literal_request_run W parent input parsed me now P) as R.
  cbv zeta in R. fold v4 in R. fold probe in R. rewrite R. clear R.
  set (ctx := WithTimeout parent now (5 * Second)).
  assert (HD : ctxDeadline ctx = Some (overallEnd (ctxDeadline parent) now))
    by apply overall_deadline.
  destruct (literal_go_spec W ctx _ parsed input (if v4 then "4" else "6") HD) as [T V].
  destruct (T probe now) as (ok & t & tr & E & Ht & Hi).
  destruct (V probe now ok t tr E) as (Hiff & _).
  pose proof (literal_go_every W ctx parsed input (if v4 then "4" else "6") probe now) as K.
  rewrite E in K |- *. cbn [traceOf] in K.
  exists ok, (Z.max now t), tr. split; [destruct v4; reflexivity |].
  split; [exact Hiff |].
  unfold inside in Hi. rewrite Forall_forall in K, Hi. apply Forall_forall.
  intros e I. split; [apply Hi; exact I | apply K; exact I].
Qed.

(** ** Further runs of the sample worlds *)

(** X8 on a request for example.com, unreachable, whose caller cancels
    after 1 s: the request ends at 1 s. *)
Lemma domain_request_ends_with_its_context_witness :
  let W := sampleWorld false [] (fun _ => false) false in
  exists tr,
    detectAndPing W (cancelledAt (1 * Second)) "example.com" [] 0
    = Returns {| IPv4 := "no"; IPv6 := "no" |} (1 * Second) tr /\
    1 * Second <= Z.max 0 (1 * Second).
Proof.
  intros W.
  assert (E : exists tr,
    detectAndPing W (cancelledAt (1 * Second)) "example.com" [] 0
    = Returns {| IPv4 := "no"; IPv6 := "no" |} (1 * Second) tr)
    by (eexists; vm_compute; reflexivity).
  destruct E as [tr E]. exists tr. split; [exact E |].
  exact (domain_request_ends_with_its_context W (cancelledAt (1 * Second))
           "example.com" [] 0 (1 * Second) _ _ tr eq_refl eq_refl E).
Defined.

(** X18 on a probe of 8.8.8.8, silent, under a context with a deadline
    at 5 s that is cancelled after 1 s. *)
Lemma doICMP_read_ignores_cancellation_witness :
  let W := sampleWorld true [] (fun _ => false) false in
  let ctx := {| ctxDeadline := Some (5 * Second); ctxCancel := Some (1 * Second) |} in
  exists tr,
    doICMP W ctx addr_8_8_8_8 [] 0 = Returns false (5 * Second) tr /\
    doICMP W (deadlineOnly (Some (5 * Second))) addr_8_8_8_8 [] 0
    = Returns false (5 * Second) tr.
Proof.
  intros W ctx.
  apply (doICMP_read_ignores_cancellation W ctx addr_8_8_8_8 [] 0
           (map byteOf [8; 0; 0; 0; 17; 112; 0; 1; 112; 105; 110; 103]));
    [reflexivity | reflexivity | reflexivity | reflexivity | exact I].
Defined.

(** X9 on a request for 8.8.8.8, silent, whose caller cancels after 1 s:
    the request ends at 5 s. *)
Lemma literal_request_outlasts_cancellation_witness :
  let W := sampleWorld true [] (fun _ => false) false in
  exists tr,
    detectAndPing W (cancelledAt (1 * Second)) "8.8.8.8" [] 0
    = Returns {| IPv4 := "no"; IPv6 := "no" |} (5 * Second) tr.
Proof.
  intros W.
  apply (literal_request_outlasts_cancellation W (cancelledAt (1 * Second)) "8.8.8.8"
           addr_8_8_8_8 [] 0
           (map byteOf [8; 0; 0; 0; 17; 112; 0; 1; 112; 105; 110; 103]));
    [reflexivity | reflexivity | reflexivity | reflexivity | reflexivity | exact I].
Defined.

(** X12 on a request for example.com, unreachable: the lookups take 30 ms,
    each stage 2.2 s, the ping 40 ms. *)
Lemma domain_fallbacks_wait_for_failed_stages_witness :
  let W := sampleWorld false [] (fun _ => false) false in
  exists tr,
    detectAndPing W (deadlineOnly None) "example.com" [] 0
    = Returns {| IPv4 := "no"; IPv6 := "no" |} (4470 * Millisecond) tr /\
    Forall (fun e =>
              (kind (what e) = KTCP -> 2200 * Millisecond <= at_ e) /\
              (kind (what e) = KPing -> 4400 * Millisecond <= at_ e)) tr /\
    4400 * Millisecond <= 4470 * Millisecond.
Proof.
  intros W.
  assert (E : exists tr,
    detectAndPing W (deadlineOnly None) "example.com" [] 0
    = Returns {| IPv4 := "no"; IPv6 := "no" |} (4470 * Millisecond) tr)
    by (eexists; vm_compute; reflexivity).
  destruct E as [tr E]. exists tr. split; [exact E |].
  destruct (domain_fallbacks_wait_for_failed_stages W (deadlineOnly None)
              "example.com" [] 0 _ _ tr eq_refl E) as (F & H4 & _).
  split; [exact F |].
  apply H4; [reflexivity |].
  vm_compute in E. injection E as <-.
  apply Exists_cons_tl, Exists_cons_hd. eexists. split; [reflexivity | discriminate].
Defined.

(** X11 on a request for a name without addresses, on a host where every
    probe would succeed. *)
Lemma unresolved_domain_is_not_probed_witness :
  let W := sampleWorld true [] (fun _ => true) true in
  exists tr,
    detectAndPing W (deadlineOnly None) "nosuch.example" [] 0
    = Returns {| IPv4 := "no"; IPv6 := "no" |} (30 * Millisecond) tr /\
    Forall (fun e => kind (what e) = KGate semDNS \/ kind (what e) = KResolve) tr /\
    (List.length tr <= 6)%nat.
Proof.
  intros W.
  assert (E : exists tr,
    detectAndPing W (deadlineOnly None) "nosuch.example" [] 0
    = Returns {| IPv4 := "no"; IPv6 := "no" |} (30 * Millisecond) tr)
    by (eexists; vm_compute; reflexivity).
  destruct E as [tr E]. exists tr. split; [exact E |].
  destruct (unresolved_domain_is_not_probed W (deadlineOnly None)
              "nosuch.example" [] 0 _ _ tr eq_refl E) as (_ & K & L & _).
  - vm_compute in E. injection E as <-.
    repeat (constructor; [intros network host ips; cbn; try discriminate;
                          intros [= _ _ <-]; reflexivity |]).
    constructor.
  - split; assumption.
Defined.

(** X10 on a request for 8.8.8.8 that is answered by an echo reply. *)
Lemma literal_request_probes_one_family_witness :
  let W := sampleWorld true [RxPacket (12 * Millisecond) echoReply4]
             (fun _ => false) false in
  exists ok t tr,
    detectAndPing W (deadlineOnly None) "8.8.8.8" [] 0
    = Returns {| IPv4 := okno ok; IPv6 := "no" |} t tr /\
    (ok = true <-> Exists (fun e => success (what e) = true) tr).
Proof.
  intros W.
  destruct (literal_request_probes_one_family W (deadlineOnly None) "8.8.8.8"
              addr_8_8_8_8 [] 0 eq_refl) as (ok & t & tr & E & H & _).
  exists ok, t, tr. split; [exact E | exact H].
Defined.

(** X1 with MAX_ICMP set to -3: the gate gets its default capacity. *)
Lemma gates_always_have_room_witness :
  let environ : gmap string string := {[ "MAX_ICMP" := "-3" ]} in
  0 < getEnvInt 64 environ "MAX_ICMP" 8192 /\
  (getEnvInt 64 environ "MAX_ICMP" 8192 = 8192 \/
   getEnvInt 64 environ "MAX_ICMP" 8192 <= 2 ^ (64 - 1) - 1).
Proof.
  intros environ.
  apply (proj1 (gates_always_have_room 64 environ) "MAX_ICMP" 8192). lia.
Defined.

(** X2 on a free gate under a context whose deadline has passed, the
    runtime choosing the first arm: the slot is taken. *)
Lemma acquire_races_the_gate_against_the_context_witness :
  let W := sampleWorld false [] (fun _ => false) false in
  acquire W (deadlineOnly (Some 0)) semICMP [] 5
  = Returns true 5 [entry [] 5 (EvAcquire semICMP)].
Proof.
  intros W.
  apply (proj1 (acquire_races_the_gate_against_the_context W (deadlineOnly (Some 0))
                  semICMP [] 5) 5 0); [reflexivity | reflexivity | lia | lia].
Defined.

(** X15 on an ICMP stage without raw sockets: its one goroutine fails at
    once, the stage returns after 2.2 s. *)
Lemma failed_stage_lasts_until_its_context_is_done_witness :
  let W := sampleWorld false [] (fun _ => false) false in
  exists tr,
    raceEcho W (deadlineOnly None) [addr_example] [] 0
    = Returns false (2200 * Millisecond) tr /\
    2200 * Millisecond = Z.max 0 (stageDone (deadlineOnly None) 0).
Proof.
  intros W.
  assert (E : exists tr,
    raceEcho W (deadlineOnly None) [addr_example] [] 0
    = Returns false (2200 * Millisecond) tr)
    by (eexists; vm_compute; reflexivity).
  destruct E as [tr E]. exists tr. split; [exact E |].
  exact (proj1 (failed_stage_lasts_until_its_context_is_done W (deadlineOnly None)
                  [addr_example] "4" [] [] 0) _ tr E).
Defined.

(** X16 on an ICMP stage over two addresses that both answer after
    12 ms. *)
Lemma stage_returns_at_first_success_witness :
  let W := sampleWorld true [RxPacket (12 * Millisecond) echoReply4]
             (fun _ => false) false in
  exists tr,
    raceEcho W (deadlineOnly None) [addr_example; addr_8_8_8_8] [] 0
    = Returns true (12 * Millisecond) tr /\
    Exists (fun e => success (what e) = true /\ at_ e = 12 * Millisecond) tr /\
    Forall (fun e => success (what e) = true -> 12 * Millisecond <= at_ e) tr.
Proof.
  intros W.
  assert (E : exists tr,
    raceEcho W (deadlineOnly None) [addr_example; addr_8_8_8_8] [] 0
    = Returns true (12 * Millisecond) tr)
    by (eexists; vm_compute; reflexivity).
  destruct E as [tr E]. exists tr. split; [exact E |].
  exact (proj1 (stage_returns_at_first_success W (deadlineOnly None)
                  [addr_example; addr_8_8_8_8] "4" [] [] 0) _ tr E).
Defined.

(** X17 on a probe of 8.8.8.8 that is answered by an echo reply. *)
Lemma doICMP_closes_the_socket_it_opened_witness :
  let W := sampleWorld true [RxPacket (12 * Millisecond) echoReply4]
             (fun _ => false) false in
  exists tr opened rest,
    doICMP W (deadlineOnly (Some (5 * Second))) addr_8_8_8_8 [] 0
    = Returns true (12 * Millisecond) tr /\
    tr = entry [] 0 (EvListenPacket "ip4:icmp" "0.0.0.0" opened) :: rest /\
    opened = true.
Proof.
  intros W.
  assert (E : exists tr,
    doICMP W (deadlineOnly (Some (5 * Second))) addr_8_8_8_8 [] 0
    = Returns true (12 * Millisecond) tr)
    by (eexists; vm_compute; reflexivity).
  destruct E as [tr E].
  destruct (proj1 (doICMP_closes_the_socket_it_opened W
                     (deadlineOnly (Some (5 * Second))) addr_8_8_8_8 [] 0) _ _ tr E)
    as (opened & rest & Etr & H).
  exists tr, opened, rest. split; [exact E |]. split; [exact Etr |].
  destruct opened; [reflexivity |]. destruct H as (_ & [=] & _).
Defined.




